(** * fb-backend: the request handlers of [server.js]

    A shallow embedding of the Express handlers [POST /api/validate],
    [POST /api/share] and [POST /api/share-story] of [src/server.js], and
    the properties of the specification that concern them.

    - JavaScript values are the values [JSON.parse] builds for [req.body];
      strings are sequences of UTF-16 code units; numbers are exact
      integers or [NaN], and binary64 for the one quotient.
    - The automated browser is an oracle: every call of the Puppeteer API
      that talks to the browser either returns or throws, as the world
      decides.  [page.waitForTimeout] is a timer and only passes time.
    - A handler is a computation in a state-and-exception monad whose state
      holds the handler's mutable locals ([browser], [results]) and a log
      of everything the handler did: calls, waits, the response.
    - [console.log], rate limiting, CORS and routing are left out.

    The definitions come first: values, the browser, the monad, the
    handlers, then the vocabulary of the properties.  The lemmas and the
    theorems follow, the loop and the shape of a run before the properties
    of each endpoint. *)

From Stdlib Require Import String Ascii DecimalString.
From Stdlib Require Import DecimalFacts DecimalPos DecimalZ.
From Stdlib Require Import ZArith NArith List Bool Lia.
From Stdlib Require Import Floats Uint63.
Import ListNotations.

Local Open Scope Z_scope.

(* ================================================================== *)
(** * JavaScript strings *)

(** A string is its sequence of UTF-16 code units. *)
Definition jsstring := list N.

(** The code units of an ASCII literal. *)
Definition js (s : string) : jsstring :=
  map N_of_ascii (list_ascii_of_string s).
Arguments js s%_string.

Definition code_eqb (s t : jsstring) : bool :=
  if list_eq_dec N.eq_dec s t then true else false.

(** [WhiteSpace] and [LineTerminator] of ECMA-262: the code units that
    [String.prototype.trim] and [parseInt] strip. *)
Definition is_white_space (c : N) : bool :=
  (existsb (N.eqb c)
     [9; 10; 11; 12; 13; 32; 160; 5760; 8232; 8233; 8239; 8287; 12288; 65279]
   || ((8192 <=? c) && (c <=? 8202)))%N.

Fixpoint trim_start (s : jsstring) : jsstring :=
  match s with
  | c :: r => if is_white_space c then trim_start r else s
  | [] => []
  end.

(** [s.trim()] *)
Definition trim (s : jsstring) : jsstring :=
  rev (trim_start (rev (trim_start s))).

(* ================================================================== *)
(** * JavaScript numbers *)

(** The numbers the handlers compute with are integers or [NaN]: what
    [parseInt] returns, loop counters, lengths.  Integers are kept exact.
    (A digit string too long for a binary64 is rounded by [parseInt], or
    becomes [Infinity]; the rounding is monotone and leaves 1, 5, 10 and 60
    fixed, so [Math.max] and [Math.min] below clamp the exact integer to the
    same result.) *)
Inductive JsNum :=
| NaN
| Num (z : Z).

(** [Math.max(a, b)] and [Math.min(a, b)]: [NaN] if either argument is. *)
Definition Math_max (a b : JsNum) : JsNum :=
  match a, b with
  | Num x, Num y => Num (Z.max x y)
  | _, _ => NaN
  end.

Definition Math_min (a b : JsNum) : JsNum :=
  match a, b with
  | Num x, Num y => Num (Z.min x y)
  | _, _ => NaN
  end.

(** [a < b]: false when either side is [NaN]. *)
Definition js_lt (a b : JsNum) : bool :=
  match a, b with
  | Num x, Num y => x <? y
  | _, _ => false
  end.

Definition js_sub (a b : JsNum) : JsNum :=
  match a, b with
  | Num x, Num y => Num (x - y)
  | _, _ => NaN
  end.

Definition js_mul (a b : JsNum) : JsNum :=
  match a, b with
  | Num x, Num y => Num (x * y)
  | _, _ => NaN
  end.

(** ** Number::toString

    An integer below 10^21 in magnitude prints as its decimal digits.  From
    10^21 on the print is in exponent form, [d.ddde+n], with the fewest
    digits that still read back as the same binary64, and of these the
    closest to the number (ECMA-262, Number::toString). *)

(** The decimal digits of an integer. *)
Definition plain_digits (z : Z) : string :=
  NilZero.string_of_int (Z.to_int z).

(** The binary64 nearest to the integer [c] is [z], for [z] a binary64 at
    or above 2^53: [c] is within half a unit in the last place of [z], at
    the distance itself only if the significand of [z] is even. *)
Definition rounds_to (z c : Z) : bool :=
  let e := Z.log2 z - 52 in
  let above := 2 ^ (e - 1) in
  let below := if z =? 2 ^ Z.log2 z then 2 ^ (e - 2) else above in
  if Z.even (z / 2 ^ e)
  then (z - below <=? c) && (c <=? z + above)
  else (z - below <? c) && (c <? z + above).

(** The multiple [s * q] of [q] that reads back as [z], if there is one:
    the closest to [z], the even [s] of two that are as close. *)
Definition candidate (z q : Z) : option Z :=
  let lower := z / q in
  let upper := lower + 1 in
  match rounds_to z (lower * q), rounds_to z (upper * q) with
  | true, true =>
      let under := z - lower * q in
      let over := upper * q - z in
      if under <? over then Some lower
      else if over <? under then Some upper
      else if Z.even lower then Some lower else Some upper
  | true, false => Some lower
  | false, true => Some upper
  | false, false => None
  end.

(** The digits [s] and their number [k], [k] as small as possible, from [k]
    on, for [z] of [n] decimal digits.  Seventeen digits are enough for any
    binary64. *)
Fixpoint shortest (z n k : Z) (fuel : nat) : Z * Z :=
  match fuel with
  | O => (z / 10 ^ (n - k), k)
  | S fuel' =>
      match candidate z (10 ^ (n - k)) with
      | Some s => (s, k)
      | None => shortest z n (k + 1) fuel'
      end
  end.

Definition exponent_form (z : Z) : string :=
  let n := Z.of_nat (String.length (plain_digits z)) in
  let '(s, k) := shortest z n 1 17 in
  if s =? 10 ^ k then ("1e+" ++ plain_digits n)%string
  else
    match plain_digits s with
    | String d EmptyString =>
        (String d EmptyString ++ "e+" ++ plain_digits (n - 1))%string
    | String d ds =>
        (String d (String "." ds) ++ "e+" ++ plain_digits (n - 1))%string
    | EmptyString => EmptyString
    end.

(** [Number::toString] of an integer. *)
Definition number_to_string (z : Z) : jsstring :=
  if Z.abs z <? 10 ^ 21 then js (plain_digits z)
  else if z <? 0 then js (String "-" (exponent_form (- z)))
  else js (exponent_form z).

(** ** The one quotient: binary64

    [successful / shareCount * 100] is not an integer computation, so it is
    carried out in binary64 with the kernel's floats. *)

(** The binary64 of an integer; exact below 2^53 in magnitude. *)
Definition float_of_Z (z : Z) : float :=
  if z <? 0 then PrimFloat.opp (PrimFloat.of_uint63 (Uint63.of_Z (- z)))
  else PrimFloat.of_uint63 (Uint63.of_Z z).

Definition to_float (n : JsNum) : float :=
  match n with
  | NaN => nan
  | Num z => float_of_Z z
  end.

Definition two52 : float := Eval cbv in float_of_Z (2 ^ 52).

(** The largest integral binary64 not above [x]. *)
Definition float_floor (x : float) : float :=
  if PrimFloat.leb two52 (PrimFloat.abs x) then x
  else
    let r := if PrimFloat.ltb x 0%float
             then PrimFloat.add (PrimFloat.sub x two52) two52
             else PrimFloat.sub (PrimFloat.add x two52) two52 in
    if PrimFloat.ltb x r then PrimFloat.sub r 1%float else r.

(** [Math.round(x)]: the nearest integer, a tie going towards +Infinity;
    [NaN] and the infinities are returned as they are. *)
Definition Math_round (x : float) : float :=
  let f := float_floor x in
  if PrimFloat.leb 0.5%float (PrimFloat.sub x f)
  then PrimFloat.add f 1%float
  else f.

(* ================================================================== *)
(** * JavaScript values *)

Set Warnings "-register-all".

(** The values of a parsed JSON body, and [undefined] for what is absent.
    A number is an integer here, a binary64 with no fraction; a fractional
    count can still be sent as a string. *)
Inductive JsVal :=
| JUndefined
| JNull
| JBool (b : bool)
| JNum (z : Z)
| JStr (s : jsstring)
| JArr (elems : list JsVal)
| JObj (props : list (jsstring * JsVal)).

(** [ToBoolean] *)
Definition truthy (v : JsVal) : bool :=
  match v with
  | JUndefined | JNull => false
  | JBool b => b
  | JNum z => negb (z =? 0)
  | JStr s => match s with [] => false | _ => true end
  | JArr _ | JObj _ => true
  end.

(** [Array.isArray(v)] *)
Definition isArray (v : JsVal) : bool :=
  match v with
  | JArr _ => true
  | _ => false
  end.

(** The elements of an array, as [find] and the spread [...v] visit them. *)
Definition elements (v : JsVal) : list JsVal :=
  match v with
  | JArr elems => elems
  | _ => []
  end.

(** The own property [k] of a parsed object; as in [JSON.parse], of two
    members with the same key the later one stands. *)
Fixpoint own_property (k : jsstring) (props : list (jsstring * JsVal)) : JsVal :=
  match props with
  | [] => JUndefined
  | (k', v) :: rest =>
      match own_property k rest with
      | JUndefined => if code_eqb k k' then v else JUndefined
      | later => later
      end
  end.

(** The key [k] is among the own properties of a parsed object. *)
Definition has_own (k : jsstring) (props : list (jsstring * JsVal)) : bool :=
  existsb (fun kv => code_eqb (fst kv) k) props.

(** [ToString].  A primitive prints; an array prints as [join] does, its
    elements converted in turn; an object prints as [[object Object]],
    through [Object.prototype.toString].  An object with a [toString]
    member of its own has no method there (a parsed value is never
    callable), and [valueOf] returns the object itself: the conversion then
    throws the [TypeError] [Cannot convert object to primitive value], for
    which [None] stands. *)
Fixpoint to_string (v : JsVal) : option jsstring :=
  match v with
  | JUndefined => Some (js "undefined")
  | JNull => Some (js "null")
  | JBool true => Some (js "true")
  | JBool false => Some (js "false")
  | JNum z => Some (number_to_string z)
  | JStr s => Some s
  | JArr elems =>
      (* Array.prototype.join: null and undefined elements print empty *)
      let item x :=
        match x with
        | JUndefined | JNull => Some []
        | _ => to_string x
        end in
      (fix join (l : list JsVal) : option jsstring :=
         match l with
         | [] => Some []
         | [x] => item x
         | x :: rest =>
             match item x with
             | Some s =>
                 match join rest with
                 | Some r => Some (s ++ js "," ++ r)
                 | None => None
                 end
             | None => None
             end
         end) elems
  | JObj props =>
      if has_own (js "toString") props then None
      else Some (js "[object Object]")
  end.

(** ** parseInt *)

(** The value of a code unit as a digit: 0-9, then a-z or A-Z for 10-35. *)
Definition digit_value (c : N) : option Z :=
  (if (48 <=? c) && (c <=? 57) then Some (Z.of_N (c - 48))
   else if (97 <=? c) && (c <=? 122) then Some (Z.of_N (c - 87))
   else if (65 <=? c) && (c <=? 90) then Some (Z.of_N (c - 55))
   else None)%N.

(** The value of the longest prefix of [s] made of digits of [radix];
    [acc] is the value read so far, [None] while no digit has been read. *)
Fixpoint parse_digits (radix : Z) (acc : option Z) (s : jsstring) : option Z :=
  match s with
  | [] => acc
  | c :: r =>
      match digit_value c with
      | Some d =>
          if d <? radix
          then parse_digits radix
                 (Some (match acc with Some a => a * radix + d | None => d end)) r
          else acc
      | None => acc
      end
  end.

(** [parseInt(string)] with no radix: leading white space, a sign, an
    optional [0x] or [0X] prefix, then the digits; [NaN] without a digit. *)
Definition parseInt_string (s : jsstring) : JsNum :=
  let s := trim_start s in
  let '(sign, s) :=
    match s with
    | 45%N :: r => (-1, r)
    | 43%N :: r => (1, r)
    | _ => (1, s)
    end in
  let '(radix, s) :=
    match s with
    | 48%N :: 120%N :: r => (16, r)
    | 48%N :: 88%N :: r => (16, r)
    | _ => (10, s)
    end in
  match parse_digits radix None s with
  | None => NaN
  | Some v => Num (sign * v)
  end.

(** [parseInt(v)]: [v] is converted to a string first, which can throw. *)
Definition parseInt (v : JsVal) : option JsNum :=
  option_map parseInt_string (to_string v).

(** ** Lines 160-161: the clamps *)

(** [Math.min(Math.max(parseInt(x), lo), hi)] *)
Definition clamp (x : JsVal) (lo hi : Z) : option JsNum :=
  option_map (fun n => Math_min (Math_max n (Num lo)) (Num hi)) (parseInt x).

(** [const shareCount = Math.min(Math.max(parseInt(count), 1), 10)] *)
Definition shareCount_of (count : JsVal) : option JsNum := clamp count 1 10.

(** [const shareDelay = Math.min(Math.max(parseInt(delay), 5), 60)] *)
Definition shareDelay_of (delay : JsVal) : option JsNum := clamp delay 5 60.

(** Property access [v.k] on a value that is neither [null] nor
    [undefined], for the keys the handlers read ([appstate], [message],
    [link], [count], [delay], [name], [value]): an own property of an
    object, [undefined] on anything else. *)
Definition nullish (v : JsVal) : bool :=
  match v with
  | JUndefined | JNull => true
  | _ => false
  end.

Definition get (v : JsVal) (k : jsstring) : JsVal :=
  match v with
  | JObj props => own_property k props
  | _ => JUndefined
  end.

(** [v === s] for a string literal [s] *)
Definition is_string (v : JsVal) (s : jsstring) : bool :=
  match v with
  | JStr t => code_eqb t s
  | _ => false
  end.

(* ================================================================== *)
(** * The automated browser and the response *)

(** The [aria-label] selectors of the source, by their label. *)
Inductive Selector :=
| CreateAPost       (* aria-label = Create a post *)
| Messenger         (* aria-label = Messenger *)
| Notifications     (* aria-label = Notifications *)
| YourProfile       (* aria-label = Your profile *)
| AddToYourPost     (* aria-label = Add to your post *)
| Post.             (* aria-label = Post *)

(** What a [page.evaluate] callback sees: whether
    [document.querySelector(sel)] finds an element. *)
Definition Dom := Selector -> bool.

(** A thrown [Error] and its [message]. *)
Record Error := { error_message : jsstring }.

(** The calls of the Puppeteer API that talk to the browser. *)
Inductive Call :=
| Launch                              (* puppeteer.launch(...) *)
| NewPage                             (* browser.newPage() *)
| SetViewport (width height : Z)      (* page.setViewport(...) *)
| SetUserAgent (ua : jsstring)        (* page.setUserAgent(...) *)
| SetCookie (cookies : list JsVal)    (* page.setCookie(...appstate) *)
| Goto (url : jsstring)               (* page.goto(url, ...) *)
| Evaluate                            (* page.evaluate(...) *)
| Click (sel : Selector)              (* page.click(sel) *)
| KeyboardType (text : JsVal)         (* page.keyboard.type(text) *)
| Close.                              (* browser.close() *)

(** The outcome of a call: it returns (the page as it then stands matters
    to [Evaluate] only) or it throws. *)
Inductive Outcome :=
| Returns (d : Dom)
| Throws (e : Error).

(** The world decides the outcome of the n-th call and what the clock
    reads. *)
Record World := {
  outcome : nat -> Outcome;
  clock : nat -> jsstring
}.

(** An entry of [results] (lines 238-243 and 257-262). *)
Inductive AttemptRecord :=
| Success (attempt : Z) (timestamp : jsstring) (message : jsstring)
| Failure (attempt : Z) (error : jsstring) (timestamp : jsstring).

Definition attempt_of (r : AttemptRecord) : Z :=
  match r with
  | Success a _ _ => a
  | Failure a _ _ => a
  end.

(** [r.success] *)
Definition success (r : AttemptRecord) : bool :=
  match r with
  | Success _ _ _ => true
  | Failure _ _ _ => false
  end.

(** [summary] of the 200 response of [/api/share] (lines 280-285). *)
Record Summary := {
  total : JsNum;
  successful : Z;
  failed : Z;
  successRate : float
}.

(** The JSON bodies the two handlers send. *)
Inductive Body :=
| BError (error : jsstring)
    (* { success: false, error } *)
| BValid (message user : jsstring) (userId : JsVal)
    (* { success: true, message, user, userId } *)
| BShared (results : list AttemptRecord) (summary : Summary).
    (* { success: true, results, summary } *)

(** What a handler does, in order. *)
Inductive Event :=
| Called (c : Call) (returned : bool)
| Waited (ms : JsNum)                  (* page.waitForTimeout(ms) *)
| Responded (status : Z) (body : Body). (* res.status(status).json(body) *)

(** The state of one handler run: the calls made so far (the oracle's next
    index), the log, and the handler's mutable locals. *)
Record State := {
  calls : nat;
  log : list Event;
  browser : bool;                  (* [let browser] holds a browser *)
  results : list AttemptRecord     (* [const results = []] *)
}.

Definition start : State :=
  {| calls := 0; log := []; browser := false; results := [] |}.

Definition record (ev : Event) (st : State) : State :=
  {| calls := calls st; log := log st ++ [ev];
     browser := browser st; results := results st |}.

(** ** Reading a log *)

Definition responses (l : list Event) : list (Z * Body) :=
  flat_map (fun ev => match ev with
                      | Responded s b => [(s, b)]
                      | _ => []
                      end) l.

(** The browsers acquired: the launches that returned. *)
Definition acquired (l : list Event) : nat :=
  length (filter (fun ev => match ev with
                            | Called Launch true => true
                            | _ => false
                            end) l).

(** The releases: the calls of [browser.close()]. *)
Definition released (l : list Event) : nat :=
  length (filter (fun ev => match ev with
                            | Called Close _ => true
                            | _ => false
                            end) l).

(** The launches attempted, and the navigations: the calls of [page.goto]. *)
Definition launches (l : list Event) : nat :=
  length (filter (fun ev => match ev with
                            | Called Launch _ => true
                            | _ => false
                            end) l).

Definition navigations (l : list Event) : nat :=
  length (filter (fun ev => match ev with
                            | Called (Goto _) _ => true
                            | _ => false
                            end) l).

(** The inter-attempt and settle waits, in order. *)
Definition waits (l : list Event) : list JsNum :=
  flat_map (fun ev => match ev with
                      | Waited ms => [ms]
                      | _ => []
                      end) l.

(* ================================================================== *)
(** * The handler monad *)

Inductive Completion (A : Type) :=
| Normal (a : A)
| Abrupt (e : Error).
Arguments Normal {A} a.
Arguments Abrupt {A} e.

Definition M (A : Type) : Type := State -> Completion A * State.

Definition ret {A} (a : A) : M A := fun st => (Normal a, st).

Definition bind {A B} (m : M A) (k : A -> M B) : M B :=
  fun st =>
    match m st with
    | (Normal a, st') => k a st'
    | (Abrupt e, st') => (Abrupt e, st')
    end.

(** [throw new Error(msg)], and the engine's [TypeError]s alike. *)
Definition throw {A} (msg : jsstring) : M A :=
  fun st => (Abrupt {| error_message := msg |}, st).

(** [try { m } catch (e) { h e }] *)
Definition try_catch {A} (m : M A) (h : Error -> M A) : M A :=
  fun st =>
    match m st with
    | (Normal a, st') => (Normal a, st')
    | (Abrupt e, st') => h e st'
    end.

(** [try { m } finally { f }]: [f] runs on every exit of [m]; what [f]
    throws replaces the completion of [m]. *)
Definition finally {A} (m : M A) (f : M unit) : M A :=
  fun st =>
    match m st with
    | (c, st') =>
        match f st' with
        | (Normal _, st'') => (c, st'')
        | (Abrupt e, st'') => (Abrupt e, st'')
        end
    end.

Declare Scope handler_scope.
Delimit Scope handler_scope with handler.
Notation "x <- m ;; k" := (bind m (fun x => k))
  (at level 61, m at next level, right associativity) : handler_scope.
Notation "m ;; k" := (bind m (fun _ => k))
  (at level 61, right associativity) : handler_scope.
Local Open Scope handler_scope.

(** [if (c) { m }] *)
Definition when (c : bool) (m : M unit) : M unit :=
  if c then m else ret tt.

(** [res.status(status).json(body)] *)
Definition respond (status : Z) (body : Body) : M unit :=
  fun st => (Normal tt, record (Responded status body) st).

(** [results.push(r)] *)
Definition pushed (r : AttemptRecord) (st : State) : State :=
  {| calls := calls st; log := log st;
     browser := browser st; results := results st ++ [r] |}.

Definition push (r : AttemptRecord) : M unit :=
  fun st => (Normal tt, pushed r st).

(** [v.trim()] on the variable called [name]: a [TypeError] unless [v] is a
    string. *)
Definition call_trim (name : string) (v : JsVal) : M jsstring :=
  match v with
  | JStr s => ret (trim s)
  | _ => throw (js name ++ js ".trim is not a function")
  end.

(** The value of a conversion that can throw (see [to_string]). *)
Definition converted {A} (r : option A) : M A :=
  match r with
  | Some a => ret a
  | None => throw (js "Cannot convert object to primitive value")
  end.

(** The state once the call [c] has been made and has returned, or not. *)
Definition after_call (c : Call) (returned : bool) (st : State) : State :=
  {| calls := S (calls st); log := log st ++ [Called c returned];
     browser := browser st; results := results st |}.

(** [browser = ...]: the local [browser] now holds a browser. *)
Definition assigned (st : State) : State :=
  {| calls := calls st; log := log st;
     browser := true; results := results st |}.

Section Handlers.

Variable w : World.

(** A call of the automation API: logged, answered by the world. *)
Definition call (c : Call) : M Dom :=
  fun st =>
    match outcome w (calls st) with
    | Returns d => (Normal d, after_call c true st)
    | Throws e => (Abrupt e, after_call c false st)
    end.

(** [await page.waitForTimeout(ms)]: Puppeteer's timer, a promise that a
    [setTimeout] resolves after [ms] milliseconds.  It sends nothing to the
    browser and has no failing outcome. *)
Definition waitForTimeout (ms : JsNum) : M unit :=
  fun st => (Normal tt, record (Waited ms) st).

(** What the clock reads in state [st]. *)
Definition time_at (st : State) : jsstring := clock w (length (log st)).

(** [new Date().toISOString()] *)
Definition now : M jsstring := fun st => (Normal (time_at st), st).

(** [browser = await puppeteer.launch({ headless: true, args: [...] })]:
    [browser] is assigned only if the launch returns. *)
Definition launch : M unit :=
  _ <- call Launch ;;
  fun st => (Normal tt, assigned st).

(** [if (browser) { await browser.close(); }] *)
Definition close_browser : M unit :=
  fun st => if browser st then (_ <- call Close ;; ret tt) st
            else (Normal tt, st).

Definition home : jsstring := js "https://facebook.com".

Definition user_agent : jsstring :=
  js "Mozilla/5.0 (Windows NT 10.0; Win64; x64) AppleWebKit/537.36 (KHTML, like Gecko) Chrome/91.0.4472.124 Safari/537.36".

(** Lines 71-80 and 179-184: a page with viewport, user agent and the
    cookies of [appstate]. *)
Definition open_page (appstate : list JsVal) : M unit :=
  _ <- call NewPage ;;
  _ <- call (SetViewport 1280 720) ;;
  _ <- call (SetUserAgent user_agent) ;;
  _ <- call (SetCookie appstate) ;;
  ret tt.

(** [const { appstate, ... } = req.body]: a [TypeError] when there is no
    body to take properties from. *)
Definition destructure (body : JsVal) : M unit :=
  match body with
  | JUndefined =>
      throw (js "Cannot destructure property 'appstate' of 'req.body' as it is undefined.")
  | JNull =>
      throw (js "Cannot destructure property 'appstate' of 'req.body' as it is null.")
  | _ => ret tt
  end.

(* ------------------------------------------------------------------ *)
(** ** POST /api/validate (lines 32-135) *)

(** [appstate.find(c => c.name === name)]: the first element whose [name]
    is [name], [undefined] if there is none; reading [c.name] of a [null]
    element throws. *)
Fixpoint find_named (name : jsstring) (l : list JsVal) : M JsVal :=
  match l with
  | [] => ret JUndefined
  | c :: rest =>
      match c with
      | JNull => throw (js "Cannot read properties of null (reading 'name')")
      | JUndefined =>
          throw (js "Cannot read properties of undefined (reading 'name')")
      | _ => if is_string (get c (js "name")) name then ret c
             else find_named name rest
      end
  end.

(** Lines 57-121: the browser, the page, the landmarks, the response. *)
Definition check_session (appstate c_user : JsVal) : M unit :=
  launch ;;
  open_page (elements appstate) ;;
  _ <- call (Goto home) ;;
  d <- call Evaluate ;;
  let isLoggedIn := d CreateAPost || d Messenger || d Notifications in
  if isLoggedIn then
    d' <- call Evaluate ;;
    let userInfo :=
      if d' YourProfile then js "Your profile" else js "Facebook User" in
    respond 200
      (BValid (js "Session is valid and ready for automation")
              userInfo (get c_user (js "value")))
  else
    respond 401
      (BError (js "Invalid session - unable to login with provided cookies")).

Definition validate_try (body : JsVal) : M unit :=
  destructure body ;;
  let appstate := get body (js "appstate") in
  if negb (truthy appstate) || negb (isArray appstate) then
    respond 400
      (BError (js "Invalid AppState format. Must be an array of cookies."))
  else
    c_user <- find_named (js "c_user") (elements appstate) ;;
    xs <- find_named (js "xs") (elements appstate) ;;
    if negb (truthy c_user) || negb (truthy xs) then
      respond 400 (BError (js "Missing required cookies: c_user or xs"))
    else
      check_session appstate c_user.

Definition validate (body : JsVal) : M unit :=
  finally
    (try_catch (validate_try body)
       (fun error =>
          respond 500
            (BError (js "Validation failed: " ++ error_message error))))
    close_browser.

(* ------------------------------------------------------------------ *)
(** ** POST /api/share (lines 138-299) *)

Section Posting.

(** The request's [message] and [link], and the clamped [shareCount] and
    [shareDelay], as the loop of lines 188-269 sees them. *)
Variables (message link : JsVal) (shareCount shareDelay : JsNum).

(** Lines 250-253 and 265-267:
    [if (i < shareCount - 1) await page.waitForTimeout(shareDelay * 1000)] *)
Definition delay_before_next (i : Z) : M unit :=
  when (js_lt (Num i) (js_sub shareCount (Num 1)))
       (waitForTimeout (js_mul shareDelay (Num 1000))).

(** [link && link.trim()] as a condition *)
Definition link_given : M bool :=
  if truthy link then
    t <- call_trim "link" link ;; ret (truthy (JStr t))
  else ret false.

(** Lines 192-230: navigate, check the login, open the composer, type the
    message, attach the link, submit. *)
Definition compose_and_submit : M unit :=
  _ <- call (Goto home) ;;
  waitForTimeout (Num 2000) ;;
  d <- call Evaluate ;;
  let isLoggedIn := d CreateAPost in
  if negb isLoggedIn then throw (js "Session expired during automation")
  else
    _ <- call (Click CreateAPost) ;;
    waitForTimeout (Num 1000) ;;
    _ <- call (KeyboardType message) ;;
    waitForTimeout (Num 1000) ;;
    attach <- link_given ;;
    when attach
      (_ <- call (Click AddToYourPost) ;;
       waitForTimeout (Num 1000) ;;
       _ <- call (KeyboardType link) ;;
       waitForTimeout (Num 1000)) ;;
    _ <- call (Click Post) ;;
    waitForTimeout (Num 5000).

(** Lines 232-247: the composer button should have disappeared. *)
Definition verify_published (i : Z) : M unit :=
  d <- call Evaluate ;;
  let postSuccess := negb (d CreateAPost) in
  if postSuccess then
    timestamp <- now ;;
    push (Success (i + 1) timestamp
            (js "Successfully shared post " ++ number_to_string (i + 1)))
  else throw (js "Post may not have been published").

(** Lines 192-247: the steps of an attempt, up to the verdict on the
    publication. *)
Definition attempt_steps (i : Z) : M unit :=
  compose_and_submit ;; verify_published i.

(** Lines 255-268: the [catch] of an attempt. *)
Definition record_failure (i : Z) (attemptError : Error) : M unit :=
  timestamp <- now ;;
  push (Failure (i + 1) (error_message attemptError) timestamp) ;;
  delay_before_next i.

(** Lines 189-268: the body of the loop. *)
Definition attempt (i : Z) : M unit :=
  try_catch
    (attempt_steps i ;; delay_before_next i)
    (record_failure i).

(** [for (let i = ...; i < shareCount; i++) { attempt }], from [i] on.  The
    recursion is on [fuel]; [iterations] below is fuel enough. *)
Fixpoint for_loop (fuel : nat) (i : Z) : M unit :=
  if js_lt (Num i) shareCount then
    match fuel with
    | O => ret tt
    | S fuel' => attempt i ;; for_loop fuel' (i + 1)
    end
  else ret tt.

End Posting.

(** The number of [i = 0, 1, ...] with [i < bound]. *)
Definition iterations (bound : JsNum) : nat :=
  match bound with
  | NaN => O
  | Num c => Z.to_nat c
  end.

(** A destructuring default: [k = dflt] *)
Definition default (v dflt : JsVal) : JsVal :=
  match v with
  | JUndefined => dflt
  | _ => v
  end.

(** [!message || message.trim().length === 0] *)
Definition message_missing (message : JsVal) : M bool :=
  if negb (truthy message) then ret true
  else t <- call_trim "message" message ;; ret (Nat.eqb (length t) 0).

(** Lines 271-286: the summary of [results]. *)
Definition summarize (shareCount : JsNum) (results : list AttemptRecord)
  : Summary :=
  let successful := Z.of_nat (length (filter (fun r => success r) results)) in
  let failed :=
    Z.of_nat (length (filter (fun r => negb (success r)) results)) in
  {| total := shareCount;
     successful := successful;
     failed := failed;
     successRate :=
       Math_round
         (PrimFloat.mul
            (PrimFloat.div (float_of_Z successful) (to_float shareCount))
            100%float) |}.

(** Lines 165-286: the browser, the page, the attempts, the response.
    ([const results = []]: [results] is empty in [start].) *)
Definition post_all (appstate message link : JsVal)
  (shareCount shareDelay : JsNum) : M unit :=
  launch ;;
  open_page (elements appstate) ;;
  for_loop message link shareCount shareDelay (iterations shareCount) 0 ;;
  fun st =>
    respond 200 (BShared (results st) (summarize shareCount (results st))) st.

Definition share_try (body : JsVal) : M unit :=
  destructure body ;;
  let appstate := get body (js "appstate") in
  let message := get body (js "message") in
  let link := get body (js "link") in
  let count := default (get body (js "count")) (JNum 1) in
  let delay := default (get body (js "delay")) (JNum 15) in
  if negb (truthy appstate) || negb (isArray appstate) then
    respond 400 (BError (js "Invalid AppState format"))
  else
    missing <- message_missing message ;;
    if missing then
      respond 400 (BError (js "Message is required"))
    else
      shareCount <- converted (shareCount_of count) ;;
      shareDelay <- converted (shareDelay_of delay) ;;
      post_all appstate message link shareCount shareDelay.

Definition share (body : JsVal) : M unit :=
  finally
    (try_catch (share_try body)
       (fun error =>
          respond 500 (BError (js "Sharing failed: " ++ error_message error))))
    close_browser.

End Handlers.

(** [shareCount] and [shareDelay] as [share_try] computes them from a
    request body, defaults included. *)
Definition shareCount_in (body : JsVal) : option JsNum :=
  shareCount_of (default (get body (js "count")) (JNum 1)).

Definition shareDelay_in (body : JsVal) : option JsNum :=
  shareDelay_of (default (get body (js "delay")) (JNum 15)).

(** [a; a + 1; ...], [n] of them: the ordinals of [n] attempts from [a]. *)
Fixpoint count_from (a : Z) (n : nat) : list Z :=
  match n with
  | O => []
  | S n' => a :: count_from (a + 1) n'
  end.

(** A run of a handler: the final state. *)
Definition run (handler : World -> JsVal -> M unit) (w : World) (body : JsVal)
  : State :=
  snd (handler w body start).

(* ================================================================== *)
(** * The vocabulary of the properties *)

(** The events of driving a page: anything but a launch, a close or a
    response. *)
Definition page_event (ev : Event) : bool :=
  match ev with
  | Called Launch _ | Called Close _ | Responded _ _ => false
  | _ => true
  end.

(** [advance st st' evs rs]: from [st] to [st'] the handler drove the page
    through [evs] and pushed [rs]; [browser] did not change. *)
Definition advance (st st' : State) (evs : list Event)
  (rs : list AttemptRecord) : Prop :=
  log st' = log st ++ evs /\ forallb page_event evs = true /\
  browser st' = browser st /\ results st' = results st ++ rs.

(** A computation is quiet when it only drives the page, whatever its
    completion. *)
Definition quiet {A} (m : M A) : Prop :=
  forall st, exists evs,
    advance st (snd (m st)) evs [] /\ navigations evs = O.

(** The log of a finished run: at most one launch, then page events, then
    the one response, then the release of the browser if one was launched. *)
Definition run_shape (l : list Event) (s : Z) (b : Body) : Prop :=
  exists pre closing,
    l = pre ++ Responded s b :: closing /\
    (pre = [] /\ closing = [] \/
     exists ok evs,
       pre = Called Launch ok :: evs /\ forallb page_event evs = true /\
       if ok then exists ok', closing = [Called Close ok']
       else evs = [] /\ closing = []).

(** The world answers the five calls that set the page up. *)
Definition sets_up (w : World) : Prop :=
  forall n, (n < 5)%nat -> exists d, outcome w n = Returns d.

(** The state once the page is set up. *)
Definition ready (cookies : list JsVal) : State :=
  {| calls := 5;
     log := [Called Launch true; Called NewPage true;
             Called (SetViewport 1280 720) true;
             Called (SetUserAgent user_agent) true;
             Called (SetCookie cookies) true];
     browser := true;
     results := [] |}.

(** The summary of no records under a [NaN] count. *)
Definition NaN_summary : Summary :=
  {| total := NaN; successful := 0; failed := 0; successRate := nan |}.

(** C8 as stated: whenever a response is written, every browser acquired
    until then has been released. *)
Definition released_before_responding (l : list Event) : Prop :=
  forall l1 s b l2,
    l = l1 ++ Responded s b :: l2 -> released l1 = acquired l1.

(** C8 as the handlers have it: at most one browser is acquired; it is
    released exactly once; and the release is the last thing the run does,
    with the response already written. *)
Definition released_once_at_the_end (l : list Event) : Prop :=
  (acquired l <= 1)%nat /\
  released l = acquired l /\
  forall l1 ok l2,
    l = l1 ++ Called Close ok :: l2 ->
    l2 = [] /\ acquired l1 = 1%nat /\ length (responses l1) = 1%nat.

(* ================================================================== *)
(** * Worlds and requests to run the handlers on *)

Definition midnight : jsstring := js "2025-01-01T00:00:00.000Z".

(** Every call returns.  The composer button is on the page at each login
    check and gone after each post: without a link an attempt makes six
    calls, after the five that set the page up. *)
Definition cooperative : World :=
  {| outcome := fun n => Returns (fun _ => Nat.eqb ((n - 5) mod 6) 1);
     clock := fun _ => midnight |}.

(** The page is set up; every later call throws. *)
Definition broken_page : World :=
  {| outcome := fun n =>
       if Nat.ltb n 5 then Returns (fun _ => false)
       else Throws {| error_message :=
                        js "Navigation timeout of 30000 ms exceeded" |};
     clock := fun _ => midnight |}.

(** Every call returns and no landmark is ever on the page. *)
Definition logged_out : World :=
  {| outcome := fun _ => Returns (fun _ => false);
     clock := fun _ => midnight |}.

(** Every call returns and the composer button never goes away. *)
Definition stuck_composer : World :=
  {| outcome := fun _ => Returns (fun _ => true);
     clock := fun _ => midnight |}.

(** A cookie [{ name, value }]. *)
Definition cookie (name value : string) : JsVal :=
  JObj [(js "name", JStr (js name)); (js "value", JStr (js value))].

Definition session : JsVal :=
  JArr [cookie "c_user" "100001"; cookie "xs" "secret"; cookie "datr" "x"].

(** [{ appstate, message: "hello", count }] *)
Definition post_request (count : JsVal) : JsVal :=
  JObj [(js "appstate", session); (js "message", JStr (js "hello"));
        (js "count", count)].

(** [{ appstate, message: "hello", count, delay }] *)
Definition timed_request (count delay : JsVal) : JsVal :=
  JObj [(js "appstate", session); (js "message", JStr (js "hello"));
        (js "count", count); (js "delay", delay)].

(** [{ appstate }] with the cookies of [session]. *)
Definition validate_request : JsVal := JObj [(js "appstate", session)].

(* ================================================================== *)
(** * POST /api/share-story (lines 302-339) *)

(** A string is iterated by code points: a high surrogate followed by a low
    one is a single element. *)
Definition high_surrogate (c : N) : bool := ((55296 <=? c) && (c <=? 56319))%N.

Definition low_surrogate (c : N) : bool := ((56320 <=? c) && (c <=? 57343))%N.

Fixpoint code_points (s : jsstring) : list jsstring :=
  match s with
  | [] => []
  | c :: rest =>
      match rest with
      | c' :: rest' =>
          if high_surrogate c && low_surrogate c'
          then [c; c'] :: code_points rest'
          else [c] :: code_points rest
      | [] => [[c]]
      end
  end.

(** [...v] in an argument list: the elements of an array, the code points
    of a string; a [TypeError] on anything else (in V8's wording). *)
Definition spread (v : JsVal) : M (list JsVal) :=
  match v with
  | JArr elems => ret elems
  | JStr s => ret (map JStr (code_points s))
  | JUndefined =>
      throw (js "undefined is not iterable (cannot read property Symbol(Symbol.iterator))")
  | JNull =>
      throw (js "object null is not iterable (cannot read property Symbol(Symbol.iterator))")
  | _ =>
      throw (js "Spread syntax requires ...iterable[Symbol.iterator] to be a function")
  end.

(** The JSON bodies [/api/share-story] sends. *)
Inductive StoryBody :=
| StoryShared (message : jsstring)   (* { success: true, message } *)
| StoryError (error : jsstring).     (* { success: false, error } *)

(** Lines 305-329: the [try].  Every path through it ends in the one call
    of [res.json]; the status and the body of that call are the value of
    the computation. *)
Definition share_story_try (w : World) (body : JsVal) : M (Z * StoryBody) :=
  destructure body ;;
  let appstate := get body (js "appstate") in
  let message := get body (js "message") in
  if negb (truthy appstate) || negb (truthy message) then
    ret (400, StoryError (js "AppState and message are required"))
  else
    launch w ;;
    _ <- call w NewPage ;;
    cookies <- spread appstate ;;
    _ <- call w (SetCookie cookies) ;;
    _ <- call w (Goto home) ;;
    ret (200,
         StoryShared
           (js "Story sharing endpoint - implementation may need adjustment based on Facebook UI")).

(** Lines 304-335: the [try] and its [catch]. *)
Definition share_story_answer (w : World) (body : JsVal)
  : M (Z * StoryBody) :=
  try_catch (share_story_try w body)
    (fun error => ret (500, StoryError (error_message error))).

(** Lines 302-339: the handler, with its [finally]. *)
Definition share_story (w : World) (body : JsVal) : M (Z * StoryBody) :=
  finally (share_story_answer w body) (close_browser w).

(** [{ appstate, message }] *)
Definition story_request (appstate message : JsVal) : JsVal :=
  JObj [(js "appstate", appstate); (js "message", message)].

(* ================================================================== *)
(** * Further vocabulary *)



(** The calls that bring a browser to a page and take it away again:
    nothing is read from the page and nothing is done on it. *)
Definition connects_only (ev : Event) : bool :=
  match ev with
  | Called Launch _ | Called NewPage _ | Called (SetCookie _) _
  | Called (Goto _) _ | Called Close _ => true
  | _ => false
  end.

(** The five calls that set the page up, in order (lines 58-80 and
    166-184). *)
Definition setup_calls (cookies : list JsVal) : list Call :=
  [Launch; NewPage; SetViewport 1280 720; SetUserAgent user_agent;
   SetCookie cookies].

(** The [k]-th call is the first one to throw, and throws [e]. *)
Definition fails_at (w : World) (k : nat) (e : Error) : Prop :=
  outcome w k = Throws e /\
  forall j, (j < k)%nat -> exists d, outcome w j = Returns d.

(** The state when the [k]-th call of the setup has thrown. *)
Definition setup_failed (cookies : list JsVal) (k : nat) : State :=
  {| calls := S k;
     log := map (fun c => Called c true) (firstn k (setup_calls cookies)) ++
            [Called (nth k (setup_calls cookies) Launch) false];
     browser := negb (Nat.eqb k 0);
     results := [] |}.

(** The answer of a run, when it has answered once. *)
Definition answered (l : list Event) (s : Z) (b : Body) : Prop :=
  responses l = [(s, b)].

(** The requests [/api/share] accepts: [appstate] is the array [cookies]
    and [message] the string [text], which does not trim to nothing. *)
Definition accepted (body : JsVal) (cookies : list JsVal) (text : jsstring)
  : Prop :=
  get body (js "appstate") = JArr cookies /\
  get body (js "message") = JStr text /\
  trim text <> [].

(** A run that does not reach the attempts: what it leaves. *)
Definition untried (final : State) (s : Z) (msg : jsstring) : Prop :=
  responses (log final) = [(s, BError msg)] /\
  navigations (log final) = O /\ results final = [].

(** The page cannot be opened: [browser.newPage()] throws. *)
Definition no_page : World :=
  {| outcome := fun n =>
       if Nat.eqb n 1
       then Throws {| error_message := js "Protocol error: Target closed" |}
       else Returns (fun _ => false);
     clock := fun _ => midnight |}.

(** [c] is the first entry of [cookies] whose [name] is [name], as
    [appstate.find] returns it: no entry before it has that name, or is
    [null]. *)
Definition first_named (name : jsstring) (cookies : list JsVal) (c : JsVal)
  : Prop :=
  exists before after,
    cookies = before ++ c :: after /\
    Forall (fun x => nullish x = false /\ get x (js "name") <> JStr name)
      before /\
    get c (js "name") = JStr name.

(** The requests [/api/validate] takes to the browser: [appstate] is the
    array [cookies], in which [find] meets an entry named [c_user], the
    first being [c_user], and one named [xs]. *)
Definition validated (body : JsVal) (cookies : list JsVal) (c_user : JsVal)
  : Prop :=
  get body (js "appstate") = JArr cookies /\
  first_named (js "c_user") cookies c_user /\
  exists xs, first_named (js "xs") cookies xs.

(** The landmarks of a logged-in page (lines 93-97). *)
Definition landmark (d : Dom) : bool :=
  d CreateAPost || d Messenger || d Notifications.

(** A computation keeps [I] when [I] holds of the state it leaves, on
    every exit, whenever it holds of the state it starts in. *)
Definition keeps (I : State -> Prop) {A} (m : M A) : Prop :=
  forall st, I st -> I (snd (m st)).

(** Every event of the log satisfies [P] and every record [Q]. *)
Definition logged (P : Event -> Prop) (Q : AttemptRecord -> Prop)
  (st : State) : Prop :=
  Forall P (log st) /\ Forall Q (results st).

(** No input is simulated and no time is spent waiting. *)
Definition passive (ev : Event) : Prop :=
  match ev with
  | Called (Click _) _ | Called (KeyboardType _) _ | Waited _ => False
  | _ => True
  end.

(** What is typed is one of [texts]. *)
Definition types_only (texts : list JsVal) (ev : Event) : Prop :=
  match ev with
  | Called (KeyboardType t) _ => In t texts
  | _ => True
  end.

(** [sel] is not clicked. *)
Definition never_clicks (sel : Selector) (ev : Event) : Prop :=
  match ev with
  | Called (Click s) _ => s <> sel
  | _ => True
  end.

(** [link && link.trim()] is falsy: there is no link to attach. *)
Definition no_link (link : JsVal) : Prop :=
  truthy link = false \/ exists s, link = JStr s /\ trim s = [].

(** The calls that simulate input. *)
Definition input_call (c : Call) : bool :=
  match c with
  | Click _ | KeyboardType _ => true
  | _ => false
  end.

(** Whether the link is attached: [attach] is the value of
    [link && link.trim()] as a condition, for a [link] on which [trim] does
    not throw. *)
Definition link_attached (link : JsVal) (attach : bool) : Prop :=
  if attach then exists s, link = JStr s /\ trim s <> [] else no_link link.

(** The events of an attempt in which every call returns (lines 192-235). *)
Definition attempt_events (message link : JsVal) (attach : bool)
  : list Event :=
  [Called (Goto home) true; Waited (Num 2000); Called Evaluate true;
   Called (Click CreateAPost) true; Waited (Num 1000);
   Called (KeyboardType message) true; Waited (Num 1000)] ++
  (if attach
   then [Called (Click AddToYourPost) true; Waited (Num 1000);
         Called (KeyboardType link) true; Waited (Num 1000)]
   else []) ++
  [Called (Click Post) true; Waited (Num 5000); Called Evaluate true].

(** The calls such an attempt makes. *)
Definition calls_per_attempt (attach : bool) : nat := if attach then 8 else 6.

(** The wait after attempt [i + 1] of [c], [d] seconds apart. *)
Definition pause (c d i : Z) : list Event :=
  if i <? c - 1 then [Waited (Num (d * 1000))] else [].

(** The world sets the page up and lets [n] posts through: every call
    returns, the composer button is there at each login check and gone
    after each submission. *)
Definition lets_through (w : World) (attach : bool) (n : nat) : Prop :=
  sets_up w /\
  forall k j, (k < n)%nat -> (j < calls_per_attempt attach)%nat ->
    exists d,
      outcome w (5 + calls_per_attempt attach * k + j) = Returns d /\
      (j = 1%nat -> d CreateAPost = true) /\
      (S j = calls_per_attempt attach -> d CreateAPost = false).

(** The record of the published post [i + 1]. *)
Definition published (i : Z) (r : AttemptRecord) : Prop :=
  exists t,
    r = Success (i + 1) t
          (js "Successfully shared post " ++ number_to_string (i + 1)).

(** An event other than a wait, or the wait of one second. *)
Definition brief (ev : Event) : Prop :=
  match ev with
  | Waited ms => ms = Num 1000
  | _ => True
  end.

(** The events of one attempt, delay apart: a navigation, then events of
    the page with no further navigation; the last of them is a call, or the
    second's wait after the message was typed. *)
Definition attempt_trace (seg : list Event) : Prop :=
  exists ok rest,
    seg = Called (Goto home) ok :: rest /\
    navigations rest = O /\ forallb page_event rest = true /\
    brief (last seg (Called Evaluate true)).

(** The attempts of a run and the pauses between them: the [k]-th trace,
    then the pause after attempt [i + k + 1] of [c]. *)
Fixpoint interleave (c d i : Z) (segs : list (list Event)) : list Event :=
  match segs with
  | [] => []
  | seg :: segs' => seg ++ pause c d i ++ interleave c d (i + 1) segs'
  end.

(** [parseInt(count)] and [parseInt(delay)] return: neither [count] nor
    [delay] is, or holds, an object with a [toString] member of its own. *)
Definition converts (body : JsVal) : Prop :=
  (exists sc, shareCount_in body = Some sc) /\
  (exists sd, shareDelay_in body = Some sd).


(** The value is an object with a [toString] member of its own, or an array
    that holds one, at any depth. *)
Fixpoint own_toString_inside (v : JsVal) : bool :=
  match v with
  | JObj props => has_own (js "toString") props
  | JArr elems => existsb own_toString_inside elems
  | _ => false
  end.

(** [{ appstate, message: "hello", count: { toString: 1 } }] *)
Definition unprintable_count : JsVal :=
  post_request (JObj [(js "toString", JNum 1)]).
(* ================================================================== *)
(** * parseInt and Math.round, tried *)

Example parseInt_15 : parseInt (JNum 15) = Some (Num 15).
Proof. reflexivity. Qed.

Example parseInt_px : parseInt (JStr (js " -12px")) = Some (Num (-12)).
Proof. reflexivity. Qed.

Example parseInt_hex : parseInt (JStr (js "0x1f")) = Some (Num 31).
Proof. reflexivity. Qed.

Example parseInt_array : parseInt (JArr [JNum 7; JNum 9]) = Some (Num 7).
Proof. reflexivity. Qed.

Example parseInt_null : parseInt JNull = Some NaN.
Proof. reflexivity. Qed.

Example parseInt_object : parseInt (JObj [(js "n", JNum 3)]) = Some NaN.
Proof. reflexivity. Qed.

(** An object with a [toString] member of its own cannot be converted,
    alone or as an element of an array: [parseInt] throws. *)
Example parseInt_own_toString :
  parseInt (JObj [(js "toString", JNum 1)]) = None.
Proof. reflexivity. Qed.

Example parseInt_own_toString_in_array :
  parseInt (JArr [JNum 3; JObj [(js "toString", JNum 1)]]) = None.
Proof. reflexivity. Qed.

(** From 10^21 on a number prints in exponent form, of which [parseInt]
    reads the first digit. *)
Example number_to_string_1e21 : number_to_string (10 ^ 21) = js "1e+21".
Proof. vm_compute. reflexivity. Qed.

Example number_to_string_2_70 :
  number_to_string (2 ^ 70) = js "1.1805916207174113e+21".
Proof. vm_compute. reflexivity. Qed.

Example number_to_string_below_1e21 :
  number_to_string (- 123456789012345683968) = js "-123456789012345683968".
Proof. vm_compute. reflexivity. Qed.

Example parseInt_1e21 : parseInt (JNum (10 ^ 21)) = Some (Num 1).
Proof. vm_compute. reflexivity. Qed.

(** [Math.round] on halves, on either side of zero, and on [NaN]. *)
Example round_half_up : Math_round 2.5%float = 3%float.
Proof. reflexivity. Qed.

Example round_negative_half : Math_round (-2.5)%float = (-2)%float.
Proof. reflexivity. Qed.

Example round_third :
  Math_round (PrimFloat.mul (PrimFloat.div 1%float 3%float) 100%float)
  = 33%float.
Proof. reflexivity. Qed.

Example round_NaN : Math_round nan = nan.
Proof. reflexivity. Qed.

(* ================================================================== *)
(** * The clamps *)

Lemma clamp_number (x : JsVal) (lo hi z : Z) :
  parseInt x = Some (Num z) ->
  clamp x lo hi = Some (Num (Z.min (Z.max z lo) hi)).
Proof. intros H. unfold clamp. rewrite H. reflexivity. Qed.


(** The clamp throws exactly when the conversion does. *)
Lemma clamp_None (x : JsVal) (lo hi : Z) :
  clamp x lo hi = None <-> to_string x = None.
Proof.
  unfold clamp, parseInt. destruct (to_string x); simpl; split; congruence.
Qed.

(** A clamp that yields a number yields one within its bounds. *)
Lemma clamp_range (x : JsVal) (lo hi c : Z) :
  lo <= hi -> clamp x lo hi = Some (Num c) -> lo <= c <= hi.
Proof.
  intros Hle. unfold clamp.
  destruct (parseInt x) as [[|z]|]; simpl; try discriminate.
  intros [= <-]. lia.
Qed.

Lemma shareCount_range (count : JsVal) (c : Z) :
  shareCount_of count = Some (Num c) -> 1 <= c <= 10.
Proof. apply clamp_range. lia. Qed.

Lemma shareDelay_range (delay : JsVal) (c : Z) :
  shareDelay_of delay = Some (Num c) -> 5 <= c <= 60.
Proof. apply clamp_range. lia. Qed.

(** The loop condition [i < bound] holds for exactly [iterations bound]
    values of [i] from 0 on. *)
Lemma iterations_spec (bound : JsNum) (k : nat) :
  js_lt (Num (Z.of_nat k)) bound = true <-> (k < iterations bound)%nat.
Proof.
  destruct bound as [|c]; simpl.
  - split; [discriminate | lia].
  - rewrite Z.ltb_lt. lia.
Qed.

(* ================================================================== *)
(** * Reading a log: sums over appended logs *)

Lemma responses_app (l1 l2 : list Event) :
  responses (l1 ++ l2) = responses l1 ++ responses l2.
Proof. apply flat_map_app. Qed.

Lemma acquired_app (l1 l2 : list Event) :
  acquired (l1 ++ l2) = (acquired l1 + acquired l2)%nat.
Proof. unfold acquired. now rewrite filter_app, length_app. Qed.

Lemma released_app (l1 l2 : list Event) :
  released (l1 ++ l2) = (released l1 + released l2)%nat.
Proof. unfold released. now rewrite filter_app, length_app. Qed.

Lemma launches_app (l1 l2 : list Event) :
  launches (l1 ++ l2) = (launches l1 + launches l2)%nat.
Proof. unfold launches. now rewrite filter_app, length_app. Qed.

Lemma navigations_app (l1 l2 : list Event) :
  navigations (l1 ++ l2) = (navigations l1 + navigations l2)%nat.
Proof. unfold navigations. now rewrite filter_app, length_app. Qed.

Create Rewrite HintDb log.
#[local] Hint Rewrite responses_app acquired_app released_app launches_app
  navigations_app : log.

Lemma page_events_silent (evs : list Event) :
  forallb page_event evs = true ->
  responses evs = [] /\ acquired evs = O /\ released evs = O /\ launches evs = O.
Proof.
  induction evs as [|ev evs IH]; simpl; [tauto|].
  rewrite andb_true_iff. intros [Hev Hevs].
  destruct (IH Hevs) as (H1 & H2 & H3 & H4).
  unfold acquired, released, launches in *.
  destruct ev as [[] []| |]; simpl in *; try discriminate; auto.
Qed.

Lemma advance_refl (st : State) : advance st st [] [].
Proof. unfold advance. now rewrite !app_nil_r. Qed.

Lemma advance_trans (st1 st2 st3 : State) evs1 evs2 rs1 rs2 :
  advance st1 st2 evs1 rs1 -> advance st2 st3 evs2 rs2 ->
  advance st1 st3 (evs1 ++ evs2) (rs1 ++ rs2).
Proof.
  intros (L1 & P1 & B1 & R1) (L2 & P2 & B2 & R2). unfold advance.
  rewrite L2, L1, B2, B1, R2, R1, !app_assoc, forallb_app, P1, P2. auto.
Qed.

Lemma quiet_ret {A} (a : A) : quiet (ret a).
Proof. intros st. exists []. split; [apply advance_refl | reflexivity]. Qed.

Lemma quiet_throw {A} (msg : jsstring) : quiet (@throw A msg).
Proof. intros st. exists []. split; [apply advance_refl | reflexivity]. Qed.

Lemma quiet_bind {A B} (m : M A) (k : A -> M B) :
  quiet m -> (forall a, quiet (k a)) -> quiet (bind m k).
Proof.
  intros Hm Hk st. unfold bind.
  destruct (Hm st) as (evs1 & H1 & N1).
  destruct (m st) as [[a|e] st1]; simpl in *.
  - destruct (Hk a st1) as (evs2 & H2 & N2).
    exists (evs1 ++ evs2). split.
    + apply (advance_trans _ _ _ _ _ _ _ H1 H2).
    + rewrite navigations_app. lia.
  - now exists evs1.
Qed.

Lemma quiet_if {A} (c : bool) (m1 m2 : M A) :
  quiet m1 -> quiet m2 -> quiet (if c then m1 else m2).
Proof. now destruct c. Qed.

Lemma quiet_when (c : bool) (m : M unit) : quiet m -> quiet (when c m).
Proof. intros. apply quiet_if; auto using quiet_ret. Qed.

Lemma quiet_call_trim (name : string) (v : JsVal) : quiet (call_trim name v).
Proof. destruct v; simpl; auto using quiet_ret, quiet_throw. Qed.

Lemma advance_after_call (c : Call) (b : bool) (st : State) :
  page_event (Called c true) = true ->
  advance st (after_call c b st) [Called c b] [].
Proof.
  intros Hc.
  assert (Hb : page_event (Called c b) = true) by now destruct c, b.
  unfold advance, forallb. rewrite Hb. simpl. now rewrite app_nil_r.
Qed.

Lemma quiet_call (w : World) (c : Call) :
  page_event (Called c true) = true -> navigations [Called c true] = O ->
  quiet (call w c).
Proof.
  intros Hc Hn st. unfold call.
  assert (Hf : navigations [Called c false] = O) by now destruct c.
  destruct (outcome w (calls st));
    [exists [Called c true] | exists [Called c false]];
    (split; [now apply advance_after_call | assumption]).
Qed.

Lemma advance_waited (ms : JsNum) (st : State) :
  advance st (record (Waited ms) st) [Waited ms] [].
Proof. unfold advance; simpl. now rewrite app_nil_r. Qed.

Lemma quiet_waitForTimeout (ms : JsNum) : quiet (waitForTimeout ms).
Proof.
  intros st. exists [Waited ms]. split; [apply advance_waited | reflexivity].
Qed.

Lemma quiet_now (w : World) : quiet (now w).
Proof. intros st. exists []. split; [apply advance_refl | reflexivity]. Qed.

Create HintDb quiet.
#[local] Hint Resolve quiet_ret quiet_throw quiet_if quiet_when
  quiet_call_trim quiet_waitForTimeout quiet_now : quiet.

Ltac quiet_steps :=
  repeat first
    [ apply quiet_bind; [| intros ?]
    | apply quiet_call; [reflexivity | reflexivity]
    | apply quiet_when
    | apply quiet_if
    | solve [auto with quiet] ].

Lemma quiet_open_page (w : World) (cookies : list JsVal) :
  quiet (open_page w cookies).
Proof. unfold open_page. quiet_steps. Qed.

(** The steps up to the submission navigate once and push nothing. *)
Lemma compose_and_submit_advance (w : World) (message link : JsVal)
  (st : State) :
  exists evs,
    advance st (snd (compose_and_submit w message link st)) evs [] /\
    navigations evs = 1%nat.
Proof.
  unfold compose_and_submit.
  match goal with
  | |- context [bind (call w (Goto home)) ?k] =>
      assert (Hk : forall a, quiet (k a)) by (intros a; quiet_steps);
      generalize dependent k
  end.
  intros k Hk. unfold bind at 1. unfold call.
  destruct (outcome w (calls st)) as [d|e]; simpl.
  - destruct (Hk d (after_call (Goto home) true st)) as (evs & H & N).
    exists ([Called (Goto home) true] ++ evs). split.
    + eapply advance_trans with (rs1 := []); [|exact H].
      now apply advance_after_call.
    + rewrite navigations_app, N. reflexivity.
  - exists [Called (Goto home) false]. split; [|reflexivity].
    now apply advance_after_call.
Qed.

(* ================================================================== *)
(** * One attempt *)

Section Attempt.

Variables (w : World) (message link : JsVal) (shareCount shareDelay : JsNum).

Let steps := compose_and_submit w message link.
Let delay := delay_before_next shareCount shareDelay.
Let try_once := attempt w message link shareCount shareDelay.

Lemma advance_pushed (r : AttemptRecord) (st : State) :
  advance st (pushed r st) [] [r].
Proof. unfold advance; simpl. now rewrite app_nil_r. Qed.

(** The delay between attempts always completes. *)
Lemma delay_before_next_spec (i : Z) (st : State) :
  exists st' evs,
    delay i st = (Normal tt, st') /\ advance st st' evs [] /\
    navigations evs = O.
Proof.
  unfold delay, delay_before_next, when.
  destruct (js_lt (Num i) (js_sub shareCount (Num 1))).
  - eexists _, _. split; [reflexivity|]. split;
      [apply advance_waited | reflexivity].
  - eexists _, _. split; [reflexivity|]. split;
      [apply advance_refl | reflexivity].
Qed.

(** The four ways through an attempt, each ending in one [push] and the
    delay. *)
Lemma attempt_steps_throw (i : Z) (st st1 : State) (e : Error) :
  steps st = (Abrupt e, st1) ->
  try_once i st =
    delay i (pushed (Failure (i + 1) (error_message e) (time_at w st1)) st1).
Proof.
  intros H. unfold try_once, attempt, attempt_steps, try_catch, bind.
  fold steps. rewrite H. reflexivity.
Qed.

Lemma attempt_evaluate_throws (i : Z) (st st1 : State) (e : Error) :
  steps st = (Normal tt, st1) ->
  outcome w (calls st1) = Throws e ->
  let st2 := after_call Evaluate false st1 in
  try_once i st =
    delay i (pushed (Failure (i + 1) (error_message e) (time_at w st2)) st2).
Proof.
  intros H Ho. unfold try_once, attempt, attempt_steps, try_catch, bind.
  fold steps. rewrite H. unfold verify_published, bind, call.
  rewrite Ho. reflexivity.
Qed.

Lemma attempt_unconfirmed (i : Z) (st st1 : State) (d : Dom) :
  steps st = (Normal tt, st1) ->
  outcome w (calls st1) = Returns d ->
  d CreateAPost = true ->
  let st2 := after_call Evaluate true st1 in
  try_once i st =
    delay i (pushed (Failure (i + 1) (js "Post may not have been published")
                       (time_at w st2)) st2).
Proof.
  intros H Ho Hd. unfold try_once, attempt, attempt_steps, try_catch, bind.
  fold steps. rewrite H. unfold verify_published, bind, call.
  rewrite Ho, Hd. reflexivity.
Qed.

Lemma attempt_published (i : Z) (st st1 : State) (d : Dom) :
  steps st = (Normal tt, st1) ->
  outcome w (calls st1) = Returns d ->
  d CreateAPost = false ->
  let st2 := after_call Evaluate true st1 in
  try_once i st =
    delay i (pushed (Success (i + 1) (time_at w st2)
                       (js "Successfully shared post " ++
                        number_to_string (i + 1))) st2).
Proof.
  intros H Ho Hd. unfold try_once, attempt, attempt_steps, try_catch, bind.
  fold steps. rewrite H. unfold verify_published, bind, call.
  rewrite Ho, Hd. simpl.
  unfold delay, delay_before_next, when, push, now, waitForTimeout, ret.
  destruct (js_lt (Num i) (js_sub shareCount (Num 1))); reflexivity.
Qed.

Lemma finish_attempt (i : Z) (r : AttemptRecord) (st st1 : State) evs :
  advance st st1 evs [] -> navigations evs = 1%nat ->
  exists st' evs',
    delay i (pushed r st1) = (Normal tt, st') /\
    advance st st' evs' [r] /\ navigations evs' = 1%nat.
Proof.
  intros H N.
  destruct (delay_before_next_spec i (pushed r st1)) as (st' & evs' & E & H' & N').
  exists st', (evs ++ [] ++ evs'). split; [exact E|]. split.
  - apply (advance_trans _ _ _ _ _ _ _ H).
    apply (advance_trans _ _ _ _ _ _ _ (advance_pushed r st1) H').
  - rewrite !navigations_app, N, N'. reflexivity.
Qed.

(** An attempt always completes, navigates once and pushes exactly one
    record, with ordinal [i + 1]. *)
Lemma attempt_spec (i : Z) (st : State) :
  exists st' evs r,
    try_once i st = (Normal tt, st') /\ advance st st' evs [r] /\
    navigations evs = 1%nat /\ attempt_of r = i + 1.
Proof.
  destruct (compose_and_submit_advance w message link st) as (evs & H & N).
  fold steps in H.
  destruct (steps st) as [[[]|e] st1] eqn:E; simpl in H.
  - assert (H2 : forall b, exists evs2,
               advance st (after_call Evaluate b st1) evs2 [] /\
               navigations evs2 = 1%nat).
    { intros b. exists (evs ++ [Called Evaluate b]). split.
      - apply (advance_trans _ _ _ _ _ _ _ H).
        now apply advance_after_call.
      - rewrite navigations_app, N. reflexivity. }
    destruct (outcome w (calls st1)) as [d|e] eqn:Ho.
    + destruct (H2 true) as (evs2 & A2 & N2).
      destruct (d CreateAPost) eqn:Hd.
      * rewrite (attempt_unconfirmed i st st1 d E Ho Hd).
        destruct (finish_attempt i
          (Failure (i + 1) (js "Post may not have been published")
             (time_at w (after_call Evaluate true st1))) _ _ _ A2 N2)
          as (st' & evs' & E' & A' & N').
        eexists _, _, _. split; [exact E'|]. split; [exact A'|]. split;
          [exact N' | reflexivity].
      * rewrite (attempt_published i st st1 d E Ho Hd).
        destruct (finish_attempt i
          (Success (i + 1) (time_at w (after_call Evaluate true st1))
             (js "Successfully shared post " ++ number_to_string (i + 1)))
          _ _ _ A2 N2) as (st' & evs' & E' & A' & N').
        eexists _, _, _. split; [exact E'|]. split; [exact A'|]. split;
          [exact N' | reflexivity].
    + destruct (H2 false) as (evs2 & A2 & N2).
      rewrite (attempt_evaluate_throws i st st1 e E Ho).
      destruct (finish_attempt i
        (Failure (i + 1) (error_message e)
           (time_at w (after_call Evaluate false st1))) _ _ _ A2 N2)
        as (st' & evs' & E' & A' & N').
      eexists _, _, _. split; [exact E'|]. split; [exact A'|]. split;
        [exact N' | reflexivity].
  - rewrite (attempt_steps_throw i st st1 e E).
    destruct (finish_attempt i
      (Failure (i + 1) (error_message e) (time_at w st1)) _ _ _ H N)
      as (st' & evs' & E' & A' & N').
    eexists _, _, _. split; [exact E'|]. split; [exact A'|]. split;
      [exact N' | reflexivity].
Qed.

End Attempt.

(* ================================================================== *)
(** * The loop *)

Lemma count_from_length (a : Z) (n : nat) : length (count_from a n) = n.
Proof. revert a. induction n; simpl; auto. Qed.

Lemma count_from_nth (n : nat) (a : Z) (k : nat) :
  (k < n)%nat -> nth_error (count_from a n) k = Some (a + Z.of_nat k).
Proof.
  revert a k. induction n as [|n IH]; intros a k Hk; [lia|].
  destruct k as [|k]; simpl.
  - f_equal. lia.
  - rewrite IH by lia. f_equal. lia.
Qed.

Section Loop.

Variables (w : World) (message link : JsVal) (shareCount shareDelay : JsNum).

Let loop := for_loop w message link shareCount shareDelay.

(** The loop never throws; it navigates once per record pushed, and the
    records carry the ordinals from [i + 1] on.  With [shareCount] a number
    [c] and fuel for the remaining [c - i] values of [i], every one of them
    is attempted. *)
Lemma for_loop_spec (fuel : nat) (i : Z) (st : State) :
  exists st' evs rs,
    loop fuel i st = (Normal tt, st') /\ advance st st' evs rs /\
    navigations evs = length rs /\
    map attempt_of rs = count_from (i + 1) (length rs) /\
    (length rs <= fuel)%nat /\
    (forall c, shareCount = Num c -> i + Z.of_nat fuel = c ->
               length rs = fuel).
Proof.
  revert i st. induction fuel as [|fuel IH]; intros i st.
  - exists st, [], [].
    split; [unfold loop; cbn [for_loop];
            now destruct (js_lt (Num i) shareCount)|].
    split; [apply advance_refl|]. simpl. repeat split; auto.
  - unfold loop; cbn [for_loop]. destruct (js_lt (Num i) shareCount) eqn:Hlt.
    + destruct (attempt_spec w message link shareCount shareDelay i st)
        as (st1 & evs1 & r & E1 & A1 & N1 & O1).
      destruct (IH (i + 1) st1) as (st2 & evs2 & rs & E2 & A2 & N2 & O2 & L2 & C2).
      exists st2, (evs1 ++ evs2), ([r] ++ rs).
      unfold bind. rewrite E1. fold loop. rewrite E2.
      split; [reflexivity|]. split; [exact (advance_trans _ _ _ _ _ _ _ A1 A2)|].
      rewrite navigations_app, N1, N2. simpl.
      split; [reflexivity|]. split; [now rewrite O1, O2|].
      split; [lia|]. intros c Hc Hi. f_equal. apply (C2 c Hc). lia.
    + exists st, [], [].
      split; [reflexivity|]. split; [apply advance_refl|]. simpl.
      repeat split; auto; try lia.
      intros c Hc Hi. subst shareCount. simpl in Hlt.
      apply Z.ltb_ge in Hlt. lia.
Qed.

End Loop.

(** From [i = 0], fuel [iterations shareCount] is enough: the loop ends with
    its condition false, after [iterations shareCount] attempts. *)
Lemma for_loop_iterations (w : World) (message link : JsVal)
  (shareCount shareDelay : JsNum) (st : State) :
  exists st' evs rs,
    for_loop w message link shareCount shareDelay (iterations shareCount) 0 st
      = (Normal tt, st') /\
    advance st st' evs rs /\
    navigations evs = iterations shareCount /\
    length rs = iterations shareCount /\
    map attempt_of rs = count_from 1 (iterations shareCount) /\
    js_lt (Num (Z.of_nat (iterations shareCount))) shareCount = false.
Proof.
  destruct (for_loop_spec w message link shareCount shareDelay
              (iterations shareCount) 0 st)
    as (st' & evs & rs & E & A & N & Hord & L & C).
  assert (Hlen : length rs = iterations shareCount).
  { destruct shareCount as [|c]; simpl in *; [lia|].
    destruct (Z.le_gt_cases 0 c).
    - apply (C c eq_refl). lia.
    - assert (Z.to_nat c = O) by lia. lia. }
  exists st', evs, rs.
  split; [exact E|]. split; [exact A|].
  split; [congruence|]. split; [exact Hlen|].
  split; [rewrite <- Hlen; exact Hord|].
  destruct shareCount as [|c]; simpl; [reflexivity|].
  apply Z.ltb_ge. lia.
Qed.

(* ================================================================== *)
(** * The shape of a run *)

Section Shapes.

Variable w : World.

Lemma launch_spec (st : State) :
  launch w st =
    match outcome w (calls st) with
    | Returns _ => (Normal tt, assigned (after_call Launch true st))
    | Throws e => (Abrupt e, after_call Launch false st)
    end.
Proof. unfold launch, bind, call. now destruct (outcome w (calls st)). Qed.

Lemma finally_state {A} (m : M A) (f : M unit) (st : State) :
  snd (finally m f st) = snd (f (snd (m st))).
Proof.
  unfold finally. destruct (m st) as [c st1]. simpl.
  now destruct (f st1) as [[] ?].
Qed.

Lemma close_browser_log (st : State) :
  exists closing,
    log (snd (close_browser w st)) = log st ++ closing /\
    results (snd (close_browser w st)) = results st /\
    if browser st then exists ok', closing = [Called Close ok']
    else closing = [].
Proof.
  unfold close_browser. destruct (browser st).
  - unfold bind, call. destruct (outcome w (calls st)); simpl; eauto.
  - exists []. simpl. now rewrite app_nil_r.
Qed.

(** The release once the response has been recorded. *)
Lemma run_shape_intro (st : State) (pre : list Event) (s : Z) (b : Body) :
  log st = pre ++ [Responded s b] ->
  (pre = [] /\ browser st = false \/
   exists ok evs,
     pre = Called Launch ok :: evs /\ forallb page_event evs = true /\
     browser st = ok /\ (ok = false -> evs = [])) ->
  run_shape (log (snd (close_browser w st))) s b.
Proof.
  intros Hlog Hpre.
  destruct (close_browser_log st) as (closing & Hc & _ & Hb).
  exists pre, closing. split.
  - rewrite Hc, Hlog, <- app_assoc. reflexivity.
  - destruct Hpre as [[-> Hbr] | (ok & evs & -> & Hp & Hbr & Hev)].
    + left. rewrite Hbr in Hb. auto.
    + right. exists ok, evs. rewrite Hbr in Hb.
      destruct ok; auto.
Qed.

(** What [post_all] leaves behind. *)
Lemma post_all_shape (appstate message link : JsVal) (sc sd : JsNum)
  (st : State) :
  browser st = false ->
  exists ok evs,
    forallb page_event evs = true /\
    match post_all w appstate message link sc sd st with
    | (Normal _, st1) =>
        ok = true /\ browser st1 = true /\
        exists rs,
          results st1 = results st ++ rs /\
          log st1 =
            log st ++ Called Launch true :: evs ++
            [Responded 200
               (BShared (results st1) (summarize sc (results st1)))] /\
          navigations evs = iterations sc /\
          length rs = iterations sc /\
          map attempt_of rs = count_from 1 (iterations sc)
    | (Abrupt _, st1) =>
        log st1 = log st ++ Called Launch ok :: evs /\
        browser st1 = ok /\ (ok = false -> evs = [])
    end.
Proof.
  intros Hbr. unfold post_all. unfold bind at 1. rewrite launch_spec.
  destruct (outcome w (calls st)) as [d|e].
  - set (st0 := assigned (after_call Launch true st)).
    unfold bind at 1.
    destruct (quiet_open_page w (elements appstate) st0)
      as (evs1 & (L1 & P1 & B1 & R1) & N1).
    destruct (open_page w (elements appstate) st0) as [[[]|e] st1];
      simpl in L1, B1, R1.
    + unfold bind at 1.
      destruct (for_loop_iterations w message link sc sd st1)
        as (st2 & evs2 & rs & E & (L2 & P2 & B2 & R2) & N2 & Hlen & Hord & _).
      rewrite E. exists true, (evs1 ++ evs2).
      split; [now rewrite forallb_app, P1, P2|].
      unfold respond; simpl.
      split; [reflexivity|]. split; [now rewrite B2, B1|].
      exists rs. split; [now rewrite R2, R1, app_nil_r|].
      split; [rewrite L2, L1, <- !app_assoc; reflexivity|].
      split; [rewrite navigations_app; lia|]. split; assumption.
    + exists true, evs1. split; [exact P1|].
      split; [rewrite L1, <- app_assoc; reflexivity|].
      split; [now rewrite B1 | discriminate].
  - exists false, []. simpl. repeat split; auto.
Qed.

(** What [check_session] leaves behind. *)
Lemma check_session_shape (appstate c_user : JsVal) (st : State) :
  browser st = false ->
  exists ok evs,
    forallb page_event evs = true /\
    match check_session w appstate c_user st with
    | (Normal _, st1) =>
        ok = true /\ browser st1 = true /\
        exists s b,
          log st1 = log st ++ Called Launch true :: evs ++ [Responded s b]
    | (Abrupt _, st1) =>
        log st1 = log st ++ Called Launch ok :: evs /\
        browser st1 = ok /\ (ok = false -> evs = [])
    end.
Proof.
  intros Hbr. unfold check_session. unfold bind at 1. rewrite launch_spec.
  destruct (outcome w (calls st)) as [d|e].
  - set (st0 := assigned (after_call Launch true st)).
    unfold bind at 1.
    destruct (quiet_open_page w (elements appstate) st0)
      as (evs1 & (L1 & P1 & B1 & R1) & N1).
    destruct (open_page w (elements appstate) st0) as [[[]|e] st1];
      simpl in L1, B1, R1.
    + unfold bind, call.
      destruct (outcome w (calls st1)) as [d1|e1]; simpl.
      2:{ exists true, (evs1 ++ [Called (Goto home) false]).
          rewrite forallb_app, P1, L1, <- !app_assoc. simpl.
          repeat split; auto; discriminate. }
      destruct (outcome w (S (calls st1))) as [d2|e2]; simpl.
      2:{ exists true,
            (evs1 ++ [Called (Goto home) true; Called Evaluate false]).
          rewrite forallb_app, P1, L1, <- !app_assoc. simpl.
          repeat split; auto; discriminate. }
      destruct (d2 CreateAPost || d2 Messenger || d2 Notifications); simpl.
      * destruct (outcome w (S (S (calls st1)))) as [d3|e3]; simpl.
        -- exists true,
             (evs1 ++ [Called (Goto home) true; Called Evaluate true;
                       Called Evaluate true]).
           rewrite forallb_app, P1, L1, <- !app_assoc. simpl.
           repeat split; auto. eexists _, _. rewrite <- app_assoc. reflexivity.
        -- exists true,
             (evs1 ++ [Called (Goto home) true; Called Evaluate true;
                       Called Evaluate false]).
           rewrite forallb_app, P1, L1, <- !app_assoc. simpl.
           repeat split; auto; discriminate.
      * exists true,
          (evs1 ++ [Called (Goto home) true; Called Evaluate true]).
        rewrite forallb_app, P1, L1, <- !app_assoc. simpl.
        repeat split; auto. eexists _, _. rewrite <- app_assoc. reflexivity.
    + exists true, evs1. split; [exact P1|].
      split; [rewrite L1, <- app_assoc; reflexivity|].
      split; [now rewrite B1 | discriminate].
  - exists false, []. simpl. repeat split; auto.
Qed.

End Shapes.

(** ** What a run of that shape answers, acquires and releases *)

Lemma run_shape_responses (l : list Event) (s : Z) (b : Body) :
  run_shape l s b -> responses l = [(s, b)].
Proof.
  intros (pre & closing & -> & H). rewrite responses_app. simpl.
  destruct H as [[-> ->] | (ok & evs & -> & P & H)]; [reflexivity|].
  destruct (page_events_silent evs P) as (R & _).
  assert (Hc : responses closing = []).
  { destruct ok; [destruct H as [ok' ->] | destruct H as [_ ->]];
      reflexivity. }
  simpl. rewrite R, Hc. reflexivity.
Qed.

Lemma run_shape_balanced (l : list Event) (s : Z) (b : Body) :
  run_shape l s b -> (acquired l <= 1)%nat /\ released l = acquired l.
Proof.
  intros (pre & closing & -> & H).
  autorewrite with log.
  destruct H as [[-> ->] | (ok & evs & -> & P & H)];
    [unfold acquired, released; simpl; lia|].
  destruct (page_events_silent evs P) as (_ & A & R & _).
  change (Called Launch ok :: evs) with ([Called Launch ok] ++ evs).
  change (Responded s b :: closing) with ([Responded s b] ++ closing).
  autorewrite with log. rewrite A, R.
  destruct ok; [destruct H as [ok' ->] | destruct H as [_ ->]];
    unfold acquired, released; simpl; lia.
Qed.

Lemma released_close (l1 l2 : list Event) (ok : bool) :
  released (l1 ++ Called Close ok :: l2) = S (released l1 + released l2).
Proof. rewrite released_app. unfold released. simpl. lia. Qed.

(** The release, when there is one, is the last thing a run does: the
    response has been written before it. *)
Lemma run_shape_release_last (l : list Event) (s : Z) (b : Body) :
  run_shape l s b ->
  forall l1 ok l2, l = l1 ++ Called Close ok :: l2 ->
  l2 = [] /\ acquired l1 = 1%nat /\ responses l1 = [(s, b)].
Proof.
  intros (pre & closing & -> & H) l1 ok l2 E.
  assert (Hpre : released (pre ++ [Responded s b]) = O).
  { rewrite released_app.
    destruct H as [[-> _] | (ok0 & evs & -> & P & _)]; [reflexivity|].
    destruct (page_events_silent evs P) as (_ & _ & R & _).
    change (Called Launch ok0 :: evs) with ([Called Launch ok0] ++ evs).
    rewrite released_app, R. reflexivity. }
  assert (Hcl : exists ok', closing = [Called Close ok'] /\
                            acquired pre = 1%nat).
  { destruct H as [[-> ->] | (ok0 & evs & -> & P & H)].
    - exfalso. simpl in *.
      assert (Hr : released [Responded s b] =
                   released (l1 ++ Called Close ok :: l2)) by now rewrite E.
      rewrite released_close in Hr. discriminate.
    - destruct (page_events_silent evs P) as (_ & A & _).
      destruct ok0.
      + destruct H as [ok' ->]. exists ok'. split; [reflexivity|].
        change (Called Launch true :: evs) with ([Called Launch true] ++ evs).
        rewrite acquired_app, A. reflexivity.
      + destruct H as [-> ->]. exfalso.
        assert (Hr : released ([Called Launch false] ++ [Responded s b]) =
                     released (l1 ++ Called Close ok :: l2))
          by (simpl; now rewrite <- E).
        rewrite released_close in Hr. discriminate. }
  destruct Hcl as (ok' & -> & Hacq).
  change (pre ++ [Responded s b; Called Close ok'])
    with (pre ++ [Responded s b] ++ [Called Close ok']) in E.
  rewrite app_assoc in E.
  destruct l2 as [|x l2] using rev_ind.
  - apply app_inj_tail in E. destruct E as [<- _].
    split; [reflexivity|]. rewrite acquired_app, responses_app.
    assert (Hp : responses pre = []).
    { destruct H as [[-> _] | (ok0 & evs & -> & P & _)]; [reflexivity|].
      destruct (page_events_silent evs P) as (R & _). simpl. exact R. }
    rewrite Hp, Hacq. split; reflexivity.
  - exfalso. clear IHl2.
    change (l1 ++ Called Close ok :: l2 ++ [x])
      with (l1 ++ (Called Close ok :: l2) ++ [x]) in E.
    rewrite app_assoc in E. apply app_inj_tail in E. destruct E as [E _].
    rewrite E, released_close in Hpre. discriminate.
Qed.

(* ================================================================== *)
(** * Whole runs *)

Section Runs.

Variable w : World.

Lemma destructure_state (body : JsVal) (st : State) :
  snd (destructure body st) = st.
Proof. now destruct body. Qed.

Lemma message_missing_state (message : JsVal) (st : State) :
  snd (message_missing message st) = st.
Proof.
  unfold message_missing. destruct (truthy message); [|reflexivity].
  now destruct message.
Qed.

Lemma find_named_state (name : jsstring) (l : list JsVal) (st : State) :
  snd (find_named name l st) = st.
Proof.
  induction l as [|c l IH]; [reflexivity|].
  destruct c; simpl; auto.
  destruct (is_string (own_property (js "name") props) name); auto.
Qed.

Lemma share_try_shape (body : JsVal) :
  match share_try w body start with
  | (Normal _, st1) =>
      (exists msg,
         log st1 = [Responded 400 (BError msg)] /\ browser st1 = false) \/
      (browser st1 = true /\
       exists sc evs,
         shareCount_in body = Some sc /\
         forallb page_event evs = true /\
         log st1 =
           Called Launch true :: evs ++
           [Responded 200
              (BShared (results st1) (summarize sc (results st1)))] /\
         navigations evs = iterations sc /\
         length (results st1) = iterations sc /\
         map attempt_of (results st1) = count_from 1 (iterations sc))
  | (Abrupt _, st1) =>
      (log st1 = [] /\ browser st1 = false) \/
      (exists ok evs,
         forallb page_event evs = true /\
         log st1 = Called Launch ok :: evs /\
         browser st1 = ok /\ (ok = false -> evs = []))
  end.
Proof.
  unfold share_try. unfold bind at 1.
  pose proof (destructure_state body start) as D.
  destruct (destructure body start) as [[[]|e] st0]; simpl in D; subst st0;
    [|now left].
  cbv zeta.
  destruct (negb (truthy (get body (js "appstate"))) ||
            negb (isArray (get body (js "appstate")))).
  { left. eexists. split; reflexivity. }
  unfold bind at 1.
  pose proof (message_missing_state (get body (js "message")) start) as Hm.
  destruct (message_missing (get body (js "message")) start)
    as [[[|]|e] st0]; simpl in Hm; subst st0; [| |now left].
  { left. eexists. split; reflexivity. }
  fold (shareCount_in body). fold (shareDelay_in body).
  unfold bind at 1.
  destruct (shareCount_in body) as [sc|]; cbn [converted ret throw];
    [|now left].
  unfold bind at 1.
  destruct (shareDelay_in body) as [sd|]; cbn [converted ret throw];
    [|now left].
  destruct (post_all_shape w (get body (js "appstate"))
              (get body (js "message")) (get body (js "link"))
              sc sd start eq_refl) as (ok & evs & P & H).
  destruct (post_all w (get body (js "appstate")) (get body (js "message"))
              (get body (js "link")) sc sd start)
    as [[[]|e] st1].
  - right. destruct H as (_ & Hb & rs & R & L & N & Hlen & Hord).
    simpl in R, L. subst rs.
    split; [exact Hb|]. exists sc, evs. auto 10.
  - right. exists ok, evs. destruct H as (L & Hb & Hev). auto.
Qed.

Lemma validate_try_shape (body : JsVal) :
  match validate_try w body start with
  | (Normal _, st1) =>
      (exists msg,
         log st1 = [Responded 400 (BError msg)] /\ browser st1 = false) \/
      (browser st1 = true /\
       exists evs s b,
         forallb page_event evs = true /\
         log st1 = Called Launch true :: evs ++ [Responded s b])
  | (Abrupt _, st1) =>
      (log st1 = [] /\ browser st1 = false) \/
      (exists ok evs,
         forallb page_event evs = true /\
         log st1 = Called Launch ok :: evs /\
         browser st1 = ok /\ (ok = false -> evs = []))
  end.
Proof.
  unfold validate_try. unfold bind at 1.
  pose proof (destructure_state body start) as D.
  destruct (destructure body start) as [[[]|e] st0]; simpl in D; subst st0;
    [|now left].
  cbv zeta.
  destruct (negb (truthy (get body (js "appstate"))) ||
            negb (isArray (get body (js "appstate")))).
  { left. eexists. split; reflexivity. }
  set (cookies := elements (get body (js "appstate"))).
  unfold bind at 1.
  pose proof (find_named_state (js "c_user") cookies start) as H1.
  destruct (find_named (js "c_user") cookies start) as [[c_user|e] st0];
    simpl in H1; subst st0; [|now left].
  unfold bind at 1.
  pose proof (find_named_state (js "xs") cookies start) as H2.
  destruct (find_named (js "xs") cookies start) as [[xs|e] st0];
    simpl in H2; subst st0; [|now left].
  destruct (negb (truthy c_user) || negb (truthy xs)).
  { left. eexists. split; reflexivity. }
  destruct (check_session_shape w (get body (js "appstate")) c_user
              start eq_refl) as (ok & evs & P & H).
  destruct (check_session w (get body (js "appstate")) c_user start)
    as [[[]|e] st1].
  - right. destruct H as (_ & Hb & s & b & L).
    split; [exact Hb|]. exists evs, s, b. auto.
  - right. exists ok, evs. destruct H as (L & Hb & Hev). auto.
Qed.

(** Every run of [/api/validate] answers once and has the shape above. *)
Lemma validate_shape (body : JsVal) :
  exists s b, run_shape (log (run validate w body)) s b.
Proof.
  unfold run, validate. rewrite finally_state. unfold try_catch.
  pose proof (validate_try_shape body) as H.
  destruct (validate_try w body start) as [[[]|e] st1]; simpl.
  - destruct H as [(msg & L & B) | (B & evs & s & b & P & L)].
    + exists 400, (BError msg).
      apply run_shape_intro with (pre := []); [exact L | left; auto].
    + exists s, b.
      apply run_shape_intro with (pre := Called Launch true :: evs);
        [exact L|].
      right. exists true, evs. repeat split; auto. discriminate.
  - eexists 500, _.
    apply run_shape_intro with (pre := log st1); [reflexivity|].
    destruct H as [[L B] | (ok & evs & P & L & B & Hev)].
    + left. auto.
    + right. exists ok, evs. auto.
Qed.

(** Every run of [/api/share] answers once and has the shape above; a 200
    carries one record for each of the [iterations] of the loop, ordinals
    from 1 on, and the summary of these records. *)
Lemma share_shape (body : JsVal) :
  let final := run share w body in
  exists s b,
    run_shape (log final) s b /\
    ((exists msg, b = BError msg /\ (s = 400 \/ s = 500)) \/
     (exists sc,
      shareCount_in body = Some sc /\ s = 200 /\
      b = BShared (results final) (summarize sc (results final)) /\
      length (results final) = iterations sc /\
      map attempt_of (results final) = count_from 1 (iterations sc) /\
      navigations (log final) = iterations sc)).
Proof.
  intros final. unfold final, run, share.
  rewrite finally_state. unfold try_catch.
  pose proof (share_try_shape body) as H.
  destruct (share_try w body start) as [[[]|e] st1]; cbn [fst snd].
  - destruct H
      as [(msg & L & B) | (B & sc & evs & Hsc & P & L & N & Hlen & Hord)].
    + exists 400, (BError msg). split.
      * apply run_shape_intro with (pre := []); [exact L | left; auto].
      * left. eauto.
    + destruct (close_browser_log w st1) as (closing & Lc & Rc & Hc).
      rewrite B in Hc. destruct Hc as [ok' ->].
      exists 200, (BShared (results st1) (summarize sc (results st1))).
      split.
      * apply run_shape_intro with (pre := Called Launch true :: evs);
          [exact L|].
        right. exists true, evs. repeat split; auto. discriminate.
      * right. exists sc. rewrite Rc, Lc, L.
        repeat split; auto.
        change (Called Launch true :: evs ++ ?x)
          with ([Called Launch true] ++ evs ++ x).
        rewrite !navigations_app, N. unfold navigations; simpl. lia.
  - eexists 500, _. split.
    + apply run_shape_intro with (pre := log st1); [reflexivity|].
      destruct H as [[L B] | (ok & evs & P & L & B & Hev)].
      * left. auto.
      * right. exists ok, evs. auto.
    + left. eauto.
Qed.

End Runs.

(* ================================================================== *)
(** * /api/validate: the required cookies *)

Lemma code_eqb_eq (s t : jsstring) : code_eqb s t = true <-> s = t.
Proof.
  unfold code_eqb. destruct (list_eq_dec N.eq_dec s t); split; auto.
  discriminate.
Qed.

Lemma is_string_false (v : JsVal) (s : jsstring) :
  v <> JStr s -> is_string v s = false.
Proof.
  intros H. destruct v; simpl; auto.
  destruct (code_eqb s0 s) eqn:E; auto.
  apply code_eqb_eq in E. congruence.
Qed.

(** [find] over entries none of which is [null] does not throw. *)
Lemma find_named_total (name : jsstring) (l : list JsVal) (st : State) :
  Forall (fun c => nullish c = false) l ->
  exists v, find_named name l st = (Normal v, st).
Proof.
  induction 1 as [|c l Hc _ IH]; simpl; [now exists JUndefined|].
  destruct c; try discriminate; simpl; auto.
  destruct (is_string (own_property (js "name") props) name); auto.
  now exists (JObj props).
Qed.









(* ================================================================== *)
(** * /api/share: the guards *)

(** C9, as stated, fails: a request with no [message] and no [appstate]
    either is stopped by the first guard, and the body of its 400 says
    [Invalid AppState format]. *)
Lemma share_missing_message_counterexample :
  let body := JObj [] in
  get body (js "message") = JUndefined /\
  responses (log (run share cooperative body)) =
    [(400, BError (js "Invalid AppState format"))] /\
  responses (log (run share cooperative body)) <>
    [(400, BError (js "Message is required"))].
Proof.
  repeat split. intros H. discriminate H.
Qed.

(** C9, amended.  A request to /api/share whose [appstate] is an array and
    whose [message] is missing (or otherwise falsy: [null], [false], [0],
    the empty string) or a string that trims to empty is answered 400 with
    [{ success: false, error: "Message is required" }]; nothing else
    happens in the run: no call, no attempt, no browser. *)
Theorem share_requires_message
  (w : World) (body : JsVal) (cookies : list JsVal) :
  get body (js "appstate") = JArr cookies ->
  truthy (get body (js "message")) = false \/
  (exists text, get body (js "message") = JStr text /\ trim text = []) ->
  let final := run share w body in
  log final = [Responded 400 (BError (js "Message is required"))] /\
  calls final = O /\ navigations (log final) = O /\
  launches (log final) = O /\ browser final = false /\ results final = [].
Proof.
  intros Happ Hmsg final.
  assert (E : final =
    record (Responded 400 (BError (js "Message is required"))) start).
  { unfold final, run, share. rewrite finally_state.
    unfold try_catch, share_try, bind.
    destruct body; try discriminate Happ. cbn [destructure ret].
    rewrite Happ. cbn [truthy isArray negb orb].
    unfold message_missing.
    destruct Hmsg as [Hfalsy | (text & -> & Htrim)].
    - rewrite Hfalsy. reflexivity.
    - destruct (truthy (JStr text)); [|reflexivity].
      unfold bind, call_trim, ret. rewrite Htrim. reflexivity. }
  rewrite E. repeat split.
Qed.

Lemma share_requires_message_witness :
  let final :=
    run share cooperative
      (JObj [(js "appstate", session); (js "message", JStr (js "  "))]) in
  log final = [Responded 400 (BError (js "Message is required"))] /\
  calls final = O /\ navigations (log final) = O /\
  launches (log final) = O /\ browser final = false /\ results final = [].
Proof.
  apply (share_requires_message cooperative _
           (elements session)).
  - reflexivity.
  - right. exists (js "  "). split; reflexivity.
Defined.

(* ================================================================== *)
(** * /api/share: an accepted request *)

Lemma trim_nonempty (text : jsstring) : trim text <> [] -> text <> [].
Proof. intros H ->. now apply H. Qed.

(** Past the guards, [count] and [delay] are converted, in this order. *)
Lemma share_try_guards_passed (w : World) (body : JsVal)
  (cookies : list JsVal) (text : jsstring) :
  get body (js "appstate") = JArr cookies ->
  get body (js "message") = JStr text ->
  trim text <> [] ->
  share_try w body start =
    (shareCount <- converted (shareCount_in body) ;;
     shareDelay <- converted (shareDelay_in body) ;;
     post_all w (JArr cookies) (JStr text) (get body (js "link"))
       shareCount shareDelay) start.
Proof.
  intros Happ Hmsg Htrim. unfold share_try. unfold bind at 1 2.
  destruct body; try discriminate Happ. cbn [destructure ret].
  rewrite Happ, Hmsg. cbn [truthy isArray negb orb].
  unfold message_missing, call_trim. unfold bind at 1.
  pose proof (trim_nonempty _ Htrim) as Hne.
  destruct text as [|c text]; [congruence|]. cbn [truthy negb ret].
  destruct (trim (c :: text)) as [|c' t']; [congruence|]. reflexivity.
Qed.

Lemma share_try_accepted (w : World) (body : JsVal) (cookies : list JsVal)
  (text : jsstring) (sc sd : JsNum) :
  get body (js "appstate") = JArr cookies ->
  get body (js "message") = JStr text ->
  trim text <> [] ->
  shareCount_in body = Some sc -> shareDelay_in body = Some sd ->
  share_try w body start =
    post_all w (JArr cookies) (JStr text) (get body (js "link")) sc sd start.
Proof.
  intros Happ Hmsg Htrim Hsc Hsd.
  rewrite (share_try_guards_passed w body cookies text Happ Hmsg Htrim).
  unfold bind. now rewrite Hsc, Hsd.
Qed.

Lemma post_all_ready (w : World) (cookies : list JsVal) (message link : JsVal)
  (sc sd : JsNum) :
  sets_up w ->
  post_all w (JArr cookies) message link sc sd start =
    (for_loop w message link sc sd (iterations sc) 0 ;;
     fun st =>
       respond 200 (BShared (results st) (summarize sc (results st))) st)
      (ready cookies).
Proof.
  intros H.
  destruct (H 0%nat) as [d0 H0]; [lia|]. destruct (H 1%nat) as [d1 H1]; [lia|].
  destruct (H 2%nat) as [d2 H2]; [lia|]. destruct (H 3%nat) as [d3 H3]; [lia|].
  destruct (H 4%nat) as [d4 H4]; [lia|].
  unfold post_all, launch, open_page, bind, call.
  cbn [calls start assigned after_call]. rewrite H0.
  cbn [calls start assigned after_call]. rewrite H1.
  cbn [calls start assigned after_call]. rewrite H2.
  cbn [calls start assigned after_call]. rewrite H3.
  cbn [calls start assigned after_call].
  rewrite H4. reflexivity.
Qed.

(** An accepted request on a page that was set up is answered 200, with
    one record for each iteration of the loop. *)
Lemma share_accepted_run (w : World) (body : JsVal) (cookies : list JsVal)
  (text : jsstring) (sc sd : JsNum) :
  get body (js "appstate") = JArr cookies ->
  get body (js "message") = JStr text ->
  trim text <> [] ->
  shareCount_in body = Some sc -> shareDelay_in body = Some sd ->
  sets_up w ->
  exists evs rs ok,
    log (run share w body) =
      log (ready cookies) ++ evs ++
      [Responded 200 (BShared rs (summarize sc rs)); Called Close ok] /\
    forallb page_event evs = true /\
    navigations evs = iterations sc /\
    length rs = iterations sc /\
    map attempt_of rs = count_from 1 (iterations sc).
Proof.
  intros Happ Hmsg Htrim Hsc Hsd Hup.
  unfold run, share. rewrite finally_state. unfold try_catch.
  rewrite (share_try_accepted w body cookies text sc sd
             Happ Hmsg Htrim Hsc Hsd).
  rewrite (post_all_ready w cookies _ _ _ _ Hup).
  unfold bind at 1.
  destruct (for_loop_iterations w (JStr text) (get body (js "link")) sc
              sd (ready cookies))
    as (st' & evs & rs & E & (L & P & B & R) & N & Hlen & Hord & _).
  rewrite E. cbn [respond fst snd].
  set (answered := record _ st').
  destruct (close_browser_log w answered) as (closing & Lc & _ & Hc).
  assert (Hb : browser answered = true) by (unfold answered; simpl; now rewrite B).
  rewrite Hb in Hc. destruct Hc as [ok ->].
  exists evs, rs, ok. rewrite Lc. unfold answered. simpl log at 1.
  rewrite L, R. simpl results. rewrite <- !app_assoc. simpl.
  repeat split; auto.
Qed.

(* ================================================================== *)
(** * /api/share: count and delay *)

(** C5 fails on input that is not numeric: [parseInt] yields [NaN], and
    [Math.max] and [Math.min] pass [NaN] on.  With [count: "abc"] the count
    is [NaN], not a number of [1..10]; with [delay: "soon"] the delay is
    [NaN], and the wait between two attempts is for [NaN] milliseconds. *)
Theorem clamps_pass_NaN :
  shareCount_of (JStr (js "abc")) = Some NaN /\
  shareDelay_of (JStr (js "soon")) = Some NaN /\
  waits (log (run share cooperative
                (timed_request (JNum 2) (JStr (js "soon"))))) =
    [Num 2000; Num 1000; Num 1000; Num 5000; NaN;
     Num 2000; Num 1000; Num 1000; Num 5000].
Proof. repeat split; vm_compute; reflexivity. Qed.

(** On input that [parseInt] reads as a number the clamps hold: the count
    is within [1..10] and the delay within [5..60]. *)
Theorem clamps_of_numbers (count delay : JsVal) (z z' : Z) :
  parseInt count = Some (Num z) -> parseInt delay = Some (Num z') ->
  exists c d,
    shareCount_of count = Some (Num c) /\ 1 <= c <= 10 /\
    c = Z.min (Z.max z 1) 10 /\
    shareDelay_of delay = Some (Num d) /\ 5 <= d <= 60 /\
    d = Z.min (Z.max z' 5) 60.
Proof.
  intros Hc Hd. exists (Z.min (Z.max z 1) 10), (Z.min (Z.max z' 5) 60).
  unfold shareCount_of, shareDelay_of.
  rewrite (clamp_number _ _ _ _ Hc), (clamp_number _ _ _ _ Hd).
  repeat split; lia.
Qed.

(** [count = 15] gives 10 attempts; [delay = 90] gives 60 seconds. *)
Lemma clamps_of_numbers_witness :
  exists c d,
    shareCount_of (JNum 15) = Some (Num c) /\ 1 <= c <= 10 /\
    c = Z.min (Z.max 15 1) 10 /\
    shareDelay_of (JNum 90) = Some (Num d) /\ 5 <= d <= 60 /\
    d = Z.min (Z.max 90 5) 60.
Proof.
  apply (clamps_of_numbers (JNum 15) (JNum 90) 15 90); reflexivity.
Defined.

Example count_15 : shareCount_of (JNum 15) = Some (Num 10).
Proof. reflexivity. Qed.

Example delay_2 : shareDelay_of (JNum 2) = Some (Num 5).
Proof. reflexivity. Qed.

Example delay_90 : shareDelay_of (JNum 90) = Some (Num 60).
Proof. reflexivity. Qed.

Example delay_text : shareDelay_of (JStr (js "7.5 seconds")) = Some (Num 7).
Proof. reflexivity. Qed.

(** An empty form field, or [null], is no number either. *)
Example count_empty : shareCount_of (JStr []) = Some NaN.
Proof. reflexivity. Qed.

Example count_null : shareCount_of JNull = Some NaN.
Proof. reflexivity. Qed.

(** Three posts that all go through, five seconds apart: each attempt
    settles for 2, 1, 1 and 5 seconds, and the delay follows all but the
    last. *)
Example three_posts_five_seconds_apart :
  let final := run share cooperative (timed_request (JNum 3) (JNum 5)) in
  responses (log final) =
    [(200,
      BShared [Success 1 midnight (js "Successfully shared post 1");
               Success 2 midnight (js "Successfully shared post 2");
               Success 3 midnight (js "Successfully shared post 3")]
        {| total := Num 3; successful := 3; failed := 0;
           successRate := 100%float |})] /\
  waits (log final) =
    [Num 2000; Num 1000; Num 1000; Num 5000; Num 5000;
     Num 2000; Num 1000; Num 1000; Num 5000; Num 5000;
     Num 2000; Num 1000; Num 1000; Num 5000].
Proof. vm_compute. split; reflexivity. Qed.




(* ================================================================== *)
(** * /api/share: the results and the summary *)

(** What a 200 of [/api/share] carries. *)
Lemma share_200 (w : World) (body : JsVal) (rs : list AttemptRecord)
  (sm : Summary) :
  In (200, BShared rs sm) (responses (log (run share w body))) ->
  exists sc,
    shareCount_in body = Some sc /\
    sm = summarize sc rs /\
    length rs = iterations sc /\
    map attempt_of rs = count_from 1 (iterations sc) /\
    navigations (log (run share w body)) = iterations sc.
Proof.
  intros Hin.
  destruct (share_shape w body) as (s & b & Hshape & Hb).
  rewrite (run_shape_responses _ _ _ Hshape) in Hin.
  destruct Hin as [[= -> ->] | []].
  destruct Hb
    as [(msg & [=] & _) | (sc & Hsc & _ & [= -> ->] & Hlen & Hord & Hnav)].
  exists sc. auto.
Qed.

(** C2.  When /api/share answers 200 and the clamped count is the number
    [c], the [results] it returns are [c] records whose [attempt] fields are
    1, 2, ..., [c], in this order: the record at index [k] has ordinal
    [k + 1]. *)
Theorem share_results_are_numbered
  (w : World) (body : JsVal) (rs : list AttemptRecord) (sm : Summary)
  (c : Z) :
  In (200, BShared rs sm) (responses (log (run share w body))) ->
  shareCount_in body = Some (Num c) ->
  1 <= c <= 10 /\
  Z.of_nat (length rs) = c /\
  map attempt_of rs = count_from 1 (Z.to_nat c) /\
  (forall k r, nth_error rs k = Some r -> attempt_of r = Z.of_nat k + 1).
Proof.
  intros Hin Hc.
  destruct (share_200 w body rs sm Hin) as (sc & Hsc & _ & Hlen & Hord & _).
  assert (sc = Num c) as -> by congruence.
  simpl in Hlen, Hord.
  pose proof (shareCount_range _ _ Hc) as Hr.
  split; [lia|]. split; [lia|]. split; [exact Hord|].
  intros k r Hk.
  assert (Hlt : (k < Z.to_nat c)%nat).
  { rewrite <- Hlen. apply nth_error_Some. congruence. }
  pose proof (map_nth_error attempt_of k rs Hk) as Hm.
  rewrite Hord, (count_from_nth _ 1 k Hlt) in Hm.
  assert (E : 1 + Z.of_nat k = attempt_of r) by congruence.
  lia.
Qed.

Lemma share_results_are_numbered_witness :
  let rs := results (run share cooperative (post_request (JNum 3))) in
  1 <= 3 <= 10 /\
  Z.of_nat (length rs) = 3 /\
  map attempt_of rs = count_from 1 (Z.to_nat 3) /\
  (forall k r, nth_error rs k = Some r -> attempt_of r = Z.of_nat k + 1).
Proof.
  apply (share_results_are_numbered cooperative (post_request (JNum 3)) _
           (summarize (Num 3)
              (results (run share cooperative (post_request (JNum 3)))))).
  - vm_compute. left. reflexivity.
  - reflexivity.
Defined.

Example three_posts :
  map attempt_of (results (run share cooperative (post_request (JNum 3)))) =
    [1; 2; 3].
Proof. vm_compute. reflexivity. Qed.

(** The successes and the failures of a list of records add up. *)
Lemma successes_and_failures (rs : list AttemptRecord) :
  (length (filter (fun r => success r) rs) +
   length (filter (fun r => negb (success r)) rs) = length rs)%nat.
Proof.
  induction rs as [|r rs IH]; [reflexivity|].
  simpl. destruct (success r); simpl; lia.
Qed.

(** For at most ten attempts the binary64 computation of [successRate]
    gives the percentage rounded to the nearest integer, a half going up. *)
Lemma successRate_exact (s c : Z) :
  1 <= c <= 10 -> 0 <= s <= c ->
  Math_round
    (PrimFloat.mul (PrimFloat.div (float_of_Z s) (float_of_Z c)) 100%float) =
  float_of_Z ((200 * s + c) / (2 * c)).
Proof.
  intros Hc Hs.
  assert (Ec : c = 1 \/ c = 2 \/ c = 3 \/ c = 4 \/ c = 5 \/
               c = 6 \/ c = 7 \/ c = 8 \/ c = 9 \/ c = 10) by lia.
  assert (Es : s = 0 \/ s = 1 \/ s = 2 \/ s = 3 \/ s = 4 \/ s = 5 \/
               s = 6 \/ s = 7 \/ s = 8 \/ s = 9 \/ s = 10) by lia.
  repeat (destruct Ec as [-> | Ec]); try subst c;
    repeat (destruct Es as [-> | Es]); try subst s;
    try lia; vm_compute; reflexivity.
Qed.

(** The summary under a numeric count.  Whenever the clamped count is a
    number, the summary of a 200 has [successful + failed = total], and
    [successRate] is [Math.round(successful / total * 100)], which is the
    percentage of successes rounded to the nearest integer. *)
Theorem summary_of_a_numbered_run
  (w : World) (body : JsVal) (rs : list AttemptRecord) (sm : Summary)
  (c : Z) :
  In (200, BShared rs sm) (responses (log (run share w body))) ->
  shareCount_in body = Some (Num c) ->
  total sm = Num c /\
  successful sm + failed sm = c /\
  successRate sm =
    Math_round
      (PrimFloat.mul
         (PrimFloat.div (float_of_Z (successful sm)) (to_float (total sm)))
         100%float) /\
  successRate sm = float_of_Z ((200 * successful sm + c) / (2 * c)).
Proof.
  intros Hin Hc.
  destruct (share_200 w body rs sm Hin) as (sc & Hsc & -> & Hlen & _).
  assert (sc = Num c) as -> by congruence.
  simpl in Hlen.
  pose proof (shareCount_range _ _ Hc) as Hr.
  pose proof (successes_and_failures rs) as Hsum.
  cbn [summarize total successful failed successRate to_float].
  repeat split; try lia.
  apply successRate_exact; lia.
Qed.

Lemma summary_of_a_numbered_run_witness :
  let sm :=
    summarize (Num 3)
      (results (run share stuck_composer (post_request (JNum 3)))) in
  total sm = Num 3 /\
  successful sm + failed sm = 3 /\
  successRate sm =
    Math_round
      (PrimFloat.mul
         (PrimFloat.div (float_of_Z (successful sm)) (to_float (total sm)))
         100%float) /\
  successRate sm = float_of_Z ((200 * successful sm + 3) / (2 * 3)).
Proof.
  apply (summary_of_a_numbered_run stuck_composer (post_request (JNum 3))
           (results (run share stuck_composer (post_request (JNum 3))))).
  - vm_compute. left. reflexivity.
  - reflexivity.
Defined.

(** C1 fails when the count is not numeric: [total] is [NaN], which no sum
    of two counts equals.  The request [{ appstate, message: "hello",
    count: "abc" }] is answered 200 with this summary. *)
Theorem summary_with_NaN_total :
  let body := post_request (JStr (js "abc")) in
  responses (log (run share cooperative body)) =
    [(200, BShared [] NaN_summary)] /\
  total NaN_summary <> Num (successful NaN_summary + failed NaN_summary).
Proof.
  split; [vm_compute; reflexivity | discriminate].
Qed.

(* ================================================================== *)
(** * /api/share: failures inside an attempt *)

Section Failures.

Variables (w : World) (message link : JsVal) (shareCount shareDelay : JsNum).

Lemma delay_keeps_results (i : Z) (st : State) :
  exists st',
    delay_before_next shareCount shareDelay i st = (Normal tt, st') /\
    results st' = results st.
Proof.
  destruct (delay_before_next_spec shareCount shareDelay i st)
    as (st' & evs & E & (_ & _ & _ & R) & _).
  exists st'. split; [exact E|]. now rewrite R, app_nil_r.
Qed.

(** Whatever the steps throw, the attempt completes normally with one more
    record: the failure, carrying the message thrown. *)
Lemma attempt_catches (i : Z) (st st1 : State) (e : Error) :
  attempt_steps w message link i st = (Abrupt e, st1) ->
  exists st2,
    attempt w message link shareCount shareDelay i st = (Normal tt, st2) /\
    results st2 =
      results st ++ [Failure (i + 1) (error_message e) (time_at w st1)].
Proof.
  unfold attempt_steps. intros H.
  destruct (compose_and_submit_advance w message link st)
    as (evs & (_ & _ & _ & R) & _).
  rewrite app_nil_r in R.
  assert (E : attempt w message link shareCount shareDelay i st =
              delay_before_next shareCount shareDelay i
                (pushed (Failure (i + 1) (error_message e) (time_at w st1))
                   st1) /\ results st1 = results st).
  { unfold bind in H.
    destruct (compose_and_submit w message link st) as [[[]|e0] st0] eqn:E0;
      simpl in R.
    - unfold verify_published, bind, call in H.
      destruct (outcome w (calls st0)) as [d|e1] eqn:Ho.
      + destruct (d CreateAPost) eqn:Hd; simpl in H; [|discriminate].
        injection H as <- <-. split; [|exact R].
        apply (attempt_unconfirmed w message link shareCount shareDelay
                 i st st0 d E0 Ho Hd).
      + injection H as <- <-. split; [|exact R].
        apply (attempt_evaluate_throws w message link shareCount shareDelay
                 i st st0 e1 E0 Ho).
    - injection H as <- <-. split; [|exact R].
      apply (attempt_steps_throw w message link shareCount shareDelay
               i st st0 e0 E0). }
  destruct E as [-> R1].
  destruct (delay_keeps_results i
              (pushed (Failure (i + 1) (error_message e) (time_at w st1)) st1))
    as (st2 & E2 & R2).
  exists st2. split; [exact E2|]. rewrite R2. simpl. now rewrite R1.
Qed.

End Failures.

(* ================================================================== *)
(** * /api/share: a session that expires during the run *)

(** C6.  Take attempt [i + 1] of [c], with [fuel] attempts to follow.  If
    its navigation returns and the page then shows no composer button, the
    attempt completes with the failure [Session expired during automation]
    on record, and the loop goes on: each of the [fuel] attempts that
    follow navigates afresh and leaves its own record, with the ordinals
    [i + 2], ..., [c]. *)
Theorem expired_session_fails_one_attempt
  (w : World) (message link : JsVal) (c : Z) (shareDelay : JsNum)
  (i : Z) (fuel : nat) (st : State) (d0 d : Dom) :
  i + 1 + Z.of_nat fuel = c ->
  outcome w (calls st) = Returns d0 ->
  outcome w (S (calls st)) = Returns d ->
  d CreateAPost = false ->
  exists st1 t,
    attempt w message link (Num c) shareDelay i st = (Normal tt, st1) /\
    results st1 =
      results st ++
      [Failure (i + 1) (js "Session expired during automation") t] /\
    for_loop w message link (Num c) shareDelay (S fuel) i st =
      for_loop w message link (Num c) shareDelay fuel (i + 1) st1 /\
    exists st2 evs rs,
      for_loop w message link (Num c) shareDelay fuel (i + 1) st1
        = (Normal tt, st2) /\
      log st2 = log st1 ++ evs /\ navigations evs = fuel /\
      results st2 = results st1 ++ rs /\ length rs = fuel /\
      map attempt_of rs = count_from (i + 2) fuel.
Proof.
  intros Hc H0 H1 Hd.
  set (st' := after_call Evaluate true
                (record (Waited (Num 2000))
                   (after_call (Goto home) true st))).
  assert (E : compose_and_submit w message link st =
              (Abrupt {| error_message :=
                           js "Session expired during automation" |}, st')).
  { unfold compose_and_submit, bind, call, waitForTimeout.
    rewrite H0. cbn [calls after_call record]. rewrite H1, Hd. reflexivity. }
  destruct (attempt_catches w message link (Num c) shareDelay i st st'
              {| error_message := js "Session expired during automation" |})
    as (st1 & E1 & R1).
  { unfold attempt_steps, bind. now rewrite E. }
  exists st1, (time_at w st'). split; [exact E1|]. split; [exact R1|].
  split.
  { cbn [for_loop]. unfold js_lt.
    replace (i <? c) with true by (symmetry; apply Z.ltb_lt; lia).
    unfold bind. now rewrite E1. }
  destruct (for_loop_spec w message link (Num c) shareDelay fuel (i + 1) st1)
    as (st2 & evs & rs & E2 & (L & _ & _ & R) & N & Hord & _ & Hlen).
  assert (Hfuel : length rs = fuel) by (apply (Hlen c eq_refl); lia).
  exists st2, evs, rs. rewrite Hfuel in *.
  replace (i + 2) with (i + 1 + 1) by lia. auto 10.
Qed.

(** Three attempts on a page that never shows a landmark. *)
Lemma expired_session_fails_one_attempt_witness :
  exists st1 t,
    attempt logged_out (JStr (js "hello")) JUndefined (Num 3) (Num 15) 0
      (ready []) = (Normal tt, st1) /\
    results st1 =
      results (ready []) ++
      [Failure (0 + 1) (js "Session expired during automation") t] /\
    for_loop logged_out (JStr (js "hello")) JUndefined (Num 3) (Num 15) 3 0
      (ready []) =
      for_loop logged_out (JStr (js "hello")) JUndefined (Num 3) (Num 15) 2
        (0 + 1) st1 /\
    exists st2 evs rs,
      for_loop logged_out (JStr (js "hello")) JUndefined (Num 3) (Num 15) 2
        (0 + 1) st1 = (Normal tt, st2) /\
      log st2 = log st1 ++ evs /\ navigations evs = 2%nat /\
      results st2 = results st1 ++ rs /\ length rs = 2%nat /\
      map attempt_of rs = count_from (0 + 2) 2.
Proof.
  apply (expired_session_fails_one_attempt logged_out (JStr (js "hello"))
           JUndefined 3 (Num 15) 0 2 (ready [])
           (fun _ => false) (fun _ => false));
    reflexivity.
Defined.

Example session_expired_throughout :
  let expired := js "Session expired during automation" in
  results (run share logged_out (post_request (JNum 3))) =
    [Failure 1 expired midnight; Failure 2 expired midnight;
     Failure 3 expired midnight].
Proof. vm_compute. reflexivity. Qed.

(* ================================================================== *)
(** * /api/share: the verdict on a publication *)

(** C7.  When the steps of an attempt up to the submission have completed
    and the page is then inspected, the attempt is recorded as a success if
    the composer button is gone, and as the failure [Post may not have been
    published] if it is still there. *)
Theorem publication_judged_by_the_composer
  (w : World) (message link : JsVal) (shareCount shareDelay : JsNum)
  (i : Z) (st st1 : State) (d : Dom) :
  compose_and_submit w message link st = (Normal tt, st1) ->
  outcome w (calls st1) = Returns d ->
  exists st2 t,
    attempt w message link shareCount shareDelay i st = (Normal tt, st2) /\
    results st2 =
      results st ++
      [if d CreateAPost
       then Failure (i + 1) (js "Post may not have been published") t
       else Success (i + 1) t
              (js "Successfully shared post " ++ number_to_string (i + 1))] /\
    (forall r, In r (results st2) -> ~ In r (results st) ->
               success r = negb (d CreateAPost)).
Proof.
  intros E Ho.
  destruct (compose_and_submit_advance w message link st)
    as (evs & (_ & _ & _ & R) & _).
  rewrite E, app_nil_r in R. simpl in R.
  set (st' := after_call Evaluate true st1).
  assert (H : exists r,
             attempt w message link shareCount shareDelay i st =
               delay_before_next shareCount shareDelay i (pushed r st') /\
             r = (if d CreateAPost
                  then Failure (i + 1) (js "Post may not have been published")
                         (time_at w st')
                  else Success (i + 1) (time_at w st')
                         (js "Successfully shared post " ++
                          number_to_string (i + 1)))).
  { destruct (d CreateAPost) eqn:Hd; eexists; (split; [|reflexivity]).
    - apply (attempt_unconfirmed w message link shareCount shareDelay
               i st st1 d E Ho Hd).
    - apply (attempt_published w message link shareCount shareDelay
               i st st1 d E Ho Hd). }
  destruct H as (r & -> & Hr).
  destruct (delay_keeps_results shareCount shareDelay i (pushed r st'))
    as (st2 & E2 & R2).
  exists st2, (time_at w st'). split; [exact E2|].
  assert (Hres : results st2 = results st ++ [r]).
  { rewrite R2. simpl. now rewrite R. }
  split; [now rewrite Hres, Hr|].
  intros r' Hin Hnew. rewrite Hres in Hin.
  apply in_app_or in Hin. destruct Hin as [Hold | [<- | []]]; [tauto|].
  rewrite Hr. now destruct (d CreateAPost).
Qed.

(** The second attempt of a run where the composer button stays: the
    verdict is a failure. *)
Lemma publication_judged_by_the_composer_witness :
  exists st2 t,
    attempt stuck_composer (JStr (js "hello")) JUndefined (Num 2) (Num 5) 1
      (ready []) = (Normal tt, st2) /\
    results st2 =
      results (ready []) ++
      [if (fun _ : Selector => true) CreateAPost
       then Failure (1 + 1) (js "Post may not have been published") t
       else Success (1 + 1) t
              (js "Successfully shared post " ++ number_to_string (1 + 1))] /\
    (forall r, In r (results st2) -> ~ In r (results (ready [])) ->
               success r = negb ((fun _ : Selector => true) CreateAPost)).
Proof.
  apply (publication_judged_by_the_composer stuck_composer
           (JStr (js "hello")) JUndefined (Num 2) (Num 5) 1 (ready [])
           (snd (compose_and_submit stuck_composer (JStr (js "hello"))
                   JUndefined (ready [])))
           (fun _ => true));
    reflexivity.
Defined.

Example second_post_unconfirmed :
  let half : World :=
    {| outcome := fun n => Returns (fun _ => negb (Nat.eqb n 10));
       clock := fun _ => midnight |} in
  responses (log (run share half (timed_request (JNum 2) (JNum 5)))) =
    [(200,
      BShared [Success 1 midnight (js "Successfully shared post 1");
               Failure 2 (js "Post may not have been published") midnight]
        {| total := Num 2; successful := 1; failed := 1;
           successRate := 50%float |})].
Proof. vm_compute. reflexivity. Qed.

(* ================================================================== *)
(** * Both handlers: the browser is released *)

(** C8, as stated, fails: [res.json] is called inside the [try], the
    browser is closed in the [finally] after it.  A valid session is
    answered 200 while its browser is still open. *)
Lemma released_before_responding_counterexample :
  let l := log (run validate cooperative validate_request) in
  acquired l = 1%nat /\ ~ released_before_responding l.
Proof.
  split; [vm_compute; reflexivity|].
  intros H.
  specialize
    (H (firstn 8 (log (run validate cooperative validate_request)))
       200
       (BValid (js "Session is valid and ready for automation")
          (js "Facebook User") (JStr (js "100001")))
       [Called Close true]).
  assert (E : released
                (firstn 8 (log (run validate cooperative validate_request))) =
              acquired
                (firstn 8 (log (run validate cooperative validate_request))))
    by (apply H; vm_compute; reflexivity).
  vm_compute in E. discriminate E.
Qed.

Lemma run_shape_released (l : list Event) (s : Z) (b : Body) :
  run_shape l s b -> released_once_at_the_end l.
Proof.
  intros H. destruct (run_shape_balanced l s b H) as [Hle Heq].
  split; [exact Hle|]. split; [exact Heq|].
  intros l1 ok l2 E.
  destruct (run_shape_release_last l s b H l1 ok l2 E) as (-> & Ha & Hr).
  rewrite Hr. auto.
Qed.

(** C8, amended.  In every run of /api/validate and of /api/share, on every
    exit path, at most one browser is acquired, it is released exactly
    once, and nothing follows the release; the response is written before
    the release, not after it. *)
Theorem browser_released_once (w : World) (body : JsVal) :
  released_once_at_the_end (log (run validate w body)) /\
  released_once_at_the_end (log (run share w body)).
Proof.
  split.
  - destruct (validate_shape w body) as (s & b & H).
    exact (run_shape_released _ s b H).
  - destruct (share_shape w body) as (s & b & H & _).
    exact (run_shape_released _ s b H).
Qed.

(** The exit paths of /api/validate: a valid session, a session that is
    not logged in, a browser that fails, rejected cookies. *)
Example validate_200 :
  log (run validate cooperative validate_request) =
    log (ready (elements session)) ++
    [Called (Goto home) true; Called Evaluate true; Called Evaluate true;
     Responded 200
       (BValid (js "Session is valid and ready for automation")
          (js "Facebook User") (JStr (js "100001")));
     Called Close true].
Proof. vm_compute. reflexivity. Qed.

Example validate_401 :
  log (run validate logged_out validate_request) =
    log (ready (elements session)) ++
    [Called (Goto home) true; Called Evaluate true;
     Responded 401
       (BError
          (js "Invalid session - unable to login with provided cookies"));
     Called Close true].
Proof. vm_compute. reflexivity. Qed.

Example validate_500 :
  log (run validate broken_page validate_request) =
    log (ready (elements session)) ++
    [Called (Goto home) false;
     Responded 500
       (BError
          (js "Validation failed: Navigation timeout of 30000 ms exceeded"));
     Called Close false].
Proof. vm_compute. reflexivity. Qed.

Example validate_400 :
  log (run validate cooperative (JObj [(js "appstate", JStr (js "c_user"))])) =
    [Responded 400
       (BError
          (js "Invalid AppState format. Must be an array of cookies."))].
Proof. vm_compute. reflexivity. Qed.

(** A [null] among the cookies is read as a cookie and throws: a 500. *)
Example validate_null_entry :
  log (run validate cooperative (JObj [(js "appstate", JArr [JNull])])) =
    [Responded 500
       (BError
          (js "Validation failed: Cannot read properties of null (reading 'name')"))].
Proof. vm_compute. reflexivity. Qed.

(* ================================================================== *)
(** * Both handlers: one response *)

(** Every run of either handler writes exactly one response, whatever the
    request and whatever the browser does. *)
Theorem exactly_one_response (w : World) (body : JsVal) :
  length (responses (log (run validate w body))) = 1%nat /\
  length (responses (log (run share w body))) = 1%nat.
Proof.
  split.
  - destruct (validate_shape w body) as (s & b & H).
    now rewrite (run_shape_responses _ s b H).
  - destruct (share_shape w body) as (s & b & H & _).
    now rewrite (run_shape_responses _ s b H).
Qed.

(* ================================================================== *)
(** * Numbers as the request carries them: printing and parsing *)














(* ================================================================== *)
(** * POST /api/share-story *)

Section Story.

Variables (w : World) (body : JsVal).

Let appstate := get body (js "appstate").
Let message := get body (js "message").

Ltac story_run :=
  unfold share_story, share_story_answer, share_story_try, launch,
    close_browser, spread, destructure;
  unfold finally, try_catch, bind, call, ret, throw.

Ltac answer_calls :=
  repeat match goal with
         | |- context [outcome w ?n] => destruct (outcome w n); cbn -[js]
         end.

(** Every run of [/api/share-story] sends one answer, with status 200, 400
    or 500.  It only connects: it launches at most one browser, opens a
    page, sets cookies and navigates at most once, and it closes the browser
    it launched; it never reads the page, clicks or types. *)
Theorem story_only_connects :
  exists reply,
    fst (share_story_answer w body start) = Normal reply /\
    In (fst reply) [200; 400; 500] /\
    let l := log (snd (share_story w body start)) in
    forallb connects_only l = true /\
    (acquired l <= 1)%nat /\ released l = acquired l /\
    (navigations l <= 1)%nat.
Proof.
  story_run.
  destruct body as [| | | | |? |props]; cbn -[js];
    try (eexists; split; [reflexivity|]; cbn; intuition lia).
  generalize (own_property (js "appstate") props) as a.
  generalize (own_property (js "message") props) as m. intros m a.
  destruct (truthy a), (truthy m); cbn -[js];
    try (eexists; split; [reflexivity|]; cbn; intuition lia).
  destruct (outcome w 0); cbn -[js].
  destruct (outcome w 1); cbn -[js].
  destruct a; cbn -[js].
  all: answer_calls.
  all: try (eexists; split; [reflexivity|]; cbn; intuition lia).
Qed.

(** The answer is the 400 exactly when [appstate] or [message] is missing
    or falsy; no browser is launched then: the run leaves no trace. *)
Theorem story_requires_appstate_and_message :
  nullish body = false ->
  (fst (share_story_answer w body start)
     = Normal (400, StoryError (js "AppState and message are required"))
   <-> truthy appstate = false \/ truthy message = false) /\
  (truthy appstate = false \/ truthy message = false ->
   snd (share_story w body start) = start).
Proof.
  intros Hb. subst appstate message. story_run.
  destruct body as [| | | | |? |props]; try discriminate Hb; cbn -[js];
    try (split; [split; auto | reflexivity]).
  generalize (own_property (js "appstate") props) as a.
  generalize (own_property (js "message") props) as m. intros m a.
  destruct (truthy a), (truthy m); cbn -[js];
    try (split; [split; auto | reflexivity]).
  split; [|intros [|]; discriminate].
  split; [|intros [|]; discriminate].
  destruct (outcome w 0); cbn -[js]; [|discriminate].
  destruct (outcome w 1); cbn -[js]; [|discriminate].
  destruct a; cbn -[js]; answer_calls; discriminate.
Qed.

(** With a [message] and cookies to set, the answer is the 200 as soon as
    the browser starts, the page opens, the cookies are set and the
    navigation returns: whatever the page then shows, and without
    [message] being used. *)
Theorem story_reports_success_unseen (cookies : list JsVal) :
  spread appstate start = (Normal cookies, start) ->
  truthy appstate = true -> truthy message = true ->
  (forall n, (n < 4)%nat -> exists d, outcome w n = Returns d) ->
  fst (share_story_answer w body start)
    = Normal (200, StoryShared (js "Story sharing endpoint - implementation may need adjustment based on Facebook UI")) /\
  exists ok,
    log (snd (share_story w body start))
      = [Called Launch true; Called NewPage true;
         Called (SetCookie cookies) true; Called (Goto home) true;
         Called Close ok].
Proof.
  intros Hs Ha Hm Hw.
  destruct (Hw 0%nat) as [d0 H0]; [lia|].
  destruct (Hw 1%nat) as [d1 H1]; [lia|].
  destruct (Hw 2%nat) as [d2 H2]; [lia|].
  destruct (Hw 3%nat) as [d3 H3]; [lia|].
  revert Hs Ha Hm. subst appstate message. story_run.
  destruct body as [| | | | |? |props]; try discriminate; cbn -[js].
  generalize (own_property (js "appstate") props) as a.
  generalize (own_property (js "message") props) as m. intros m a Hs Ha Hm.
  rewrite Ha, Hm; cbn -[js]. rewrite H0; cbn -[js]. rewrite H1; cbn -[js].
  destruct a; try discriminate Hs; injection Hs as <-;
    cbn -[js]; rewrite H2; cbn -[js]; rewrite H3; cbn -[js];
    (split; [reflexivity|]);
    destruct (outcome w 4); cbn -[js]; eauto.
Qed.

(** An [appstate] that is truthy but cannot be spread (a number, [true], an
    object) is found out only at [setCookie]: a browser has been launched
    and a page opened by then.  The answer is the 500 with the engine's
    message, and the browser is closed. *)
Theorem story_appstate_not_iterable :
  truthy appstate = true -> truthy message = true ->
  (forall elems, appstate <> JArr elems) -> (forall s, appstate <> JStr s) ->
  (forall n, (n < 2)%nat -> exists d, outcome w n = Returns d) ->
  fst (share_story_answer w body start)
    = Normal (500, StoryError (js "Spread syntax requires ...iterable[Symbol.iterator] to be a function")) /\
  exists ok,
    log (snd (share_story w body start))
      = [Called Launch true; Called NewPage true; Called Close ok].
Proof.
  intros Ha Hm Harr Hstr Hw.
  destruct (Hw 0%nat) as [d0 H0]; [lia|].
  destruct (Hw 1%nat) as [d1 H1]; [lia|].
  revert Ha Hm Harr Hstr. subst appstate message. story_run.
  destruct body as [| | | | |? |props]; try discriminate; cbn -[js].
  generalize (own_property (js "appstate") props) as a.
  generalize (own_property (js "message") props) as m.
  intros m a Ha Hm Harr Hstr.
  rewrite Ha, Hm; cbn -[js]. rewrite H0; cbn -[js]. rewrite H1; cbn -[js].
  destruct a; try discriminate Ha;
    try (now contradiction (Harr _ eq_refl));
    try (now contradiction (Hstr _ eq_refl));
    cbn -[js]; (split; [reflexivity|]);
    destruct (outcome w 2); cbn -[js]; eauto.
Qed.

End Story.

Lemma story_requires_appstate_and_message_witness :
  let body := story_request session (JStr []) in
  (fst (share_story_answer cooperative body start)
     = Normal (400, StoryError (js "AppState and message are required"))
   <-> truthy (get body (js "appstate")) = false \/
       truthy (get body (js "message")) = false) /\
  (truthy (get body (js "appstate")) = false \/
   truthy (get body (js "message")) = false ->
   snd (share_story cooperative body start) = start).
Proof.
  apply (story_requires_appstate_and_message cooperative
           (story_request session (JStr []))).
  reflexivity.
Defined.

Lemma story_reports_success_unseen_witness :
  let body := story_request session (JNum 42) in
  fst (share_story_answer logged_out body start)
    = Normal (200, StoryShared (js "Story sharing endpoint - implementation may need adjustment based on Facebook UI")) /\
  exists ok,
    log (snd (share_story logged_out body start))
      = [Called Launch true; Called NewPage true;
         Called (SetCookie (elements session)) true;
         Called (Goto home) true; Called Close ok].
Proof.
  apply (story_reports_success_unseen logged_out
           (story_request session (JNum 42)) (elements session));
    try reflexivity.
  intros n _. eexists. reflexivity.
Defined.

Lemma story_appstate_not_iterable_witness :
  let body := story_request (JNum 7) (JStr (js "hello")) in
  fst (share_story_answer cooperative body start)
    = Normal (500, StoryError (js "Spread syntax requires ...iterable[Symbol.iterator] to be a function")) /\
  exists ok,
    log (snd (share_story cooperative body start))
      = [Called Launch true; Called NewPage true; Called Close ok].
Proof.
  apply (story_appstate_not_iterable cooperative
           (story_request (JNum 7) (JStr (js "hello"))));
    try reflexivity; try discriminate.
  intros n _. eexists. reflexivity.
Defined.

(* ================================================================== *)
(** * Setting the page up *)

Section Setup.

Variables (w : World) (cookies : list JsVal).

Lemma sets_up_or_fails :
  sets_up w \/ exists k e, (k < 5)%nat /\ fails_at w k e.
Proof.
  unfold sets_up, fails_at.
  destruct (outcome w 0) as [d0|e0] eqn:H0;
    [|right; exists 0%nat, e0; repeat split; [lia | auto | intros; lia]].
  destruct (outcome w 1) as [d1|e1] eqn:H1.
  2:{ right; exists 1%nat, e1. repeat split; [lia | auto |].
      intros j Hj. assert (j = 0%nat) as -> by lia. eauto. }
  destruct (outcome w 2) as [d2|e2] eqn:H2.
  2:{ right; exists 2%nat, e2. repeat split; [lia | auto |].
      intros j Hj.
      assert (j = 0 \/ j = 1)%nat as [-> | ->] by lia; eauto. }
  destruct (outcome w 3) as [d3|e3] eqn:H3.
  2:{ right; exists 3%nat, e3. repeat split; [lia | auto |].
      intros j Hj.
      assert (j = 0 \/ j = 1 \/ j = 2)%nat as [-> | [-> | ->]] by lia; eauto. }
  destruct (outcome w 4) as [d4|e4] eqn:H4.
  2:{ right; exists 4%nat, e4. repeat split; [lia | auto |].
      intros j Hj.
      assert (j = 0 \/ j = 1 \/ j = 2 \/ j = 3)%nat
        as [-> | [-> | [-> | ->]]] by lia; eauto. }
  left. intros n Hn.
  assert (n = 0 \/ n = 1 \/ n = 2 \/ n = 3 \/ n = 4)%nat
    as [-> | [-> | [-> | [-> | ->]]]] by lia; eauto.
Qed.

Lemma sets_up_not_fails (k : nat) (e : Error) :
  sets_up w -> (k < 5)%nat -> fails_at w k e -> False.
Proof.
  intros Hup Hk [Hf _]. destruct (Hup k Hk) as [d Hd]. congruence.
Qed.

(** The setup stops at the first call that throws. *)
Lemma setup_fails {A} (rest : M A) (k : nat) (e : Error) :
  (k < 5)%nat -> fails_at w k e ->
  (launch w ;; open_page w cookies ;; rest) start
    = (Abrupt e, setup_failed cookies k).
Proof.
  intros Hk [Hf Hbefore].
  assert (H : forall j, (j < k)%nat -> exists d, outcome w j = Returns d)
    by exact Hbefore.
  unfold launch, open_page, bind, call.
  cbn [calls start assigned after_call].
  destruct k as [|k]; [rewrite Hf; reflexivity|].
  destruct (H 0%nat) as [d0 ->]; [lia|].
  cbn [calls start assigned after_call].
  destruct k as [|k]; [rewrite Hf; reflexivity|].
  destruct (H 1%nat) as [d1 ->]; [lia|].
  cbn [calls start assigned after_call].
  destruct k as [|k]; [rewrite Hf; reflexivity|].
  destruct (H 2%nat) as [d2 ->]; [lia|].
  cbn [calls start assigned after_call].
  destruct k as [|k]; [rewrite Hf; reflexivity|].
  destruct (H 3%nat) as [d3 ->]; [lia|].
  cbn [calls start assigned after_call].
  destruct k as [|k]; [rewrite Hf; reflexivity|].
  lia.
Qed.

Lemma setup_succeeds {A} (rest : M A) :
  sets_up w ->
  (launch w ;; open_page w cookies ;; rest) start = rest (ready cookies).
Proof.
  intros H.
  destruct (H 0%nat) as [d0 H0]; [lia|]. destruct (H 1%nat) as [d1 H1]; [lia|].
  destruct (H 2%nat) as [d2 H2]; [lia|]. destruct (H 3%nat) as [d3 H3]; [lia|].
  destruct (H 4%nat) as [d4 H4]; [lia|].
  unfold launch, open_page, bind, call.
  cbn [calls start assigned after_call]. rewrite H0.
  cbn [calls start assigned after_call]. rewrite H1.
  cbn [calls start assigned after_call]. rewrite H2.
  cbn [calls start assigned after_call]. rewrite H3.
  cbn [calls start assigned after_call].
  rewrite H4. reflexivity.
Qed.

End Setup.

Lemma close_browser_off (w : World) (st : State) :
  browser st = false -> close_browser w st = (Normal tt, st).
Proof. intros H. unfold close_browser. now rewrite H. Qed.

Lemma close_browser_on (w : World) (st : State) :
  browser st = true ->
  exists ok, snd (close_browser w st) = after_call Close ok st.
Proof.
  intros H. unfold close_browser, bind, call. rewrite H.
  destruct (outcome w (calls st)); [exists true | exists false]; reflexivity.
Qed.

(** A run of [/api/share], from what its [try] leaves. *)
Lemma share_run (w : World) (body : JsVal) :
  run share w body =
    snd (close_browser w
           match share_try w body start with
           | (Normal _, st1) => st1
           | (Abrupt e, st1) =>
               record (Responded 500
                         (BError (js "Sharing failed: " ++ error_message e)))
                 st1
           end).
Proof.
  unfold run, share. rewrite finally_state. unfold try_catch, respond.
  now destruct (share_try w body start) as [[[]|e] st1].
Qed.

Lemma validate_run (w : World) (body : JsVal) :
  run validate w body =
    snd (close_browser w
           match validate_try w body start with
           | (Normal _, st1) => st1
           | (Abrupt e, st1) =>
               record (Responded 500
                         (BError (js "Validation failed: " ++ error_message e)))
                 st1
           end).
Proof.
  unfold run, validate. rewrite finally_state. unfold try_catch, respond.
  now destruct (validate_try w body start) as [[[]|e] st1].
Qed.

(* ================================================================== *)
(** * /api/share: how the answer is decided *)

Section ShareDecision.

Variables (w : World) (body : JsVal).

Let appstate := get body (js "appstate").
Let message := get body (js "message").

Lemma share_try_no_body :
  nullish body = true ->
  exists e, share_try w body start = (Abrupt e, start).
Proof.
  destruct body; try discriminate; intros _; eexists; reflexivity.
Qed.

Lemma share_try_invalid :
  nullish body = false -> isArray appstate = false ->
  share_try w body start =
    (Normal tt,
     record (Responded 400 (BError (js "Invalid AppState format"))) start).
Proof.
  intros Hb Ha. subst appstate. unfold share_try, bind.
  destruct body; try discriminate Hb; cbn [destructure ret];
    rewrite Ha, orb_true_r; reflexivity.
Qed.

Lemma isArray_body : isArray appstate = true -> nullish body = false.
Proof. subst appstate. now destruct body. Qed.

Lemma share_try_guarded :
  isArray appstate = true ->
  share_try w body start =
    (missing <- message_missing message ;;
     if missing then respond 400 (BError (js "Message is required"))
     else
       shareCount <- converted (shareCount_in body) ;;
       shareDelay <- converted (shareDelay_in body) ;;
       post_all w appstate message (get body (js "link"))
         shareCount shareDelay) start.
Proof.
  intros Ha. pose proof (isArray_body Ha) as Hb.
  subst appstate message. unfold share_try. unfold bind at 1.
  destruct body; try discriminate Hb; cbn [destructure ret];
    (destruct (get _ (js "appstate")); try discriminate Ha; reflexivity).
Qed.

(** The message guard, by cases on [message]. *)
Lemma message_missing_cases :
  (message_missing message start = (Normal true, start) /\
   (truthy message = false \/
    exists text, message = JStr text /\ trim text = [])) \/
  (message_missing message start = (Normal false, start) /\
   exists text, message = JStr text /\ trim text <> []) \/
  (message_missing message start =
     (Abrupt {| error_message := js "message.trim is not a function" |},
      start) /\
   truthy message = true /\ forall text, message <> JStr text).
Proof.
  unfold message_missing, bind, call_trim, ret, throw.
  destruct message as [| |b|z|s|l|p]; cbn [truthy negb];
    try (left; split; [reflexivity | left; reflexivity]).
  - destruct b; cbn [negb].
    + right; right. repeat split; auto; discriminate.
    + left; split; [reflexivity | left; reflexivity].
  - destruct (z =? 0); cbn [negb].
    + left; split; [reflexivity | left; reflexivity].
    + right; right. repeat split; auto; discriminate.
  - destruct s as [|c s]; cbn [negb].
    + left; split; [reflexivity | left; reflexivity].
    + destruct (trim (c :: s)) as [|c' t'] eqn:Et; cbn [length Nat.eqb].
      * left; split; [reflexivity | right; eauto].
      * right; left. split; [reflexivity|].
        exists (c :: s). split; [reflexivity|]. rewrite Et. discriminate.
  - right; right. repeat split; auto; discriminate.
  - right; right. repeat split; auto; discriminate.
Qed.

Lemma untried_before_launch (s : Z) (msg : jsstring) :
  untried (snd (close_browser w (record (Responded s (BError msg)) start)))
    s msg.
Proof.
  rewrite close_browser_off by reflexivity. repeat split.
Qed.

Lemma setup_failed_log (cookies : list JsVal) (k : nat) :
  (k < 5)%nat ->
  responses (log (setup_failed cookies k)) = [] /\
  navigations (log (setup_failed cookies k)) = O /\
  launches (log (setup_failed cookies k)) = 1%nat /\
  acquired (log (setup_failed cookies k)) = (if Nat.eqb k 0 then 0 else 1)%nat /\
  released (log (setup_failed cookies k)) = O.
Proof.
  intros Hk.
  do 5 (destruct k as [|k]; [repeat split|]). lia.
Qed.

(** The run when [count] or [delay] cannot be converted. *)
Lemma share_not_converted (cookies : list JsVal) (text : jsstring) :
  accepted body cookies text ->
  shareCount_in body = None \/ shareDelay_in body = None ->
  run share w body =
    record (Responded 500
              (BError (js "Sharing failed: Cannot convert object to primitive value")))
      start.
Proof.
  intros (Happ & Hmsg & Htrim) Hnone.
  rewrite share_run,
    (share_try_guards_passed w body cookies text Happ Hmsg Htrim).
  unfold bind.
  destruct (shareCount_in body) as [sc|]; cbn [converted ret throw].
  - destruct Hnone as [Hc | ->]; [discriminate Hc|].
    cbn [converted throw]. now rewrite close_browser_off.
  - now rewrite close_browser_off.
Qed.

(** The run when the [k]-th call of the setup throws. *)
Lemma share_setup_failed (cookies : list JsVal) (text : jsstring)
  (k : nat) (e : Error) :
  accepted body cookies text -> converts body ->
  (k < 5)%nat -> fails_at w k e ->
  run share w body =
    snd (close_browser w
           (record (Responded 500
                      (BError (js "Sharing failed: " ++ error_message e)))
              (setup_failed cookies k))).
Proof.
  intros (Happ & Hmsg & Htrim) ([sc Hsc] & [sd Hsd]) Hk Hf.
  rewrite share_run,
    (share_try_accepted w body cookies text sc sd Happ Hmsg Htrim Hsc Hsd).
  unfold post_all. cbn [elements].
  rewrite (setup_fails w cookies _ k e Hk Hf). reflexivity.
Qed.

Lemma untried_setup_failed (cookies : list JsVal) (k : nat) (s : Z)
  (msg : jsstring) :
  (k < 5)%nat ->
  untried (snd (close_browser w
                  (record (Responded s (BError msg))
                     (setup_failed cookies k)))) s msg.
Proof.
  intros Hk.
  destruct (setup_failed_log cookies k Hk) as (R & N & _).
  set (st := record _ _).
  destruct (close_browser_log w st) as (closing & L & Rs & Hc).
  unfold untried. rewrite L, Rs, responses_app, navigations_app.
  unfold st; cbn [record log results setup_failed].
  fold (log (setup_failed cookies k)).
  rewrite responses_app, navigations_app.
  change (log (setup_failed cookies k)) with
    (map (fun c => Called c true) (firstn k (setup_calls cookies)) ++
     [Called (nth k (setup_calls cookies) Launch) false]) in R, N.
  rewrite R, N.
  assert (Hcl : responses closing = [] /\ navigations closing = O).
  { destruct (browser st); [destruct Hc as [ok ->] | subst closing];
      split; reflexivity. }
  destruct Hcl as [-> ->]. repeat split.
Qed.

(** The seven ways a run of [/api/share] can go. *)
Lemma share_table :
  let final := run share w body in
  (nullish body = true /\
   exists e,
     final = record (Responded 500
                       (BError (js "Sharing failed: " ++ error_message e)))
               start) \/
  (nullish body = false /\ isArray appstate = false /\
   final = record (Responded 400 (BError (js "Invalid AppState format")))
             start) \/
  (isArray appstate = true /\
   (truthy message = false \/
    exists text, message = JStr text /\ trim text = []) /\
   final = record (Responded 400 (BError (js "Message is required"))) start) \/
  (isArray appstate = true /\
   truthy message = true /\ (forall text, message <> JStr text) /\
   final = record (Responded 500
                     (BError (js "Sharing failed: message.trim is not a function")))
             start) \/
  (exists cookies text,
     accepted body cookies text /\
     (shareCount_in body = None \/ shareDelay_in body = None) /\
     final = record (Responded 500
                       (BError (js "Sharing failed: Cannot convert object to primitive value")))
               start) \/
  (exists cookies text k e,
     accepted body cookies text /\ converts body /\
     (k < 5)%nat /\ fails_at w k e /\
     final = snd (close_browser w
                    (record (Responded 500
                               (BError (js "Sharing failed: " ++
                                        error_message e)))
                       (setup_failed cookies k)))) \/
  (exists cookies text,
     accepted body cookies text /\ converts body /\ sets_up w).
Proof.
  intros final. unfold final.
  destruct (nullish body) eqn:Hb.
  { left. split; [reflexivity|].
    destruct (share_try_no_body Hb) as [e He]. exists e.
    rewrite share_run, He. now rewrite close_browser_off. }
  right.
  destruct (isArray appstate) eqn:Ha.
  2:{ left. split; [reflexivity|]. split; [reflexivity|].
      rewrite share_run, (share_try_invalid Hb Ha).
      now rewrite close_browser_off. }
  right.
  pose proof (share_try_guarded Ha) as Ht.
  destruct message_missing_cases
    as [[Hm Hwhy] | [[Hm (text & Hmsg & Htrim)] | [Hm [Htruthy Hnot]]]].
  - left. split; [reflexivity|]. split; [exact Hwhy|].
    rewrite share_run, Ht. unfold bind. rewrite Hm.
    now rewrite close_browser_off.
  - right; right.
    assert (Hacc : exists cookies, accepted body cookies text).
    { subst appstate. destruct (get body (js "appstate")) eqn:E;
        try discriminate Ha.
      exists elems. repeat split; assumption. }
    destruct Hacc as [cookies Hacc].
    assert (Hconv : converts body \/
                    shareCount_in body = None \/ shareDelay_in body = None).
    { unfold converts.
      destruct (shareCount_in body) as [sc|]; [|right; now left].
      destruct (shareDelay_in body) as [sd|]; [|right; now right].
      left. eauto. }
    destruct Hconv as [Hconv | Hnone].
    2:{ left. exists cookies, text. split; [exact Hacc|].
        split; [exact Hnone|].
        apply (share_not_converted cookies text Hacc Hnone). }
    right.
    destruct (sets_up_or_fails w) as [Hup | (k & e & Hk & Hf)].
    + right. exists cookies, text. auto.
    + left. exists cookies, text, k, e.
      split; [exact Hacc|]. split; [exact Hconv|].
      split; [exact Hk|]. split; [exact Hf|].
      apply (share_setup_failed cookies text k e Hacc Hconv Hk Hf).
  - right; left. split; [reflexivity|]. split; [exact Htruthy|].
    split; [exact Hnot|].
    rewrite share_run, Ht. unfold bind. rewrite Hm.
    now rewrite close_browser_off.
Qed.

End ShareDecision.

Lemma share_accepted_answer (w : World) (body : JsVal)
  (cookies : list JsVal) (text : jsstring) :
  accepted body cookies text -> converts body -> sets_up w ->
  exists sc rs,
    shareCount_in body = Some sc /\
    responses (log (run share w body))
      = [(200, BShared rs (summarize sc rs))].
Proof.
  intros (Happ & Hmsg & Htrim) ([sc Hsc] & [sd Hsd]) Hup.
  destruct (share_accepted_run w body cookies text sc sd
              Happ Hmsg Htrim Hsc Hsd Hup)
    as (evs & rs & ok & L & P & _).
  exists sc, rs. split; [exact Hsc|]. rewrite L, !responses_app.
  destruct (page_events_silent evs P) as (-> & _). reflexivity.
Qed.

(** Either the request is accepted, its count and delay are converted and
    the page is set up, or the run ends in an error answer without an
    attempt. *)
Lemma share_cases (w : World) (body : JsVal) :
  (exists cookies text,
     accepted body cookies text /\ converts body /\ sets_up w) \/
  exists s msg, (s = 400 \/ s = 500) /\ untried (run share w body) s msg.
Proof.
  pose proof (share_table w body) as T. cbv zeta in T.
  destruct T
    as [(_ & e & E) | [(_ & _ & E) | [(_ & _ & E) | [(_ & _ & _ & E) |
        [(cookies & text & _ & _ & E) |
         [(cookies & text & k & e & Hacc & Hconv & Hk & Hf & E) | Hok]]]]]];
    try (now left); right.
  - exists 500, (js "Sharing failed: " ++ error_message e).
    split; [auto|]. rewrite E. repeat split.
  - exists 400, (js "Invalid AppState format").
    split; [auto|]. rewrite E. repeat split.
  - exists 400, (js "Message is required").
    split; [auto|]. rewrite E. repeat split.
  - exists 500, (js "Sharing failed: message.trim is not a function").
    split; [auto|]. rewrite E. repeat split.
  - exists 500,
      (js "Sharing failed: Cannot convert object to primitive value").
    split; [auto|]. rewrite E. repeat split.
  - exists 500, (js "Sharing failed: " ++ error_message e).
    split; [auto|]. rewrite E. now apply untried_setup_failed.
Qed.

(** A run of [/api/share] is answered 200 exactly when [appstate] is an
    array, [message] is a string that does not trim to nothing,
    [parseInt(count)] and [parseInt(delay)] return, and the five calls that
    set the page up return.  Any other run is answered 400 or 500 with an
    error, and has attempted nothing: it has not navigated and has no
    record. *)
Theorem share_attempts_only_when_accepted (w : World) (body : JsVal) :
  let final := run share w body in
  ((exists b, responses (log final) = [(200, b)]) <->
   (exists cookies text, accepted body cookies text) /\
   converts body /\ sets_up w) /\
  ((forall b, responses (log final) <> [(200, b)]) ->
   exists s msg, (s = 400 \/ s = 500) /\ untried final s msg).
Proof.
  intros final.
  destruct (share_cases w body)
    as [(cookies & text & Hacc & Hconv & Hup) | (s & msg & Hs & Hun)];
    try fold final in Hun.
  - destruct (share_accepted_answer w body cookies text Hacc Hconv Hup)
      as (sc & rs & _ & R).
    fold final in R. split.
    + split; [eauto | intros _; eauto].
    + intros Hno. now contradiction (Hno _ R).
  - split; [|intros _; eauto].
    destruct Hun as (R & _). split.
    + intros [b Hb]. rewrite R in Hb. injection Hb as Hs' _.
      destruct Hs; subst s; discriminate.
    + intros ((cookies & text & Hacc) & Hconv & Hup).
      destruct (share_accepted_answer w body cookies text Hacc Hconv Hup)
        as (sc & rs & _ & R').
      fold final in R'. rewrite R in R'. injection R' as Hs' _.
      destruct Hs; subst s; discriminate.
Qed.

(** No request makes [/api/share] attempt more than ten posts, whatever its
    [count]: a run navigates at most ten times, once for each record it
    keeps. *)
Theorem share_at_most_ten_attempts (w : World) (body : JsVal) :
  let final := run share w body in
  navigations (log final) = length (results final) /\
  (length (results final) <= 10)%nat.
Proof.
  intros final.
  destruct (share_cases w body)
    as [(cookies & text & Hacc & Hconv & Hup) |
        (s & msg & Hs & (_ & N & R))];
    try fold final in N, R.
  - destruct (share_accepted_answer w body cookies text Hacc Hconv Hup)
      as (sc0 & rs & _ & Hr).
    destruct (share_shape w body) as (s & b & Hshape & Hb).
    rewrite (run_shape_responses _ _ _ Hshape) in Hr.
    injection Hr as -> ->.
    destruct Hb
      as [(msg & [=] & _) | (sc & Hc & _ & [= Hrs] & Hlen' & _ & Hnav)].
    fold final in Hlen', Hnav. rewrite Hnav, Hlen'. split; [reflexivity|].
    destruct sc as [|c]; cbn [iterations]; [lia|].
    pose proof (shareCount_range _ _ Hc). lia.
  - rewrite N, R. cbn [length]. lia.
Qed.

(** ** Failures within the attempts *)



Example all_attempts_fail :
  let timeout := js "Navigation timeout of 30000 ms exceeded" in
  responses (log (run share broken_page (post_request (JNum 3)))) =
    [(200,
      BShared [Failure 1 timeout midnight; Failure 2 timeout midnight;
               Failure 3 timeout midnight]
        {| total := Num 3; successful := 0; failed := 3;
           successRate := 0%float |})].
Proof. vm_compute. reflexivity. Qed.

(** ** Strings of white space *)

Lemma trim_start_nil_iff (s : jsstring) :
  trim_start s = [] <-> forallb is_white_space s = true.
Proof.
  induction s as [|c s IH]; cbn [trim_start forallb]; [tauto|].
  destruct (is_white_space c); cbn [andb]; [exact IH|].
  split; discriminate.
Qed.

Lemma trim_start_head (s : jsstring) (c : N) (r : jsstring) :
  trim_start s = c :: r -> is_white_space c = false.
Proof.
  induction s as [|x s IH]; cbn [trim_start]; [discriminate|].
  destruct (is_white_space x) eqn:E; [exact IH|].
  intros [= <- _]. exact E.
Qed.

Lemma forallb_rev {A} (f : A -> bool) (l : list A) :
  forallb f (rev l) = forallb f l.
Proof.
  induction l as [|x l IH]; [reflexivity|].
  cbn [rev forallb]. rewrite forallb_app, IH. cbn [forallb].
  rewrite andb_true_r. apply andb_comm.
Qed.

(** [trim] leaves nothing exactly of the strings made of white space. *)
Lemma trim_nil_iff (s : jsstring) :
  trim s = [] <-> forallb is_white_space s = true.
Proof.
  unfold trim. rewrite <- trim_start_nil_iff.
  split.
  - intros H. apply (f_equal (@rev N)) in H. rewrite rev_involutive in H.
    cbn [rev] in H. apply trim_start_nil_iff in H.
    rewrite forallb_rev in H.
    destruct (trim_start s) as [|c r] eqn:E; [reflexivity|].
    pose proof (trim_start_head s c r E) as Hc.
    cbn [forallb] in H. rewrite Hc in H. discriminate H.
  - intros ->. reflexivity.
Qed.

(** Of a request with a body, [/api/share] checks [appstate] first and
    [message] second: the answer is the 400 [Invalid AppState format]
    exactly when [appstate] is not an array, and the 400 [Message is
    required] exactly when [appstate] is an array and [message] is falsy or
    a string of nothing but white space.  A 400 is all such a run does. *)
Theorem share_400_iff (w : World) (body : JsVal) :
  nullish body = false ->
  let final := run share w body in
  let appstate := get body (js "appstate") in
  let message := get body (js "message") in
  (responses (log final) = [(400, BError (js "Invalid AppState format"))]
   <-> isArray appstate = false) /\
  (responses (log final) = [(400, BError (js "Message is required"))]
   <-> isArray appstate = true /\
       (truthy message = false \/
        exists text,
          message = JStr text /\ forallb is_white_space text = true)) /\
  (forall b, responses (log final) = [(400, b)] ->
             log final = [Responded 400 b] /\ calls final = O).
Proof.
  intros Hb final appstate message.
  assert (Hblank :
    (truthy message = false \/
     exists text, message = JStr text /\ forallb is_white_space text = true)
    <-> (truthy message = false \/
         exists text, message = JStr text /\ trim text = [])).
  { split; (intros [H | (text & Hm & Ht)]; [now left | right]);
      exists text; (split; [exact Hm|]); now apply trim_nil_iff. }
  rewrite Hblank. clear Hblank.
  pose proof (share_table w body) as T. cbv zeta in T.
  fold final appstate message in T.
  destruct T
    as [(Hn & _) | [(_ & Ha & E) | [(Ha & Hm & E) | [(Ha & Ht & Hnot & E) |
        [(cookies & text & Hacc & _ & E) |
         [(cookies & text & k & e & Hacc & _ & Hk & Hf & E) |
          (cookies & text & Hacc & Hconv & Hup)]]]]]].
  - congruence.
  - rewrite E. cbn [record log start app responses flat_map calls].
    split; [split; auto|]. split.
    + split; [intros H; vm_compute in H; discriminate H|].
      intros [Ha' _]. congruence.
    + intros b [= <-]. auto.
  - rewrite E. cbn [record log start app responses flat_map calls].
    split; [|split].
    + split; [intros H; vm_compute in H; discriminate H | congruence].
    + split; auto.
    + intros b [= <-]. auto.
  - rewrite E. cbn [record log start app responses flat_map calls].
    split; [|split].
    + split; [discriminate | congruence].
    + split; [discriminate|].
      intros [_ [Hfalsy | (text & Hmsg & _)]]; [congruence|].
      now contradiction (Hnot text).
    + discriminate.
  - rewrite E. cbn [record log start app responses flat_map calls].
    destruct Hacc as (Happ & Hmsg & Htrim).
    assert (Ha : isArray appstate = true) by (unfold appstate; now rewrite Happ).
    split; [|split].
    + split; [discriminate | congruence].
    + split; [discriminate|].
      intros [_ [Hfalsy | (text' & Hmsg' & Htrim')]].
      * unfold message in Hfalsy. rewrite Hmsg in Hfalsy.
        destruct text; [now contradiction Htrim | discriminate Hfalsy].
      * unfold message in Hmsg'. congruence.
    + discriminate.
  - destruct (untried_setup_failed w cookies k 500
                (js "Sharing failed: " ++ error_message e) Hk) as (R & _).
    rewrite <- E in R. rewrite R.
    destruct Hacc as (Happ & Hmsg & Htrim).
    assert (Ha : isArray appstate = true) by (unfold appstate; now rewrite Happ).
    split; [|split].
    + split; [discriminate | congruence].
    + split; [discriminate|].
      intros [_ [Hfalsy | (text' & Hmsg' & Htrim')]].
      * unfold message in Hfalsy. rewrite Hmsg in Hfalsy.
        destruct text; [now contradiction Htrim | discriminate Hfalsy].
      * unfold message in Hmsg'. congruence.
    + discriminate.
  - destruct (share_accepted_answer w body cookies text Hacc Hconv Hup)
      as (sc & rs & _ & R).
    fold final in R. rewrite R.
    destruct Hacc as (Happ & Hmsg & Htrim).
    assert (Ha : isArray appstate = true) by (unfold appstate; now rewrite Happ).
    split; [|split].
    + split; [discriminate | congruence].
    + split; [discriminate|].
      intros [_ [Hfalsy | (text' & Hmsg' & Htrim')]].
      * unfold message in Hfalsy. rewrite Hmsg in Hfalsy.
        destruct text; [now contradiction Htrim | discriminate Hfalsy].
      * unfold message in Hmsg'. congruence.
    + discriminate.
Qed.

Lemma share_400_iff_witness :
  let body := JObj [(js "appstate", session); (js "message", JStr (js "   "))] in
  let final := run share cooperative body in
  let appstate := get body (js "appstate") in
  let message := get body (js "message") in
  (responses (log final) = [(400, BError (js "Invalid AppState format"))]
   <-> isArray appstate = false) /\
  (responses (log final) = [(400, BError (js "Message is required"))]
   <-> isArray appstate = true /\
       (truthy message = false \/
        exists text,
          message = JStr text /\ forallb is_white_space text = true)) /\
  (forall b, responses (log final) = [(400, b)] ->
             log final = [Responded 400 b] /\ calls final = O).
Proof.
  apply (share_400_iff cooperative
           (JObj [(js "appstate", session); (js "message", JStr (js "   "))])).
  reflexivity.
Defined.

(** A [message] that is truthy but not a string (a number, [true], an
    object, an array) passes [!message] and then has no [trim]: the
    [TypeError] is caught by the handler and answered as a 500, before any
    browser is launched. *)
Theorem share_message_not_a_string (w : World) (body : JsVal) :
  isArray (get body (js "appstate")) = true ->
  truthy (get body (js "message")) = true ->
  (forall text, get body (js "message") <> JStr text) ->
  run share w body =
    record (Responded 500
              (BError (js "Sharing failed: message.trim is not a function")))
      start.
Proof.
  intros Ha Ht Hnot.
  rewrite share_run, (share_try_guarded w body Ha). unfold bind.
  destruct (message_missing_cases body)
    as [[_ [Hf | (text & Hmsg & _)]] | [[_ (text & Hmsg & _)] | [Hm _]]].
  - congruence.
  - now contradiction (Hnot text).
  - now contradiction (Hnot text).
  - rewrite Hm. now rewrite close_browser_off.
Qed.

Lemma share_message_not_a_string_witness :
  run share cooperative
    (JObj [(js "appstate", session); (js "message", JNum 42)]) =
    record (Responded 500
              (BError (js "Sharing failed: message.trim is not a function")))
      start.
Proof.
  apply (share_message_not_a_string cooperative
           (JObj [(js "appstate", session); (js "message", JNum 42)]));
    [reflexivity | reflexivity | discriminate].
Defined.

(** The log of a run whose setup failed at the [k]-th call: the calls made,
    the 500, and the release of the browser if it had been launched. *)
Lemma setup_failed_run (w : World) (cookies : list JsVal) (k : nat)
  (b : Body) :
  (k < 5)%nat ->
  let final :=
    snd (close_browser w (record (Responded 500 b) (setup_failed cookies k))) in
  exists closing,
    log final =
      map (fun c => Called c true) (firstn k (setup_calls cookies)) ++
      [Called (nth k (setup_calls cookies) Launch) false; Responded 500 b] ++
      closing /\
    (if Nat.eqb k 0 then closing = [] else exists ok, closing = [Called Close ok]) /\
    results final = [].
Proof.
  intros Hk final. unfold final.
  set (st := record _ _).
  destruct (close_browser_log w st) as (closing & L & Rs & Hc).
  exists closing. rewrite L, Rs. unfold st.
  cbn [record log results setup_failed browser] in *.
  rewrite <- !app_assoc. split; [reflexivity|]. split; [|reflexivity].
  destruct k; exact Hc.
Qed.

(** When one of the five calls that set the page up throws, an accepted
    request to [/api/share] whose [count] and [delay] [parseInt] converts
    is answered 500 with [Sharing failed: ] and the message thrown.  The
    calls before it were made and none after it; the browser is closed
    after the answer if it had been launched (that is, unless the launch
    itself threw); nothing was attempted. *)
Theorem share_setup_failure (w : World) (body : JsVal)
  (cookies : list JsVal) (text : jsstring) (k : nat) (e : Error) :
  accepted body cookies text -> converts body ->
  (k < 5)%nat -> fails_at w k e ->
  let final := run share w body in
  exists closing,
    log final =
      map (fun c => Called c true) (firstn k (setup_calls cookies)) ++
      [Called (nth k (setup_calls cookies) Launch) false;
       Responded 500 (BError (js "Sharing failed: " ++ error_message e))] ++
      closing /\
    (if Nat.eqb k 0 then closing = [] else exists ok, closing = [Called Close ok]) /\
    results final = [].
Proof.
  intros Hacc Hconv Hk Hf final. unfold final.
  rewrite (share_setup_failed w body cookies text k e Hacc Hconv Hk Hf).
  now apply setup_failed_run.
Qed.

Lemma share_setup_failure_witness :
  let final := run share no_page (post_request (JNum 3)) in
  exists closing,
    log final =
      map (fun c => Called c true) (firstn 1 (setup_calls (elements session))) ++
      [Called (nth 1 (setup_calls (elements session)) Launch) false;
       Responded 500
         (BError (js "Sharing failed: " ++
                  error_message
                    {| error_message := js "Protocol error: Target closed" |}))] ++
      closing /\
    (if Nat.eqb 1 0 then closing = [] else exists ok, closing = [Called Close ok]) /\
    results final = [].
Proof.
  apply (share_setup_failure no_page (post_request (JNum 3))
           (elements session) (js "hello") 1
           {| error_message := js "Protocol error: Target closed" |}).
  - repeat split. discriminate.
  - split; eexists; reflexivity.
  - lia.
  - split; [reflexivity|]. intros j Hj. assert (j = 0%nat) as -> by lia.
    eexists. reflexivity.
Defined.
(* ================================================================== *)
(** * /api/share: a count or a delay that cannot be converted *)

(** Induction on values, the elements of an array included. *)
Lemma JsVal_elements_ind (P : JsVal -> Prop) :
  P JUndefined -> P JNull -> (forall b, P (JBool b)) ->
  (forall z, P (JNum z)) -> (forall s, P (JStr s)) ->
  (forall elems, Forall P elems -> P (JArr elems)) ->
  (forall props, P (JObj props)) ->
  forall v, P v.
Proof.
  intros Hu Hn Hb Hz Hs Ha Ho. fix IH 1.
  intros [| |b|z|s|elems|props];
    [exact Hu | exact Hn | apply Hb | apply Hz | apply Hs | | apply Ho].
  apply Ha. induction elems as [|x elems IHl]; constructor;
    [apply IH | exact IHl].
Qed.

(** [join], element by element. *)
Lemma to_string_one (x : JsVal) :
  to_string (JArr [x]) =
    match x with
    | JUndefined | JNull => Some []
    | _ => to_string x
    end.
Proof. reflexivity. Qed.

Lemma to_string_more (x y : JsVal) (l : list JsVal) :
  to_string (JArr (x :: y :: l)) =
    match match x with
          | JUndefined | JNull => Some []
          | _ => to_string x
          end with
    | Some s =>
        match to_string (JArr (y :: l)) with
        | Some r => Some (s ++ js "," ++ r)
        | None => None
        end
    | None => None
    end.
Proof. reflexivity. Qed.

(** [ToString] throws exactly on an object with a [toString] member of its
    own and on an array that holds one. *)
Lemma to_string_throws (v : JsVal) :
  to_string v = None <-> own_toString_inside v = true.
Proof.
  induction v as [| | [] | | | elems IH | props] using JsVal_elements_ind;
    try (cbn [to_string own_toString_inside]; split; discriminate).
  - cbn [own_toString_inside].
    induction IH as [|x l Hx _ IHl]; [split; discriminate|].
    cbn [existsb]. rewrite orb_true_iff, <- Hx, <- IHl. clear IHl Hx.
    assert (Hitem : match x with
                    | JUndefined | JNull => Some []
                    | _ => to_string x
                    end = None <-> to_string x = None)
      by (destruct x; cbn [to_string]; intuition discriminate).
    destruct l as [|y l].
    + rewrite to_string_one, Hitem. intuition discriminate.
    + rewrite to_string_more.
      destruct (match x with
                | JUndefined | JNull => Some []
                | _ => to_string x
                end) as [sx|] eqn:Ex.
      * destruct (to_string (JArr (y :: l))) as [r|]; split;
          try discriminate; auto.
        intros [H | H]; [apply Hitem in H|]; discriminate H.
      * split; auto. intros _. left. now apply Hitem.
  - cbn [to_string own_toString_inside].
    destruct (has_own (js "toString") props); split; auto; discriminate.
Qed.

Lemma clamp_throws (x : JsVal) (lo hi : Z) :
  clamp x lo hi = None <-> own_toString_inside x = true.
Proof.
  rewrite <- to_string_throws. unfold clamp, parseInt.
  destruct (to_string x); cbn [option_map]; split; auto; discriminate.
Qed.

(** An accepted request is answered 500, with the message of the
    [TypeError] and before any call, exactly when [count] or [delay] (with
    their defaults) is an object with a [toString] member of its own, or an
    array that holds one: [parseInt] cannot convert it to a string. *)
Theorem share_conversion_failure (w : World) (body : JsVal)
  (cookies : list JsVal) (text : jsstring) :
  accepted body cookies text ->
  let count := default (get body (js "count")) (JNum 1) in
  let delay := default (get body (js "delay")) (JNum 15) in
  own_toString_inside count || own_toString_inside delay = true <->
  run share w body =
    record
      (Responded 500
         (BError (js "Sharing failed: Cannot convert object to primitive value")))
      start.
Proof.
  intros Hacc count delay.
  rewrite orb_true_iff. unfold count, delay.
  rewrite <- (clamp_throws _ 1 10), <- (clamp_throws _ 5 60).
  fold (shareCount_in body) (shareDelay_in body).
  split; [now apply (share_not_converted w body cookies text)|].
  intros E.
  destruct (shareCount_in body) as [sc|] eqn:Hsc; [|now left].
  destruct (shareDelay_in body) as [sd|] eqn:Hsd; [|now right].
  exfalso.
  assert (Hl : launches (log (run share w body)) = O) by now rewrite E.
  assert (Hconv : converts body) by (split; eauto).
  pose proof (share_table w body) as T. cbv zeta in T.
  destruct Hacc as (Happ & Hmsg & Htrim).
  destruct T
    as [(Hn & _) | [(_ & Ha & _) | [(_ & Hm & _) | [(_ & _ & Hnot & _) |
        [(cookies' & text' & _ & Hnone & _) |
         [(cookies' & text' & k & e & _ & _ & Hk & _ & E') |
          (cookies' & text' & (Happ' & Hmsg' & Htrim') & _ & Hup)]]]]]].
  - destruct body; discriminate.
  - rewrite Happ in Ha. discriminate Ha.
  - destruct Hm as [Hf | (t & Ht & Hblank)].
    + rewrite Hmsg in Hf. destruct text; [now apply Htrim | discriminate Hf].
    + congruence.
  - now apply (Hnot text).
  - destruct Hnone; congruence.
  - rewrite E' in Hl.
    destruct (setup_failed_log cookies' k Hk) as (_ & _ & L1 & _).
    set (st := record _ _) in Hl.
    destruct (close_browser_log w st) as (closing & L & _).
    rewrite L, launches_app in Hl. unfold st in Hl.
    cbn [record log] in Hl. rewrite launches_app, L1 in Hl. lia.
  - destruct (share_accepted_run w body cookies' text' sc sd
                Happ' Hmsg' Htrim' Hsc Hsd Hup) as (evs & rs & ok & L & _).
    rewrite L, launches_app in Hl. cbn in Hl. lia.
Qed.

Lemma share_conversion_failure_witness :
  let count := default (get unprintable_count (js "count")) (JNum 1) in
  let delay := default (get unprintable_count (js "delay")) (JNum 15) in
  own_toString_inside count || own_toString_inside delay = true <->
  run share cooperative unprintable_count =
    record
      (Responded 500
         (BError (js "Sharing failed: Cannot convert object to primitive value")))
      start.
Proof.
  apply (share_conversion_failure cooperative unprintable_count
           (elements session) (js "hello")).
  repeat split. discriminate.
Defined.

(** The same inside an array, and for [delay]. *)
Example share_count_array_holding_own_toString :
  responses
    (log (run share cooperative
            (post_request (JArr [JNum 3; JObj [(js "toString", JNum 1)]])))) =
    [(500,
      BError (js "Sharing failed: Cannot convert object to primitive value"))].
Proof. reflexivity. Qed.

Example share_delay_own_toString :
  run share cooperative
    (timed_request (JNum 3) (JObj [(js "toString", JNum 1)])) =
    record
      (Responded 500
         (BError (js "Sharing failed: Cannot convert object to primitive value")))
      start.
Proof. reflexivity. Qed.

(** An object without such a member prints as [[object Object]], in which
    [parseInt] reads no number: the count is [NaN]. *)
Example share_count_plain_object :
  shareCount_in (post_request (JObj [(js "valueOf", JNum 1)])) = Some NaN.
Proof. reflexivity. Qed.


(* ================================================================== *)
(** * /api/validate: the verdict *)

Lemma is_string_true (v : JsVal) (s : jsstring) :
  v = JStr s -> is_string v s = true.
Proof. intros ->. simpl. now apply code_eqb_eq. Qed.

(** [find] returns the first entry with the name. *)
Lemma find_named_first (name : jsstring) (cookies : list JsVal) (c : JsVal)
  (st : State) :
  first_named name cookies c ->
  find_named name cookies st = (Normal c, st) /\ truthy c = true.
Proof.
  intros (before & after & -> & Hbefore & Hname).
  assert (Hc : exists props, c = JObj props).
  { destruct c; try discriminate Hname. eauto. }
  destruct Hc as [props ->].
  induction Hbefore as [|x before [Hx Hn] _ IH].
  - cbn [app find_named]. rewrite (is_string_true _ _ Hname). auto.
  - cbn [app find_named].
    destruct x; try discriminate Hx; try exact IH;
      rewrite (is_string_false _ _ Hn); exact IH.
Qed.

Ltac closing_call w :=
  unfold close_browser, bind, call, ret;
  cbn [browser record after_call calls ready];
  match goal with
  | |- context [outcome w ?n] => destruct (outcome w n)
  end.

Section Verdict.

Variables (w : World) (body : JsVal) (cookies : list JsVal) (c_user : JsVal).

Hypothesis Hvalidated : validated body cookies c_user.

Lemma validate_try_accepted :
  validate_try w body start = check_session w (JArr cookies) c_user start.
Proof.
  destruct Hvalidated as (Happ & Hc & xs & Hx).
  unfold validate_try. unfold bind at 1.
  destruct body; try discriminate Happ. cbn [destructure ret].
  rewrite Happ. cbn [truthy isArray negb orb elements].
  unfold bind.
  destruct (find_named_first _ _ _ start Hc) as [-> Tc].
  destruct (find_named_first _ _ _ start Hx) as [-> Tx].
  rewrite Tc, Tx. reflexivity.
Qed.

Lemma check_session_ready :
  sets_up w ->
  check_session w (JArr cookies) c_user start =
    (_ <- call w (Goto home) ;;
     d <- call w Evaluate ;;
     if landmark d then
       d' <- call w Evaluate ;;
       respond 200
         (BValid (js "Session is valid and ready for automation")
            (if d' YourProfile then js "Your profile" else js "Facebook User")
            (get c_user (js "value")))
     else
       respond 401
         (BError (js "Invalid session - unable to login with provided cookies")))
      (ready cookies).
Proof.
  intros Hup. unfold check_session. cbn [elements].
  now rewrite (setup_succeeds w cookies _ Hup).
Qed.

(** With the cookies accepted and the page set up and loaded, the answer
    follows the landmarks the page shows: 200 with the [value] of the first
    [c_user] entry when one of [Create a post], [Messenger] and
    [Notifications] is there, 401 when none is.  Only the second look at the
    page, for the profile link, can still turn the 200 into a 500. *)
Theorem validate_verdict (d5 d : Dom) :
  sets_up w ->
  outcome w 5 = Returns d5 -> outcome w 6 = Returns d ->
  let final := run validate w body in
  responses (log final) =
    [if landmark d then
       match outcome w 7 with
       | Returns d' =>
           (200,
            BValid (js "Session is valid and ready for automation")
              (if d' YourProfile then js "Your profile"
               else js "Facebook User")
              (get c_user (js "value")))
       | Throws e =>
           (500, BError (js "Validation failed: " ++ error_message e))
       end
     else
       (401,
        BError (js "Invalid session - unable to login with provided cookies"))]
  /\ navigations (log final) = 1%nat
  /\ released (log final) = 1%nat.
Proof.
  intros Hup H5 H6 final. unfold final.
  rewrite validate_run, validate_try_accepted, (check_session_ready Hup).
  unfold bind, call. cbn [calls ready]. rewrite H5.
  cbn [calls after_call ready]. rewrite H6.
  destruct (landmark d).
  - cbn [calls after_call ready]. destruct (outcome w 7) as [d'|e];
      unfold respond; closing_call w; repeat split.
  - unfold respond; closing_call w; repeat split.
Qed.

(** When a call throws before the page has been read (one of the five of
    the setup, the navigation, or the look for the landmarks), the answer is
    the 500 with [Validation failed: ] and the message thrown, and the
    browser is closed if it had been launched. *)
Theorem validate_call_failure (k : nat) (e : Error) :
  (k < 7)%nat -> fails_at w k e ->
  let final := run validate w body in
  responses (log final) =
    [(500, BError (js "Validation failed: " ++ error_message e))] /\
  released (log final) = (if Nat.eqb k 0 then 0 else 1)%nat /\
  acquired (log final) = (if Nat.eqb k 0 then 0 else 1)%nat.
Proof.
  intros Hk Hf final. unfold final.
  rewrite validate_run, validate_try_accepted.
  destruct (Nat.lt_ge_cases k 5) as [Hlt | Hge].
  - unfold check_session. cbn [elements].
    rewrite (setup_fails w cookies _ k e Hlt Hf).
    do 5 (destruct k as [|k];
          [try (now rewrite close_browser_off);
           closing_call w; repeat split |]).
    lia.
  - assert (Hup : sets_up w).
    { intros n Hn. apply (proj2 Hf). lia. }
    rewrite (check_session_ready Hup).
    unfold bind, call. cbn [calls ready].
    assert (k = 5 \/ k = 6)%nat as [-> | ->] by lia.
    + rewrite (proj1 Hf). closing_call w; repeat split.
    + destruct (proj2 Hf 5%nat) as [d5 ->]; [lia|].
      cbn [calls after_call ready]. rewrite (proj1 Hf).
      closing_call w; repeat split.
Qed.

End Verdict.

Lemma validate_verdict_witness :
  let final := run validate logged_out validate_request in
  responses (log final) =
    [if landmark (fun _ => false) then
       match outcome logged_out 7 with
       | Returns d' =>
           (200,
            BValid (js "Session is valid and ready for automation")
              (if d' YourProfile then js "Your profile"
               else js "Facebook User")
              (get (cookie "c_user" "100001") (js "value")))
       | Throws e =>
           (500, BError (js "Validation failed: " ++ error_message e))
       end
     else
       (401,
        BError (js "Invalid session - unable to login with provided cookies"))]
  /\ navigations (log final) = 1%nat
  /\ released (log final) = 1%nat.
Proof.
  apply (validate_verdict logged_out validate_request (elements session)
           (cookie "c_user" "100001"))
    with (d5 := fun _ => false) (d := fun _ => false);
    try reflexivity.
  - split; [reflexivity|]. split.
    + exists [], [cookie "xs" "secret"; cookie "datr" "x"].
      repeat split. constructor.
    + exists (cookie "xs" "secret").
      exists [cookie "c_user" "100001"], [cookie "datr" "x"].
      repeat split. repeat constructor. discriminate.
  - intros n _. eexists. reflexivity.
Defined.

Lemma validate_call_failure_witness :
  let final := run validate no_page validate_request in
  responses (log final) =
    [(500, BError (js "Validation failed: " ++
                   error_message
                     {| error_message := js "Protocol error: Target closed" |}))] /\
  released (log final) = (if Nat.eqb 1 0 then 0 else 1)%nat /\
  acquired (log final) = (if Nat.eqb 1 0 then 0 else 1)%nat.
Proof.
  apply (validate_call_failure no_page validate_request (elements session)
           (cookie "c_user" "100001")).
  - split; [reflexivity|]. split.
    + exists [], [cookie "xs" "secret"; cookie "datr" "x"].
      repeat split. constructor.
    + exists (cookie "xs" "secret").
      exists [cookie "c_user" "100001"], [cookie "datr" "x"].
      repeat split. repeat constructor. discriminate.
  - lia.
  - split; [reflexivity|]. intros j Hj. assert (j = 0%nat) as -> by lia.
    eexists. reflexivity.
Defined.

(** What [find] returns, when it is an entry, is the first entry with the
    name. *)
Lemma find_named_sound (name : jsstring) (cookies : list JsVal) (c : JsVal)
  (st st' : State) :
  find_named name cookies st = (Normal c, st') -> truthy c = true ->
  first_named name cookies c.
Proof.
  revert st st'. induction cookies as [|x cookies IH]; intros st st' E Hc.
  - injection E as <- _. discriminate Hc.
  - cbn [find_named] in E.
    assert (Hx : nullish x = false) by (destruct x; try reflexivity; discriminate E).
    destruct (is_string (get x (js "name")) name) eqn:Hname.
    + assert (c = x) as ->.
      { destruct x; try discriminate Hx; injection E as <- _; reflexivity. }
      exists [], cookies. repeat split; [constructor|].
      unfold is_string in Hname.
      destruct (get x (js "name")); try discriminate Hname.
      apply code_eqb_eq in Hname. now subst.
    + assert (E' : find_named name cookies st = (Normal c, st'))
        by (destruct x; try discriminate Hx; exact E).
      destruct (IH st st' E' Hc) as (before & after & -> & Hb & Hn).
      exists (x :: before), after. repeat split; [|exact Hn].
      constructor; [|exact Hb]. split; [exact Hx|].
      intros Heq. rewrite Heq in Hname. simpl in Hname.
      assert (code_eqb name name = true) by now apply code_eqb_eq.
      congruence.
Qed.

(** What led to the answer of a run of [/api/validate]. *)
Lemma validate_answer_cases (w : World) (body : JsVal) (s : Z) (b : Body) :
  responses (log (run validate w body)) = [(s, b)] ->
  (s = 500 /\ nullish body = true) \/
  (s = 400 /\
   b = BError (js "Invalid AppState format. Must be an array of cookies.") /\
   nullish body = false /\ isArray (get body (js "appstate")) = false) \/
  (s = 500 /\ isArray (get body (js "appstate")) = true /\
   forall cookies c_user, ~ validated body cookies c_user) \/
  (s = 400 /\ b = BError (js "Missing required cookies: c_user or xs") /\
   isArray (get body (js "appstate")) = true) \/
  (exists cookies c_user,
     validated body cookies c_user /\
     (s = 500 \/ s = 401 \/
      s = 200 /\
      exists d d',
        sets_up w /\ (exists d5, outcome w 5 = Returns d5) /\
        outcome w 6 = Returns d /\ landmark d = true /\
        outcome w 7 = Returns d' /\
        b = BValid (js "Session is valid and ready for automation")
              (if d' YourProfile then js "Your profile"
               else js "Facebook User")
              (get c_user (js "value")))).
Proof.
  rewrite validate_run. unfold validate_try. unfold bind at 1.
  destruct body as [| | | | | |props] eqn:Eb;
    try (cbn [destructure throw]; rewrite close_browser_off by reflexivity;
         intros [= <- <-]; solve [auto 10]);
    try (cbn [destructure ret get truthy isArray negb orb];
         rewrite close_browser_off by reflexivity;
         intros [= <- <-]; right; left; solve [auto 10]).
  cbn [destructure ret]. rewrite <- Eb.
  assert (Hb : nullish body = false) by now rewrite Eb.
  destruct (get body (js "appstate")) as [| | | | |cookies|] eqn:Happ;
    try (cbn [truthy isArray negb orb];
         rewrite ?orb_true_r, close_browser_off by reflexivity;
         intros [= <- <-]; right; left; solve [auto 10]).
  cbn [truthy isArray negb orb elements]. unfold bind at 1.
  pose proof (find_named_state (js "c_user") cookies start) as S1.
  destruct (find_named (js "c_user") cookies start) as [[c_user|e] st1] eqn:F1;
    simpl in S1; subst st1.
  2:{ rewrite close_browser_off by reflexivity. intros [= <- <-].
      right; right; left. split; [reflexivity|]. split; [reflexivity|].
      intros cookies' c' (Happ' & Hfirst & _).
      assert (cookies' = cookies) as -> by congruence.
      destruct (find_named_first _ _ _ start Hfirst) as [F _]. congruence. }
  unfold bind at 1.
  pose proof (find_named_state (js "xs") cookies start) as S2.
  destruct (find_named (js "xs") cookies start) as [[xs|e] st1] eqn:F2;
    simpl in S2; subst st1.
  2:{ rewrite close_browser_off by reflexivity. intros [= <- <-].
      right; right; left. split; [reflexivity|]. split; [reflexivity|].
      intros cookies' c' (Happ' & _ & xs' & Hfirst).
      assert (cookies' = cookies) as -> by congruence.
      destruct (find_named_first _ _ _ start Hfirst) as [F _]. congruence. }
  destruct (truthy c_user) eqn:Tc;
    [|cbn [negb orb]; rewrite close_browser_off by reflexivity;
      intros [= <- <-]; right; right; right; left; solve [auto 10]].
  destruct (truthy xs) eqn:Tx;
    [|cbn [negb orb]; rewrite close_browser_off by reflexivity;
      intros [= <- <-]; right; right; right; left; solve [auto 10]].
  cbn [negb orb].
  assert (Hval : validated body cookies c_user).
  { split; [exact Happ|]. split.
    - exact (find_named_sound _ _ _ _ _ F1 Tc).
    - exists xs. exact (find_named_sound _ _ _ _ _ F2 Tx). }
  intros H. right; right; right; right. exists cookies, c_user.
  split; [exact Hval|]. revert H.
  destruct (sets_up_or_fails w) as [Hup | (k & e & Hk & Hf)].
  2:{ unfold check_session. cbn [elements].
      rewrite (setup_fails w cookies _ k e Hk Hf).
      do 5 (destruct k as [|k];
            [try (rewrite close_browser_off by reflexivity);
             try closing_call w; intros [= <- <-]; auto |]).
      lia. }
  rewrite (check_session_ready w cookies c_user Hup).
  unfold bind, call. cbn [calls ready].
  destruct (outcome w 5) as [d5|e5] eqn:H5.
  2:{ closing_call w; intros [= <- <-]; auto. }
  cbn [calls after_call ready].
  destruct (outcome w 6) as [d|e6] eqn:H6.
  2:{ closing_call w; intros [= <- <-]; auto. }
  destruct (landmark d) eqn:Hd.
  2:{ unfold respond. closing_call w; intros [= <- <-]; auto. }
  cbn [calls after_call ready].
  destruct (outcome w 7) as [d'|e7] eqn:H7.
  2:{ closing_call w; intros [= <- <-]; auto. }
  unfold respond.
  closing_call w; intros [= <- <-]; right; right;
    (split; [reflexivity|]); exists d, d'; eauto 10.
Qed.

(** The run of an accepted session on a page that shows a landmark. *)
Lemma validate_accepted_200 (w : World) (body : JsVal)
  (cookies : list JsVal) (c_user : JsVal) (d5 d d' : Dom) :
  validated body cookies c_user -> sets_up w ->
  outcome w 5 = Returns d5 -> outcome w 6 = Returns d -> landmark d = true ->
  outcome w 7 = Returns d' ->
  responses (log (run validate w body)) =
    [(200,
      BValid (js "Session is valid and ready for automation")
        (if d' YourProfile then js "Your profile" else js "Facebook User")
        (get c_user (js "value")))].
Proof.
  intros Hval Hup H5 H6 Hd H7.
  rewrite validate_run, (validate_try_accepted w body cookies c_user Hval),
    (check_session_ready w cookies c_user Hup).
  unfold bind, call. cbn [calls ready]. rewrite H5.
  cbn [calls after_call ready]. rewrite H6, Hd.
  cbn [calls after_call ready]. rewrite H7.
  unfold respond. closing_call w; reflexivity.
Qed.

(** [/api/validate] answers 200 exactly for a session it has seen logged
    in: [appstate] is an array in which [find] meets an entry named
    [c_user] and one named [xs]; the page is set up with these cookies and
    loaded; it shows one of the three landmarks, and can be read a second
    time.  The [userId] of the answer is the [value] of the first [c_user]
    entry. *)
Theorem validate_200_iff (w : World) (body : JsVal) (b : Body) :
  responses (log (run validate w body)) = [(200, b)] <->
  exists cookies c_user d d',
    validated body cookies c_user /\ sets_up w /\
    (exists d5, outcome w 5 = Returns d5) /\
    outcome w 6 = Returns d /\ landmark d = true /\
    outcome w 7 = Returns d' /\
    b = BValid (js "Session is valid and ready for automation")
          (if d' YourProfile then js "Your profile" else js "Facebook User")
          (get c_user (js "value")).
Proof.
  split.
  - intros H.
    destruct (validate_answer_cases w body 200 b H)
      as [[? _] | [[? _] | [[? _] | [[? _] |
          (cookies & c_user & Hval & [? | [? | (_ & d & d' & Hrest)]])]]]];
      try discriminate.
    exists cookies, c_user, d, d'. tauto.
  - intros (cookies & c_user & d & d' & Hval & Hup & [d5 H5] & H6 & Hd & H7 & ->).
    now apply (validate_accepted_200 w body cookies c_user d5 d d').
Qed.

(** Of a request with a body, the answer of [/api/validate] is the 400
    [Invalid AppState format. Must be an array of cookies.] exactly when
    [appstate] is not an array. *)
Theorem validate_400_invalid_iff (w : World) (body : JsVal) :
  nullish body = false ->
  (responses (log (run validate w body)) =
     [(400, BError (js "Invalid AppState format. Must be an array of cookies."))]
   <-> isArray (get body (js "appstate")) = false).
Proof.
  intros Hb. split.
  - intros H.
    destruct (validate_answer_cases w body _ _ H)
      as [[? _] | [(_ & _ & _ & Ha) | [[? _] | [(_ & Hmsg & _) |
          (cookies & c_user & Hval & [? | [? | (? & _)]])]]]];
      try discriminate; try exact Ha.
  - intros Ha. rewrite validate_run. unfold validate_try, bind.
    destruct body; try discriminate Hb; cbn [destructure ret];
      rewrite Ha, orb_true_r; now rewrite close_browser_off.
Qed.

Lemma validate_400_invalid_iff_witness :
  responses (log (run validate cooperative (JObj [(js "appstate", JStr (js "c_user=1"))]))) =
    [(400, BError (js "Invalid AppState format. Must be an array of cookies."))]
  <-> isArray (get (JObj [(js "appstate", JStr (js "c_user=1"))])
                 (js "appstate")) = false.
Proof.
  apply (validate_400_invalid_iff cooperative
           (JObj [(js "appstate", JStr (js "c_user=1"))])).
  reflexivity.
Defined.

(** ** A [null] among the cookies *)

Lemma find_named_null (name : jsstring) (before after : list JsVal)
  (st : State) :
  Forall (fun x => nullish x = false /\ get x (js "name") <> JStr name)
    before ->
  find_named name (before ++ JNull :: after) st =
    (Abrupt {| error_message :=
                 js "Cannot read properties of null (reading 'name')" |}, st).
Proof.
  induction 1 as [|x before [Hx Hn] _ IH]; [reflexivity|].
  cbn [app find_named].
  destruct x; try discriminate Hx; try exact IH;
    rewrite (is_string_false _ _ Hn); exact IH.
Qed.

Lemma find_named_null_or_found (name : jsstring) (before after : list JsVal)
  (st : State) :
  Forall (fun x => nullish x = false) before ->
  find_named name (before ++ JNull :: after) st =
    (Abrupt {| error_message :=
                 js "Cannot read properties of null (reading 'name')" |}, st)
  \/ exists c,
       find_named name (before ++ JNull :: after) st = (Normal c, st) /\
       truthy c = true.
Proof.
  induction 1 as [|x before Hx _ IH]; [left; reflexivity|].
  cbn [app find_named].
  destruct x as [| |b|z|s|elems|props]; try discriminate Hx;
    cbn [get is_string]; try exact IH.
  destruct (is_string (own_property (js "name") props) name);
    [right; exists (JObj props); split; reflexivity | exact IH].
Qed.

(** [/api/validate] reads the [name] of the entries of [appstate] as it
    looks for [c_user] and [xs].  A [null] entry that comes before the first
    entry named [c_user], or before the first named [xs], makes [find]
    throw: the answer is a 500, not the 400 for missing cookies, and no
    browser is launched. *)
Theorem validate_null_entry_is_a_500 (w : World) (body : JsVal)
  (name : jsstring) (before after : list JsVal) :
  get body (js "appstate") = JArr (before ++ JNull :: after) ->
  name = js "c_user" \/ name = js "xs" ->
  Forall (fun x => nullish x = false /\ get x (js "name") <> JStr name)
    before ->
  run validate w body =
    record
      (Responded 500
         (BError (js "Validation failed: Cannot read properties of null (reading 'name')")))
      start.
Proof.
  intros Happ Hname Hbefore.
  rewrite validate_run. unfold validate_try, bind.
  destruct body; try discriminate Happ. cbn [destructure ret].
  rewrite Happ. cbn [truthy isArray negb orb elements].
  destruct Hname as [-> | ->].
  - rewrite (find_named_null _ _ _ _ Hbefore).
    now rewrite close_browser_off.
  - assert (Hnn : Forall (fun x => nullish x = false) before).
    { eapply Forall_impl; [|exact Hbefore]. now intros x [Hx _]. }
    destruct (find_named_null_or_found (js "c_user") before after start Hnn)
      as [-> | (c & -> & _)].
    + now rewrite close_browser_off.
    + rewrite (find_named_null _ _ _ _ Hbefore).
      now rewrite close_browser_off.
Qed.

Lemma validate_null_entry_is_a_500_witness :
  run validate cooperative
    (JObj [(js "appstate", JArr [cookie "c_user" "100001"; JNull;
                                 cookie "xs" "secret"])]) =
    record
      (Responded 500
         (BError (js "Validation failed: Cannot read properties of null (reading 'name')")))
      start.
Proof.
  apply (validate_null_entry_is_a_500 cooperative
           (JObj [(js "appstate", JArr [cookie "c_user" "100001"; JNull;
                                        cookie "xs" "secret"])])
           (js "xs") [cookie "c_user" "100001"] [cookie "xs" "secret"]).
  - reflexivity.
  - right. reflexivity.
  - repeat constructor. discriminate.
Defined.

(* ================================================================== *)
(** * What a handler never does *)

Section Keeps.

Variable I : State -> Prop.

Lemma keeps_still {A} (m : M A) : (forall st, snd (m st) = st) -> keeps I m.
Proof. intros H st HI. now rewrite H. Qed.

Lemma keeps_ret {A} (a : A) : keeps I (ret a).
Proof. now apply keeps_still. Qed.

Lemma keeps_throw {A} (msg : jsstring) : keeps I (@throw A msg).
Proof. now apply keeps_still. Qed.

(** The continuation matters only for the values the first part can
    complete with. *)
Lemma keeps_bind_normal {A B} (m : M A) (k : A -> M B) :
  keeps I m ->
  (forall a, (exists st st', m st = (Normal a, st')) -> keeps I (k a)) ->
  keeps I (bind m k).
Proof.
  intros Hm Hk st HI. unfold bind.
  pose proof (Hm st HI) as H1.
  destruct (m st) as [[a|e] st'] eqn:E; simpl in *; [|exact H1].
  apply Hk; eauto.
Qed.

Lemma keeps_bind {A B} (m : M A) (k : A -> M B) :
  keeps I m -> (forall a, keeps I (k a)) -> keeps I (bind m k).
Proof. intros Hm Hk. apply keeps_bind_normal; auto. Qed.

Lemma keeps_try_catch {A} (m : M A) (h : Error -> M A) :
  keeps I m -> (forall e, keeps I (h e)) -> keeps I (try_catch m h).
Proof.
  intros Hm Hh st HI. unfold try_catch.
  pose proof (Hm st HI) as H1.
  destruct (m st) as [[a|e] st']; simpl in *; [exact H1|].
  now apply Hh.
Qed.

Lemma keeps_finally {A} (m : M A) (f : M unit) :
  keeps I m -> keeps I f -> keeps I (finally m f).
Proof.
  intros Hm Hf st HI. rewrite finally_state. apply Hf, Hm, HI.
Qed.

Lemma keeps_if {A} (c : bool) (m1 m2 : M A) :
  keeps I m1 -> keeps I m2 -> keeps I (if c then m1 else m2).
Proof. now destruct c. Qed.

Lemma keeps_when (c : bool) (m : M unit) : keeps I m -> keeps I (when c m).
Proof. intros. apply keeps_if; auto using keeps_ret. Qed.

Lemma keeps_call_trim (name : string) (v : JsVal) : keeps I (call_trim name v).
Proof. destruct v; simpl; auto using keeps_ret, keeps_throw. Qed.

Lemma keeps_converted {A} (r : option A) : keeps I (converted r).
Proof. destruct r; [apply keeps_ret | apply keeps_throw]. Qed.

Lemma keeps_destructure (body : JsVal) : keeps I (destructure body).
Proof. apply keeps_still, destructure_state. Qed.

Lemma keeps_message_missing (message : JsVal) :
  keeps I (message_missing message).
Proof. apply keeps_still, message_missing_state. Qed.

Lemma keeps_find_named (w : World) (name : jsstring) (l : list JsVal) :
  keeps I (find_named name l).
Proof. apply keeps_still, find_named_state. Qed.

Lemma keeps_now (w : World) : keeps I (now w).
Proof. now apply keeps_still. Qed.

End Keeps.

Section Logged.

Variables (P : Event -> Prop) (Q : AttemptRecord -> Prop) (w : World).

Let I := logged P Q.

Lemma logged_record (ev : Event) (st : State) :
  P ev -> I st -> I (record ev st).
Proof.
  intros Hev [HL HR]. split; [|exact HR].
  simpl. apply Forall_app. auto.
Qed.

Lemma keeps_call (c : Call) : (forall b, P (Called c b)) -> keeps I (call w c).
Proof.
  intros H st [HL HR]. unfold call.
  destruct (outcome w (calls st)); simpl; (split; [|exact HR]);
    simpl; apply Forall_app; auto.
Qed.

Lemma keeps_waitForTimeout (ms : JsNum) :
  P (Waited ms) -> keeps I (waitForTimeout ms).
Proof. intros H st HI. now apply logged_record. Qed.

Lemma keeps_respond (s : Z) (b : Body) :
  P (Responded s b) -> keeps I (respond s b).
Proof. intros H st HI. now apply logged_record. Qed.

Lemma keeps_push (r : AttemptRecord) : Q r -> keeps I (push r).
Proof.
  intros H st [HL HR]. split; [exact HL|].
  simpl. apply Forall_app. auto.
Qed.

Lemma keeps_launch : (forall b, P (Called Launch b)) -> keeps I (launch w).
Proof.
  intros H. unfold launch. apply keeps_bind; [now apply keeps_call|].
  intros _ st HI. exact HI.
Qed.

Lemma keeps_close_browser :
  (forall b, P (Called Close b)) -> keeps I (close_browser w).
Proof.
  intros H st HI. unfold close_browser. destruct (browser st); [|exact HI].
  apply keeps_bind; [now apply keeps_call | intros; apply keeps_ret | exact HI].
Qed.

Lemma keeps_open_page (cookies : list JsVal) :
  (forall b, P (Called NewPage b)) ->
  (forall b width height, P (Called (SetViewport width height) b)) ->
  (forall b ua, P (Called (SetUserAgent ua) b)) ->
  (forall b, P (Called (SetCookie cookies) b)) ->
  keeps I (open_page w cookies).
Proof.
  intros. unfold open_page.
  repeat (apply keeps_bind; [apply keeps_call; auto | intros _]).
  apply keeps_ret.
Qed.

End Logged.

(** [/api/validate] only looks: in no run does it click, type or wait. *)
Theorem validate_only_looks (w : World) (body : JsVal) :
  Forall passive (log (run validate w body)).
Proof.
  assert (H : keeps (logged passive (fun _ => True)) (validate w body)).
  { unfold validate. apply keeps_finally;
      [|apply keeps_close_browser; intros; exact Logic.I].
    apply keeps_try_catch;
      [|intros e; apply keeps_respond; exact Logic.I].
    unfold validate_try.
    apply keeps_bind; [apply keeps_destructure | intros _].
    apply keeps_if; [apply keeps_respond; exact Logic.I|].
    apply keeps_bind; [now apply keeps_find_named | intros c_user].
    apply keeps_bind; [now apply keeps_find_named | intros xs].
    apply keeps_if; [apply keeps_respond; exact Logic.I|].
    unfold check_session.
    apply keeps_bind; [apply keeps_launch; intros; exact Logic.I | intros _].
    apply keeps_bind;
      [apply keeps_open_page; intros; exact Logic.I | intros _].
    apply keeps_bind; [apply keeps_call; intros; exact Logic.I | intros _].
    apply keeps_bind; [apply keeps_call; intros; exact Logic.I | intros d].
    apply keeps_if; [|apply keeps_respond; exact Logic.I].
    apply keeps_bind; [apply keeps_call; intros; exact Logic.I | intros d'].
    apply keeps_respond; exact Logic.I. }
  apply (H start). split; constructor.
Qed.

(** ** The events and records of a run of [/api/share] *)

Section KeepsShare.

Variables (P : Event -> Prop) (Q : AttemptRecord -> Prop).
Variables (w : World) (message link : JsVal).

Hypothesis P_other : forall c b, input_call c = false -> P (Called c b).
Hypothesis P_waited : forall ms, P (Waited ms).
Hypothesis P_responded : forall s b, P (Responded s b).
Hypothesis P_composer : forall b, P (Called (Click CreateAPost) b).
Hypothesis P_message : forall b, P (Called (KeyboardType message) b).
Hypothesis P_attach :
  (exists st st', link_given link st = (Normal true, st')) ->
  forall b, P (Called (Click AddToYourPost) b) /\
            P (Called (KeyboardType link) b).
Hypothesis P_submit :
  (exists a st st', link_given link st = (Normal a, st')) ->
  forall b, P (Called (Click Post) b).
Hypothesis Q_failure : forall i msg t, Q (Failure i msg t).
Hypothesis Q_success :
  (exists a st st', link_given link st = (Normal a, st')) ->
  forall i t msg, Q (Success i t msg).

Let I := logged P Q.

Lemma keeps_link_given : keeps I (link_given link).
Proof.
  unfold link_given. apply keeps_if; [|apply keeps_ret].
  apply keeps_bind; [apply keeps_call_trim | intros; apply keeps_ret].
Qed.

Lemma link_given_still (st : State) : snd (link_given link st) = st.
Proof.
  unfold link_given. destruct (truthy link); [|reflexivity].
  now destruct link.
Qed.

Lemma keeps_compose_and_submit : keeps I (compose_and_submit w message link).
Proof.
  unfold compose_and_submit.
  apply keeps_bind; [now apply keeps_call; auto | intros _].
  apply keeps_bind; [now apply keeps_waitForTimeout | intros _].
  apply keeps_bind; [now apply keeps_call; auto | intros d].
  apply keeps_if; [apply keeps_throw|].
  apply keeps_bind; [now apply keeps_call | intros _].
  apply keeps_bind; [now apply keeps_waitForTimeout | intros _].
  apply keeps_bind; [now apply keeps_call | intros _].
  apply keeps_bind; [now apply keeps_waitForTimeout | intros _].
  apply keeps_bind_normal; [apply keeps_link_given | intros attach Hattach].
  apply keeps_bind.
  - destruct attach; [|apply keeps_ret]. cbn [when].
    assert (Hb : forall b, P (Called (Click AddToYourPost) b) /\
                           P (Called (KeyboardType link) b))
      by (apply P_attach; exact Hattach).
    apply keeps_bind; [apply keeps_call; intros b; apply Hb | intros _].
    apply keeps_bind; [now apply keeps_waitForTimeout | intros _].
    apply keeps_bind; [apply keeps_call; intros b; apply Hb | intros _].
    now apply keeps_waitForTimeout.
  - intros _.
    apply keeps_bind; [|intros _; now apply keeps_waitForTimeout].
    apply keeps_call. apply P_submit. eauto.
Qed.

(** The steps complete only if the link condition was computed. *)
Lemma compose_and_submit_normal (st st' : State) :
  compose_and_submit w message link st = (Normal tt, st') ->
  exists a st1 st2, link_given link st1 = (Normal a, st2).
Proof.
  unfold compose_and_submit, bind, call, waitForTimeout, throw, when, ret.
  destruct (outcome w (calls st)) as [d0|]; [|discriminate].
  cbn [calls record after_call].
  destruct (outcome w _) as [d1|]; [|discriminate].
  destruct (negb (d1 CreateAPost)); [discriminate|].
  cbn [calls record after_call].
  destruct (outcome w _); [|discriminate].
  cbn [calls record after_call].
  destruct (outcome w _); [|discriminate].
  destruct (link_given link _) as [[a|e] st2] eqn:E; [|discriminate].
  eauto.
Qed.

Section KeepsLoop.

Variables (shareCount shareDelay : JsNum).

Lemma keeps_delay_before_next (i : Z) :
  keeps I (delay_before_next shareCount shareDelay i).
Proof.
  unfold delay_before_next. apply keeps_when. now apply keeps_waitForTimeout.
Qed.

Lemma keeps_attempt (i : Z) :
  keeps I (attempt w message link shareCount shareDelay i).
Proof.
  unfold attempt. apply keeps_try_catch.
  - apply keeps_bind; [|intros _; apply keeps_delay_before_next].
    unfold attempt_steps.
    apply keeps_bind_normal; [apply keeps_compose_and_submit|].
    intros [] (st & st' & Hnormal).
    unfold verify_published.
    apply keeps_bind; [now apply keeps_call; auto | intros d].
    apply keeps_if; [|apply keeps_throw].
    apply keeps_bind; [apply keeps_now | intros t].
    apply keeps_push. apply Q_success.
    apply (compose_and_submit_normal st st' Hnormal).
  - intros e. unfold record_failure.
    apply keeps_bind; [apply keeps_now | intros t].
    apply keeps_bind; [now apply keeps_push | intros _].
    apply keeps_delay_before_next.
Qed.

Lemma keeps_for_loop (fuel : nat) (i : Z) :
  keeps I (for_loop w message link shareCount shareDelay fuel i).
Proof.
  revert i. induction fuel as [|fuel IH]; intros i; cbn [for_loop];
    (apply keeps_if; [|apply keeps_ret]); [apply keeps_ret|].
  apply keeps_bind; [apply keeps_attempt | intros _; apply IH].
Qed.

Lemma keeps_post_all (appstate : JsVal) :
  keeps I (post_all w appstate message link shareCount shareDelay).
Proof.
  unfold post_all.
  apply keeps_bind; [apply keeps_launch; auto | intros _].
  apply keeps_bind; [apply keeps_open_page; auto | intros _].
  apply keeps_bind; [apply keeps_for_loop | intros _].
  intros st HI. now apply logged_record.
Qed.

End KeepsLoop.

Variable body : JsVal.

Hypothesis Hmessage : message = get body (js "message").
Hypothesis Hlink : link = get body (js "link").

Lemma keeps_share : keeps I (share w body).
Proof.
  unfold share. apply keeps_finally; [|apply keeps_close_browser; auto].
  apply keeps_try_catch; [|intros e; now apply keeps_respond].
  unfold share_try.
  apply keeps_bind; [apply keeps_destructure | intros _].
  apply keeps_if; [now apply keeps_respond|].
  apply keeps_bind; [apply keeps_message_missing | intros missing].
  apply keeps_if; [now apply keeps_respond|].
  apply keeps_bind; [apply keeps_converted | intros shareCount].
  apply keeps_bind; [apply keeps_converted | intros shareDelay].
  rewrite <- Hmessage, <- Hlink. apply keeps_post_all.
Qed.

Lemma logged_share : I (run share w body).
Proof. apply (keeps_share start). split; constructor. Qed.

End KeepsShare.

Lemma link_given_no_link (link : JsVal) (st : State) :
  no_link link -> link_given link st = (Normal false, st).
Proof.
  unfold link_given. intros [H | (s & -> & H)].
  - now rewrite H.
  - destruct s as [|c s]; [reflexivity|].
    cbn [truthy call_trim]. unfold bind, ret. now rewrite H.
Qed.

Lemma link_given_not_a_string (link : JsVal) (st : State) :
  truthy link = true -> (forall s, link <> JStr s) ->
  link_given link st =
    (Abrupt {| error_message := js "link.trim is not a function" |}, st).
Proof.
  unfold link_given. intros -> Hnot.
  destruct link; try reflexivity. now contradiction (Hnot s).
Qed.

(** Whatever the request and the browser, [/api/share] types nothing into
    the page but the request's [message] and [link], as they were sent.
    When there is no link to attach ([link] is falsy or a string of white
    space), only [message] is typed and [Add to your post] is never
    clicked. *)
Theorem share_types_what_was_sent (w : World) (body : JsVal) :
  let message := get body (js "message") in
  let link := get body (js "link") in
  let l := log (run share w body) in
  Forall (types_only [message; link]) l /\
  (no_link link ->
   Forall (types_only [message]) l /\ Forall (never_clicks AddToYourPost) l).
Proof.
  intros message link l. split.
  - apply (logged_share (types_only [message; link]) (fun _ => True)
             w message link); try reflexivity; try (intros; exact Logic.I).
    + intros c b Hc. destruct c; try discriminate Hc; exact Logic.I.
    + intros b. left. reflexivity.
    + intros _ b. split; [exact Logic.I | right; left; reflexivity].
  - intros Hno.
    assert (H : logged (fun ev => types_only [message] ev /\
                                  never_clicks AddToYourPost ev)
                  (fun _ => True) (run share w body)).
    { apply (logged_share _ _ w message link); try reflexivity;
        try (intros; exact Logic.I); try (intros; split; exact Logic.I).
      - intros c b Hc. destruct c; try discriminate Hc; split; exact Logic.I.
      - intros b. split; [exact Logic.I | discriminate].
      - intros b. split; [left; reflexivity | exact Logic.I].
      - intros (st & st' & E). rewrite (link_given_no_link link st Hno) in E.
        discriminate E.
      - intros _ b. split; [exact Logic.I | discriminate]. }
    destruct H as [H _]. apply Forall_and_inv in H. exact H.
Qed.

(** A [link] that is truthy but not a string (a number, [true], an object,
    an array) has no [trim]: every attempt then fails before the post is
    submitted.  In no run is [Post] clicked, and no record is a success.
    An attempt that got as far as typing the message fails with the
    engine's message. *)
Theorem share_link_not_a_string (w : World) (body : JsVal) :
  let message := get body (js "message") in
  let link := get body (js "link") in
  truthy link = true -> (forall s, link <> JStr s) ->
  Forall (never_clicks Post) (log (run share w body)) /\
  Forall (fun r => success r = false) (results (run share w body)) /\
  forall sc sd i st d0 d1 d2 d3,
    outcome w (calls st) = Returns d0 ->
    outcome w (S (calls st)) = Returns d1 -> d1 CreateAPost = true ->
    outcome w (S (S (calls st))) = Returns d2 ->
    outcome w (S (S (S (calls st)))) = Returns d3 ->
    exists st' t,
      attempt w message link sc sd i st = (Normal tt, st') /\
      results st' =
        results st ++
        [Failure (i + 1) (js "link.trim is not a function") t].
Proof.
  intros message link Ht Hnot.
  assert (Hnever : forall a st st', link_given link st <> (Normal a, st')).
  { intros a st st'. now rewrite (link_given_not_a_string link st Ht Hnot). }
  assert (H : logged (never_clicks Post) (fun r => success r = false)
                (run share w body)).
  { apply (logged_share _ _ w message link); try reflexivity;
      try (intros; exact Logic.I).
    - intros c b Hc. destruct c; try discriminate Hc; exact Logic.I.
    - intros b. discriminate.
    - intros _ b. split; [discriminate | exact Logic.I].
    - intros (a & st & st' & E). now contradiction (Hnever a st st').
    - intros (a & st & st' & E). now contradiction (Hnever a st st'). }
  destruct H as [HP HQ]. split; [exact HP|]. split; [exact HQ|].
  intros sc sd i st d0 d1 d2 d3 H0 H1 Hd H2 H3.
  set (st1 := record (Waited (Num 1000))
                (after_call (KeyboardType message) true
                   (record (Waited (Num 1000))
                      (after_call (Click CreateAPost) true
                         (after_call Evaluate true
                            (record (Waited (Num 2000))
                               (after_call (Goto home) true st))))))).
  destruct (attempt_catches w message link sc sd i st st1
              {| error_message := js "link.trim is not a function" |})
    as (st' & E & R).
  { unfold attempt_steps, compose_and_submit, bind, call, waitForTimeout.
    rewrite H0. cbn [calls record after_call]. rewrite H1, Hd.
    cbn [negb calls record after_call]. rewrite H2.
    cbn [calls record after_call]. rewrite H3.
    now rewrite (link_given_not_a_string link _ Ht Hnot). }
  exists st', (time_at w st1). auto.
Qed.

Lemma share_link_not_a_string_witness :
  let body :=
    JObj [(js "appstate", session); (js "message", JStr (js "hello"));
          (js "link", JNum 7)] in
  let message := get body (js "message") in
  let link := get body (js "link") in
  Forall (never_clicks Post) (log (run share stuck_composer body)) /\
  Forall (fun r => success r = false) (results (run share stuck_composer body)) /\
  forall sc sd i st d0 d1 d2 d3,
    outcome stuck_composer (calls st) = Returns d0 ->
    outcome stuck_composer (S (calls st)) = Returns d1 ->
    d1 CreateAPost = true ->
    outcome stuck_composer (S (S (calls st))) = Returns d2 ->
    outcome stuck_composer (S (S (S (calls st)))) = Returns d3 ->
    exists st' t,
      attempt stuck_composer message link sc sd i st = (Normal tt, st') /\
      results st' =
        results st ++
        [Failure (i + 1) (js "link.trim is not a function") t].
Proof.
  apply (share_link_not_a_string stuck_composer
           (JObj [(js "appstate", session); (js "message", JStr (js "hello"));
                  (js "link", JNum 7)]));
    [reflexivity | discriminate].
Defined.

(* ================================================================== *)
(** * /api/share: a run in which every post goes through *)

Lemma link_given_attached (link : JsVal) (attach : bool) (st : State) :
  link_attached link attach -> link_given link st = (Normal attach, st).
Proof.
  destruct attach; cbn [link_attached].
  - intros (s & -> & H). unfold link_given.
    destruct s as [|c s]; [now contradiction H|].
    cbn [truthy call_trim]. unfold bind, ret.
    destruct (trim (c :: s)); [now contradiction H | reflexivity].
  - apply link_given_no_link.
Qed.

Section Happy.

Variables (w : World) (message link : JsVal) (attach : bool) (c d : Z).

Hypothesis Hlink : link_attached link attach.

Let per := calls_per_attempt attach.

(** One attempt, from a state whose next [per] calls return with the
    composer button there at the login check and gone at the end. *)
Lemma attempt_succeeds (i : Z) (st : State) :
  (forall j, (j < per)%nat ->
     exists dom,
       outcome w (calls st + j) = Returns dom /\
       (j = 1%nat -> dom CreateAPost = true) /\
       (S j = per -> dom CreateAPost = false)) ->
  exists st' r,
    attempt w message link (Num c) (Num d) i st = (Normal tt, st') /\
    log st' = log st ++ attempt_events message link attach ++ pause c d i /\
    results st' = results st ++ [r] /\ published i r /\
    calls st' = (calls st + per)%nat /\ browser st' = browser st.
Proof.
  intros H.
  assert (Hat : forall j, (j < per)%nat ->
            exists dom, outcome w (j + calls st) = Returns dom /\
                        (j = 1%nat -> dom CreateAPost = true) /\
                        (S j = per -> dom CreateAPost = false)).
  { intros j Hj. rewrite Nat.add_comm. auto. }
  clear H.
  unfold attempt, attempt_steps, compose_and_submit, verify_published,
    delay_before_next, try_catch, bind, call, waitForTimeout, when, push,
    now, ret, pause.
  subst per. destruct attach; cbn [calls_per_attempt] in Hat.
  - destruct (Hat 0%nat) as (d0 & H0 & _); [lia|].
    destruct (Hat 1%nat) as (d1 & H1 & Hd1 & _); [lia|].
    destruct (Hat 2%nat) as (d2 & H2 & _); [lia|].
    destruct (Hat 3%nat) as (d3 & H3 & _); [lia|].
    destruct (Hat 4%nat) as (d4 & H4 & _); [lia|].
    destruct (Hat 5%nat) as (d5 & H5 & _); [lia|].
    destruct (Hat 6%nat) as (d6 & H6 & _); [lia|].
    destruct (Hat 7%nat) as (d7 & H7 & _ & Hd7); [lia|].
    cbn [Nat.add] in *.
    rewrite H0. cbn [calls record after_call]. rewrite H1, Hd1 by reflexivity.
    cbn [negb calls record after_call]. rewrite H2.
    cbn [calls record after_call]. rewrite H3.
    rewrite (link_given_attached link true _ Hlink).
    cbn [calls record after_call]. rewrite H4.
    cbn [calls record after_call]. rewrite H5.
    cbn [calls record after_call]. rewrite H6.
    cbn [calls record after_call]. rewrite H7, Hd7 by reflexivity.
    cbn [negb js_lt js_sub js_mul].
    destruct (i <? c - 1); cbn [fst snd];
      eexists _, _; (split; [reflexivity|]);
      cbn [log results calls browser record pushed after_call];
      rewrite <- ?app_assoc; cbn [app attempt_events];
      (split; [reflexivity|]); (split; [reflexivity|]);
      (split; [eexists; reflexivity|]);
      (split; [cbn [calls_per_attempt]; lia | reflexivity]).
  - destruct (Hat 0%nat) as (d0 & H0 & _); [lia|].
    destruct (Hat 1%nat) as (d1 & H1 & Hd1 & _); [lia|].
    destruct (Hat 2%nat) as (d2 & H2 & _); [lia|].
    destruct (Hat 3%nat) as (d3 & H3 & _); [lia|].
    destruct (Hat 4%nat) as (d4 & H4 & _); [lia|].
    destruct (Hat 5%nat) as (d5 & H5 & _ & Hd5); [lia|].
    cbn [Nat.add] in *.
    rewrite H0. cbn [calls record after_call]. rewrite H1, Hd1 by reflexivity.
    cbn [negb calls record after_call]. rewrite H2.
    cbn [calls record after_call]. rewrite H3.
    rewrite (link_given_attached link false _ Hlink).
    cbn [calls record after_call]. rewrite H4.
    cbn [calls record after_call]. rewrite H5, Hd5 by reflexivity.
    cbn [negb js_lt js_sub js_mul].
    destruct (i <? c - 1); cbn [fst snd];
      eexists _, _; (split; [reflexivity|]);
      cbn [log results calls browser record pushed after_call];
      rewrite <- ?app_assoc; cbn [app attempt_events];
      (split; [reflexivity|]); (split; [reflexivity|]);
      (split; [eexists; reflexivity|]);
      (split; [cbn [calls_per_attempt]; lia | reflexivity]).
Qed.

(** The loop from attempt [k + 1] on, [fuel] attempts to go. *)
Lemma for_loop_succeeds (fuel k : nat) (st : State) :
  Z.of_nat k + Z.of_nat fuel = c ->
  calls st = (5 + per * k)%nat ->
  lets_through w attach (k + fuel) ->
  exists st' rs,
    for_loop w message link (Num c) (Num d) fuel (Z.of_nat k) st
      = (Normal tt, st') /\
    log st' =
      log st ++
      flat_map (fun i => attempt_events message link attach ++ pause c d i)
        (count_from (Z.of_nat k) fuel) /\
    results st' = results st ++ rs /\
    Forall2 published (count_from (Z.of_nat k) fuel) rs /\
    browser st' = browser st.
Proof.
  revert k st. induction fuel as [|fuel IH]; intros k st Hc Hcalls Hw.
  - exists st, []. cbn [for_loop count_from flat_map].
    rewrite !app_nil_r.
    split; [now destruct (js_lt (Num (Z.of_nat k)) (Num c))|].
    repeat split. constructor.
  - cbn [for_loop js_lt].
    replace (Z.of_nat k <? c) with true by (symmetry; apply Z.ltb_lt; lia).
    destruct (attempt_succeeds (Z.of_nat k) st)
      as (st1 & r & E1 & L1 & R1 & Hr & C1 & B1).
    { intros j Hj. rewrite Hcalls. apply (proj2 Hw); [lia | exact Hj]. }
    destruct (IH (S k) st1) as (st2 & rs & E2 & L2 & R2 & Hrs & B2).
    { lia. }
    { rewrite C1, Hcalls. rewrite Nat.mul_succ_r. lia. }
    { replace (S k + fuel)%nat with (k + S fuel)%nat by lia. exact Hw. }
    replace (Z.of_nat (S k)) with (Z.of_nat k + 1) in * by lia.
    exists st2, (r :: rs). unfold bind. rewrite E1, E2.
    split; [reflexivity|]. cbn [count_from flat_map].
    split; [rewrite L2, L1, <- !app_assoc; reflexivity|].
    split; [rewrite R2, R1, <- app_assoc; reflexivity|].
    split; [constructor; assumption | congruence].
Qed.

End Happy.

Lemma published_all (l : list Z) (rs : list AttemptRecord) :
  Forall2 published l rs ->
  filter (fun r => success r) rs = rs /\
  filter (fun r => negb (success r)) rs = [] /\
  length rs = length l.
Proof.
  induction 1 as [|i r l rs [t ->] _ (IH1 & IH2 & IH3)]; [repeat split|].
  cbn [filter success negb length]. rewrite IH1, IH2, IH3. repeat split.
Qed.

(** The summary of a run in which every post was published. *)
Lemma summarize_published (c : Z) (l : list Z) (rs : list AttemptRecord) :
  1 <= c <= 10 -> length l = Z.to_nat c -> Forall2 published l rs ->
  summarize (Num c) rs =
    {| total := Num c; successful := c; failed := 0;
       successRate := 100%float |}.
Proof.
  intros Hc Hl H. destruct (published_all l rs H) as (H1 & H2 & H3).
  unfold summarize. rewrite H1, H2, H3, Hl, Z2Nat.id by lia.
  cbn [to_float length Z.of_nat]. rewrite successRate_exact by lia.
  f_equal.
  assert (Ec : c = 1 \/ c = 2 \/ c = 3 \/ c = 4 \/ c = 5 \/
               c = 6 \/ c = 7 \/ c = 8 \/ c = 9 \/ c = 10) by lia.
  repeat (destruct Ec as [-> | Ec]); try subst c; reflexivity.
Qed.

(** When the request is accepted, [parseInt] reads the numbers [c] and [d]
    from [count] and [delay], clamped, and the browser lets every post
    through, the run is, call by call: the setup; for each of the [c] posts the
    navigation, the login check, the composer, the message, the link if one
    is attached, the submission and the check that the composer is gone, in
    this order and with the waits of 2 s, 1 s and 5 s between them; the
    delay of [d] seconds after each post but the last; the 200; the release
    of the browser.  Every record is a success and the summary reports [c]
    of [c], a rate of 100. *)
Theorem share_all_posts_go_through (w : World) (body : JsVal)
  (cookies : list JsVal) (text : jsstring) (attach : bool) (c d : Z) :
  accepted body cookies text ->
  link_attached (get body (js "link")) attach ->
  shareCount_in body = Some (Num c) -> shareDelay_in body = Some (Num d) ->
  lets_through w attach (Z.to_nat c) ->
  exists rs ok,
    log (run share w body) =
      log (ready cookies) ++
      flat_map
        (fun i =>
           attempt_events (JStr text) (get body (js "link")) attach ++
           pause c d i)
        (count_from 0 (Z.to_nat c)) ++
      [Responded 200
         (BShared rs {| total := Num c; successful := c; failed := 0;
                        successRate := 100%float |});
       Called Close ok] /\
    Forall2 published (count_from 0 (Z.to_nat c)) rs.
Proof.
  intros (Happ & Hmsg & Htrim) Hlink Hc Hd Hw.
  pose proof (shareCount_range _ _ Hc) as Hrange.
  rewrite share_run,
    (share_try_accepted w body cookies text (Num c) (Num d)
       Happ Hmsg Htrim Hc Hd).
  rewrite (post_all_ready w cookies _ _ _ _ (proj1 Hw)).
  cbn [iterations]. unfold bind at 1.
  destruct (for_loop_succeeds w (JStr text) (get body (js "link")) attach c d
              Hlink (Z.to_nat c) 0 (ready cookies))
    as (st' & rs & E & L & R & Hrs & B).
  { cbn [Z.of_nat]. lia. }
  { cbn [calls ready]. lia. }
  { exact Hw. }
  cbn [Z.of_nat] in E, L, Hrs. rewrite E. cbn [respond].
  set (st := record _ st').
  destruct (close_browser_on w st) as [ok Hclose].
  { unfold st. cbn [browser record]. now rewrite B. }
  exists rs, ok. split; [|exact Hrs].
  rewrite Hclose. unfold st. cbn [log record after_call].
  rewrite L, R. cbn [results ready app].
  rewrite (summarize_published c _ rs Hrange (count_from_length _ _) Hrs).
  rewrite <- !app_assoc. reflexivity.
Qed.

Lemma share_all_posts_go_through_witness :
  let body := timed_request (JNum 3) (JNum 5) in
  exists rs ok,
    log (run share cooperative body) =
      log (ready (elements session)) ++
      flat_map
        (fun i =>
           attempt_events (JStr (js "hello")) (get body (js "link")) false ++
           pause 3 5 i)
        (count_from 0 (Z.to_nat 3)) ++
      [Responded 200
         (BShared rs {| total := Num 3; successful := 3; failed := 0;
                        successRate := 100%float |});
       Called Close ok] /\
    Forall2 published (count_from 0 (Z.to_nat 3)) rs.
Proof.
  apply (share_all_posts_go_through cooperative
           (timed_request (JNum 3) (JNum 5)) (elements session) (js "hello")
           false 3 5).
  - repeat split. discriminate.
  - left. reflexivity.
  - reflexivity.
  - reflexivity.
  - split.
    + intros n _. eexists. reflexivity.
    + intros k j Hk Hj. eexists. split; [reflexivity|].
      cbn [calls_per_attempt] in *.
      assert (Hmod : ((5 + 6 * k + j - 5) mod 6 = j)%nat).
      { replace (5 + 6 * k + j - 5)%nat with (j + k * 6)%nat by lia.
        rewrite Nat.Div0.mod_add. apply Nat.mod_small. exact Hj. }
      rewrite Hmod. split.
      * intros ->. reflexivity.
      * intros Hlast. assert (j = 5%nat) as -> by lia. reflexivity.
Defined.

(* ================================================================== *)
(** * /api/share: the delay between attempts *)

Section Delays.

Variables (w : World) (message link : JsVal) (c d : Z).

(** The steps up to the submission start with the navigation and do not
    navigate again. *)
Lemma compose_and_submit_trace (st : State) :
  exists ok rest,
    advance st (snd (compose_and_submit w message link st))
      (Called (Goto home) ok :: rest) [] /\
    navigations rest = O.
Proof.
  unfold compose_and_submit.
  match goal with
  | |- context [bind (call w (Goto home)) ?k] =>
      assert (Hk : forall a, quiet (k a)) by (intros a; quiet_steps);
      generalize dependent k
  end.
  intros k Hk. unfold bind at 1. unfold call.
  destruct (outcome w (calls st)) as [dom|e]; simpl.
  - destruct (Hk dom (after_call (Goto home) true st)) as (evs & H & N).
    exists true, evs. split; [|exact N].
    change (Called (Goto home) true :: evs)
      with ([Called (Goto home) true] ++ evs).
    eapply advance_trans with (rs1 := []); [|exact H].
    now apply advance_after_call.
  - exists false, []. split; [|reflexivity].
    now apply advance_after_call.
Qed.

(** When the steps up to the submission throw, the last event is the call
    that threw, the login check, or the wait before [link.trim()]. *)
Lemma compose_and_submit_abrupt (st st1 : State) (e : Error) :
  compose_and_submit w message link st = (Abrupt e, st1) ->
  exists seg,
    log st1 = log st ++ seg /\ brief (last seg (Called Evaluate true)).
Proof.
  unfold compose_and_submit, link_given, call_trim, when.
  unfold bind, call, waitForTimeout, throw, ret.
  repeat
    (match goal with
     | |- context [outcome w ?n] => destruct (outcome w n) as [?dom|?err]
     | |- context [if negb (?dom CreateAPost) then _ else _] =>
         destruct (dom CreateAPost)
     | |- context [truthy link] => destruct link as [| |[]|?z|[|? ?]|?l|?p]
     | |- context [match trim ?s with _ => _ end] => destruct (trim s)
     | |- context [negb (?z =? 0)] => destruct (z =? 0)
     end;
     cbn [calls record after_call negb truthy fst snd]);
    intros [= <- <-];
    cbn [log record after_call]; rewrite <- ?app_assoc; cbn [app];
    eexists; (split; [reflexivity|]); cbn [last brief]; auto.
Qed.

Lemma delay_pause (i : Z) (r : AttemptRecord) (st : State) :
  exists st',
    delay_before_next (Num c) (Num d) i (pushed r st) = (Normal tt, st') /\
    log st' = log st ++ pause c d i /\
    browser st' = browser st /\ results st' = results st ++ [r].
Proof.
  unfold delay_before_next, when, waitForTimeout, ret, pause.
  cbn [js_lt js_sub js_mul].
  destruct (i <? c - 1); eexists; (split; [reflexivity|]);
    cbn [log browser results record pushed]; rewrite ?app_nil_r; auto.
Qed.

(** Whatever happens in it, an attempt leaves its trace and then the
    pause. *)
Lemma attempt_trace_and_pause (i : Z) (st : State) :
  exists st' seg r,
    attempt w message link (Num c) (Num d) i st = (Normal tt, st') /\
    log st' = log st ++ seg ++ pause c d i /\ attempt_trace seg /\
    browser st' = browser st /\ results st' = results st ++ [r].
Proof.
  destruct (compose_and_submit_trace st)
    as (ok & rest & (L & P & B & R) & N).
  rewrite app_nil_r in R.
  assert (Hextend : forall b,
            let st2 := after_call Evaluate b
                         (snd (compose_and_submit w message link st)) in
            log st2 = log st ++ (Called (Goto home) ok :: rest ++ [Called Evaluate b]) /\
            attempt_trace (Called (Goto home) ok :: rest ++ [Called Evaluate b]) /\
            browser st2 = browser st /\ results st2 = results st).
  { intros b st2. unfold st2. cbn [log browser results after_call].
    rewrite L, B, R, <- app_assoc. repeat split.
    exists ok, (rest ++ [Called Evaluate b]). split; [reflexivity|].
    rewrite navigations_app, N, forallb_app.
    cbn [forallb] in P. apply andb_true_iff in P. destruct P as [_ ->].
    split; [reflexivity|]. split; [reflexivity|].
    change (Called (Goto home) ok :: rest ++ [Called Evaluate b])
      with ((Called (Goto home) ok :: rest) ++ [Called Evaluate b]).
    rewrite last_last. exact Logic.I. }
  assert (Hseg : forall e st1,
            compose_and_submit w message link st = (Abrupt e, st1) ->
            attempt_trace (Called (Goto home) ok :: rest)).
  { intros e st1 E.
    destruct (compose_and_submit_abrupt st st1 e E) as (seg & Lseg & Hlast).
    rewrite E in L. cbn [snd] in L. rewrite L in Lseg.
    apply app_inv_head in Lseg. subst seg.
    exists ok, rest. cbn [forallb] in P. apply andb_true_iff in P.
    destruct P as [_ P]. auto. }
  destruct (compose_and_submit w message link st) as [[[]|e] st1] eqn:E;
    cbn [snd] in *.
  - destruct (outcome w (calls st1)) as [dom|e] eqn:Ho.
    + destruct (Hextend true) as (L2 & T2 & B2 & R2).
      destruct (dom CreateAPost) eqn:Hd.
      * rewrite (attempt_unconfirmed w message link (Num c) (Num d)
                   i st st1 dom E Ho Hd).
        cbv zeta.
        match goal with
        | |- context [pushed ?r ?s] =>
            destruct (delay_pause i r s) as (st' & E' & L' & B' & R')
        end.
        eexists st', _, _. split; [exact E'|].
        rewrite L', L2, B', B2, R', R2, <- app_assoc. auto.
      * rewrite (attempt_published w message link (Num c) (Num d)
                   i st st1 dom E Ho Hd).
        cbv zeta.
        match goal with
        | |- context [pushed ?r ?s] =>
            destruct (delay_pause i r s) as (st' & E' & L' & B' & R')
        end.
        eexists st', _, _. split; [exact E'|].
        rewrite L', L2, B', B2, R', R2, <- app_assoc. auto.
    + destruct (Hextend false) as (L2 & T2 & B2 & R2).
      rewrite (attempt_evaluate_throws w message link (Num c) (Num d)
                 i st st1 e E Ho).
      cbv zeta.
      match goal with
      | |- context [pushed ?r ?s] =>
          destruct (delay_pause i r s) as (st' & E' & L' & B' & R')
      end.
      eexists st', _, _. split; [exact E'|].
      rewrite L', L2, B', B2, R', R2, <- app_assoc. auto.
  - rewrite (attempt_steps_throw w message link (Num c) (Num d)
               i st st1 e E).
    match goal with
    | |- context [pushed ?r ?s] =>
        destruct (delay_pause i r s) as (st' & E' & L' & B' & R')
    end.
    eexists st', (Called (Goto home) ok :: rest), _. split; [exact E'|].
    rewrite L', L, B', B, R', R, <- app_assoc.
    split; [reflexivity|]. split; [exact (Hseg e st1 eq_refl)|]. auto.
Qed.

(** The loop from attempt [k + 1] on, [fuel] attempts to go. *)
Lemma for_loop_interleaved (fuel k : nat) (st : State) :
  Z.of_nat k + Z.of_nat fuel = c ->
  exists st' segs,
    for_loop w message link (Num c) (Num d) fuel (Z.of_nat k) st
      = (Normal tt, st') /\
    log st' = log st ++ interleave c d (Z.of_nat k) segs /\
    length segs = fuel /\ Forall attempt_trace segs /\
    browser st' = browser st.
Proof.
  revert k st. induction fuel as [|fuel IH]; intros k st Hc.
  - exists st, []. cbn [for_loop interleave]. rewrite app_nil_r.
    split; [now destruct (js_lt (Num (Z.of_nat k)) (Num c))|].
    repeat split. constructor.
  - cbn [for_loop js_lt].
    replace (Z.of_nat k <? c) with true by (symmetry; apply Z.ltb_lt; lia).
    destruct (attempt_trace_and_pause (Z.of_nat k) st)
      as (st1 & seg & r & E1 & L1 & T1 & B1 & _).
    destruct (IH (S k) st1) as (st2 & segs & E2 & L2 & Hlen & T2 & B2);
      [lia|].
    replace (Z.of_nat (S k)) with (Z.of_nat k + 1) in * by lia.
    exists st2, (seg :: segs). unfold bind. rewrite E1, E2.
    split; [reflexivity|]. cbn [interleave length].
    split; [rewrite L2, L1, <- !app_assoc; reflexivity|].
    split; [now rewrite Hlen|]. split; [now constructor | congruence].
Qed.

End Delays.

(** In the run of an accepted request from whose [count] and [delay]
    [parseInt] reads numbers, clamped to [c] and [d], whatever happens in
    the attempts, the log is: the setup; the [c]
    attempts, each beginning with its navigation, and each but the last
    followed by one wait of [d] seconds, after a failure as after a success;
    the 200; the release of the browser.  An attempt's own events never end
    in a wait of more than a second, and [d] is at least 5: the wait before
    each further navigation is the delay, and none follows the last
    attempt. *)
Theorem delay_follows_every_attempt_but_the_last (w : World) (body : JsVal)
  (cookies : list JsVal) (text : jsstring) (c d : Z) :
  accepted body cookies text -> sets_up w ->
  shareCount_in body = Some (Num c) -> shareDelay_in body = Some (Num d) ->
  1 <= c <= 10 /\ 5 <= d <= 60 /\
  exists segs b ok,
    log (run share w body) =
      log (ready cookies) ++ interleave c d 0 segs ++
      [Responded 200 b; Called Close ok] /\
    length segs = Z.to_nat c /\ Forall attempt_trace segs.
Proof.
  intros (Happ & Hmsg & Htrim) Hup Hc Hd.
  pose proof (shareCount_range _ _ Hc) as Hrange.
  split; [exact Hrange|]. split; [exact (shareDelay_range _ _ Hd)|].
  rewrite share_run,
    (share_try_accepted w body cookies text (Num c) (Num d)
       Happ Hmsg Htrim Hc Hd).
  rewrite (post_all_ready w cookies _ _ _ _ Hup).
  cbn [iterations]. unfold bind at 1.
  destruct (for_loop_interleaved w (JStr text) (get body (js "link")) c d
              (Z.to_nat c) 0 (ready cookies))
    as (st' & segs & E & L & Hlen & T & B).
  { cbn [Z.of_nat]. lia. }
  cbn [Z.of_nat] in E, L. rewrite E. cbn [respond].
  set (st := record _ st').
  destruct (close_browser_on w st) as [ok Hclose].
  { unfold st. cbn [browser record]. now rewrite B. }
  eexists segs, _, ok. split; [|split; assumption].
  rewrite Hclose. unfold st. cbn [log record after_call].
  rewrite L, <- !app_assoc. reflexivity.
Qed.

Lemma delay_follows_every_attempt_but_the_last_witness :
  let body := timed_request (JNum 3) (JNum 5) in
  1 <= 3 <= 10 /\ 5 <= 5 <= 60 /\
  exists segs b ok,
    log (run share broken_page body) =
      log (ready (elements session)) ++ interleave 3 5 0 segs ++
      [Responded 200 b; Called Close ok] /\
    length segs = Z.to_nat 3 /\ Forall attempt_trace segs.
Proof.
  apply (delay_follows_every_attempt_but_the_last broken_page
           (timed_request (JNum 3) (JNum 5)) (elements session)
           (js "hello") 3 5).
  - repeat split. discriminate.
  - intros n Hn. exists (fun _ => false). unfold broken_page. cbn [outcome].
    apply Nat.ltb_lt in Hn. now rewrite Hn.
  - reflexivity.
  - reflexivity.
Defined.

(* ================================================================== *)
(** * Errors that escape a handler *)

(** Past the [catch], only [browser.close()] can still throw. *)
Lemma finally_close_abrupt (w : World) (m : M unit) (h : Error -> Body)
  (st : State) (e : Error) :
  fst (finally (try_catch m (fun error => respond 500 (h error)))
         (close_browser w) st) = Abrupt e ->
  exists st1,
    snd (finally (try_catch m (fun error => respond 500 (h error)))
           (close_browser w) st) = after_call Close false st1 /\
    outcome w (calls st1) = Throws e.
Proof.
  unfold finally, try_catch, respond, close_browser, bind, call, ret.
  destruct (m st) as [[[]|e0] st0];
    match goal with
    | |- context [browser ?s] => destruct (browser s)
    end; try discriminate;
    match goal with
    | |- context [outcome w ?n] => destruct (outcome w n) as [d|e1] eqn:Ho
    end; try discriminate;
    intros [= <-]; eexists; split; try reflexivity; exact Ho.
Qed.

(** A handler of [/api/share] or [/api/validate] ends with an error only
    when [browser.close()] throws: every other error is answered.  The
    close is then the last thing the run did, and the answer had been sent
    before it. *)
Theorem only_close_escapes (w : World) (body : JsVal) (e : Error) :
  (fst (share w body start) = Abrupt e ->
   exists l s b n,
     log (run share w body) = l ++ [Called Close false] /\
     responses l = [(s, b)] /\ outcome w n = Throws e) /\
  (fst (validate w body start) = Abrupt e ->
   exists l s b n,
     log (run validate w body) = l ++ [Called Close false] /\
     responses l = [(s, b)] /\ outcome w n = Throws e).
Proof.
  split; intros H.
  - destruct (finally_close_abrupt w _ _ _ _ H) as (st1 & E & Ho).
    destruct (share_shape w body) as (s & b & Hshape & _).
    pose proof (run_shape_responses _ _ _ Hshape) as R.
    unfold run, share in *. rewrite E in *. cbn [log after_call] in *.
    rewrite responses_app in R. cbn [responses flat_map app] in R.
    rewrite app_nil_r in R. eauto 10.
  - destruct (finally_close_abrupt w _ _ _ _ H) as (st1 & E & Ho).
    destruct (validate_shape w body) as (s & b & Hshape).
    pose proof (run_shape_responses _ _ _ Hshape) as R.
    unfold run, validate in *. rewrite E in *. cbn [log after_call] in *.
    rewrite responses_app in R. cbn [responses flat_map app] in R.
    rewrite app_nil_r in R. eauto 10.
Qed.

(* ================================================================== *)
(** * /api/share: what the success rate tells *)

Lemma float_of_Z_100 (q : Z) :
  0 <= q <= 100 ->
  (float_of_Z q = 100%float <-> q = 100) /\
  (float_of_Z q = 0%float <-> q = 0).
Proof.
  intros Hq.
  assert (Hn : exists n, q = Z.of_nat n /\ (n <= 100)%nat).
  { exists (Z.to_nat q). lia. }
  destruct Hn as (n & -> & Hn).
  do 101 (destruct n as [|n];
          [split; split; intros H; try reflexivity; try discriminate H;
           exfalso;
           first
             [ apply (f_equal (fun x => PrimFloat.eqb x 100%float)) in H;
               vm_compute in H; discriminate H
             | apply (f_equal (fun x => PrimFloat.eqb x 0%float)) in H;
               vm_compute in H; discriminate H ] |]).
  lia.
Qed.

Lemma filter_all {A} (f : A -> bool) (l : list A) :
  length (filter f l) = length l <-> forallb f l = true.
Proof.
  induction l as [|x l IH]; cbn [filter forallb length]; [tauto|].
  pose proof (filter_length_le f l) as Hle.
  destruct (f x); cbn [length andb].
  - rewrite <- IH. lia.
  - split; [lia | discriminate].
Qed.

Lemma filter_none {A} (f : A -> bool) (l : list A) :
  length (filter f l) = O <-> forallb (fun x => negb (f x)) l = true.
Proof.
  induction l as [|x l IH]; cbn [filter forallb length]; [tauto|].
  destruct (f x); cbn [length andb negb]; [split; [lia | discriminate]|].
  exact IH.
Qed.

Lemma rate_quotient (s c : Z) :
  1 <= c <= 10 -> 0 <= s <= c ->
  0 <= (200 * s + c) / (2 * c) <= 100 /\
  ((200 * s + c) / (2 * c) = 100 <-> s = c) /\
  ((200 * s + c) / (2 * c) = 0 <-> s = 0).
Proof.
  intros Hc Hs.
  assert (Ec : c = 1 \/ c = 2 \/ c = 3 \/ c = 4 \/ c = 5 \/
               c = 6 \/ c = 7 \/ c = 8 \/ c = 9 \/ c = 10) by lia.
  assert (Es : s = 0 \/ s = 1 \/ s = 2 \/ s = 3 \/ s = 4 \/ s = 5 \/
               s = 6 \/ s = 7 \/ s = 8 \/ s = 9 \/ s = 10) by lia.
  repeat (destruct Ec as [-> | Ec]); try subst c;
    repeat (destruct Es as [-> | Es]); try subst s;
    try lia; vm_compute; intuition discriminate.
Qed.

(** In the summary of a 200 with a numeric count, a [successRate] of 100
    means that every attempt succeeded and a rate of 0 that none did:
    rounding never turns a partial result into either. *)
Theorem success_rate_extremes (w : World) (body : JsVal)
  (rs : list AttemptRecord) (sm : Summary) (c : Z) :
  In (200, BShared rs sm) (responses (log (run share w body))) ->
  shareCount_in body = Some (Num c) ->
  (successRate sm = 100%float <-> forallb success rs = true) /\
  (successRate sm = 0%float
   <-> forallb (fun r => negb (success r)) rs = true).
Proof.
  intros Hin Hc.
  destruct (share_200 w body rs sm Hin) as (sc & Hsc & -> & Hlen & _).
  assert (sc = Num c) as -> by congruence. cbn [iterations] in Hlen.
  pose proof (shareCount_range _ _ Hc) as Hrange.
  set (s := Z.of_nat (length (filter (fun r => success r) rs))).
  assert (Hs : 0 <= s <= c).
  { unfold s. pose proof (filter_length_le (fun r => success r) rs). lia. }
  assert (Hrate : successRate (summarize (Num c) rs)
                  = float_of_Z ((200 * s + c) / (2 * c))).
  { unfold summarize. cbn [successRate to_float]. fold s.
    now apply successRate_exact. }
  destruct (rate_quotient s c Hrange Hs) as (Hq & H100 & H0).
  destruct (float_of_Z_100 _ Hq) as (F100 & F0).
  rewrite Hrate, F100, F0, H100, H0.
  rewrite <- filter_all, <- filter_none. unfold s.
  change (fun r => success r) with success in *. split; lia.
Qed.

Lemma success_rate_extremes_witness :
  let rs := results (run share stuck_composer (post_request (JNum 3))) in
  let sm := summarize (Num 3) rs in
  (successRate sm = 100%float <-> forallb success rs = true) /\
  (successRate sm = 0%float
   <-> forallb (fun r => negb (success r)) rs = true).
Proof.
  apply (success_rate_extremes stuck_composer (post_request (JNum 3))
           (results (run share stuck_composer (post_request (JNum 3))))
           (summarize (Num 3)
              (results (run share stuck_composer (post_request (JNum 3)))))
           3).
  - vm_compute. left. reflexivity.
  - reflexivity.
Defined.
